(** * WoWSQL Go SDK: storage, auth and schema clients

    A shallow embedding of the Go sources
      - the storage client (StorageClient, formatBytes),
      - wowsql/auth_client.go (AuthClient),
      - schema.go and WOWSQL/schema.go (SchemaClient),
    and of the query builder as the specification describes it, together
    with the properties the specification states about them.  The
    definitions come first, the properties after them, and the examples on
    a sample environment last.

    Conventions.  A Go [int64] is a [Z] with its wrap-around written out
    ([int64]); a [[]byte] is a [list byte]; a Go [string] is a [string];
    [map[string]interface{}] is a [gmap string JSON]; a pair [(v, err)]
    returned by a Go function is a [result]; a method that talks to the
    network is a function of the [World], which records every request
    handed to the HTTP transport. *)

From Stdlib Require Import ZArith String Ascii List DecimalString Lia Bool.
From Stdlib Require Import Floats.SpecFloat.
From stdpp Require Import base option list gmap strings.

#[local] Set Warnings "-register-all".
#[local] Open Scope string_scope.
#[local] Open Scope list_scope.
#[local] Open Scope Z_scope.

(* ================================================================= *)
(** ** Go base types *)

Definition bytes := list Byte.byte.

(** [len(b)] of a byte slice, as a Go [int]. *)
Definition len (b : bytes) : Z := Z.of_nat (List.length b).

(** Conversion to [int64]: two's complement wrap-around on 64 bits. *)
Definition int64 (z : Z) : Z := (z + 2 ^ 63) mod 2 ^ 64 - 2 ^ 63.

Definition int64_range (z : Z) : Prop := - 2 ^ 63 <= z < 2 ^ 63.

(** [fmt]'s [%d] verb. *)
Definition fmt_d (z : Z) : string := NilZero.string_of_int (Z.to_int z).

(** [fmt]'s [%t] verb. *)
Definition fmt_t (b : bool) : string := if b then "true" else "false".

(* ----------------------------------------------------------------- *)
(** *** float64 and the [%.2f] verb

    [float64] values are the binary64 numbers of [SpecFloat]
    (precision 53, emax 1024, round to nearest even). *)

Definition float64 := spec_float.

(** [float64(n)] for an integer [n]. *)
Definition float64_of_int (n : Z) : float64 := binary_normalize 53 1024 n 0 false.

Definition float64_div : float64 -> float64 -> float64 := SFdiv 53 1024.

(** [num / den] rounded to the nearest integer, ties to even. *)
Definition round_half_even (num den : Z) : Z :=
  let q := num / den in
  let r := num mod den in
  if 2 * r <? den then q
  else if 2 * r =? den then (if Z.even q then q else q + 1)
  else q + 1.

(** The magnitude [m * 2^e], in hundredths, correctly rounded: [strconv]
    rounds the exact decimal expansion half to even. *)
Definition hundredths (m : positive) (e : Z) : Z :=
  if 0 <=? e then Z.pos m * 2 ^ e * 100
  else round_half_even (Z.pos m * 100) (2 ^ (- e)).

Definition digit (d : Z) : string :=
  String (ascii_of_nat (48 + Z.to_nat d)) EmptyString.

(** [fmt.Sprintf("%.2f", x)]. *)
Definition fmt_f2 (x : float64) : string :=
  match x with
  | S754_zero s => (if s then "-" else "") +:+ "0.00"
  | S754_infinity s => if s then "-Inf" else "+Inf"
  | S754_nan => "NaN"
  | S754_finite s m e =>
      let h := hundredths m e in
      (if s then "-" else "") +:+ fmt_d (h / 100) +:+ "."
        +:+ digit (h mod 100 / 10) +:+ digit (h mod 10)
  end.

(* ================================================================= *)
(** ** formatBytes *)

(** The constant [unit] of [formatBytes]. *)
Definition unit1024 : Z := 1024.

(** The loop [for n := bytes / unit; n >= unit; n /= unit { div *= unit; exp++ }].
    [fuel] bounds the number of iterations; [None] is fuel exhaustion
    ([formatBytes_loop_spec] shows that 64 steps are never used up). *)
Fixpoint formatBytes_loop (fuel : nat) (n div exp : Z) : option (Z * Z) :=
  if unit1024 <=? n then
    match fuel with
    | O => None
    | S fuel' => formatBytes_loop fuel' (Z.quot n unit1024) (int64 (div * unit1024)) (exp + 1)
    end
  else Some (div, exp).

(** ["KMGTPE"[exp]]; an index out of range panics ([None]). *)
Definition unit_letter (exp : Z) : option ascii :=
  if exp <? 0 then None else String.get (Z.to_nat exp) "KMGTPE".

(** [formatBytes(bytes)]; [None] stands for a run-time panic (or for an
    exhausted loop bound). *)
Definition formatBytes (bytes : Z) : option string :=
  if bytes <? unit1024 then Some (fmt_d bytes +:+ " B")
  else
    match formatBytes_loop 64 (Z.quot bytes unit1024) (int64 unit1024) 0 with
    | None => None
    | Some (div, exp) =>
        match unit_letter exp with
        | None => None
        | Some c =>
            Some (fmt_f2 (float64_div (float64_of_int bytes) (float64_of_int div))
                    +:+ " " +:+ String c "B")
        end
    end.

(* ================================================================= *)
(** ** JSON values and errors *)

(** A Go [interface{}] holding a JSON-compatible value. *)
Inductive JSON : Type :=
| JNull
| JBool (b : bool)
| JNumber (n : Z)
| JString (s : string)
| JArray (l : list JSON)
| JObject (m : gmap string JSON).

(** A Go slice is nil or holds elements: [None] is the nil slice.
    [encoding/json] writes a nil slice as [null] and every other slice, the
    empty one too, as an array. *)
Definition json_slice {A} (f : A -> JSON) (l : option (list A)) : JSON :=
  match l with
  | None => JNull
  | Some l => JArray (map f l)
  end.

(** An operand of a [fmt.Errorf] call.  The text of the message is
    [fmt]'s business; an error keeps its format string and operands. *)
Inductive fmt_arg : Type :=
| arg_int (n : Z)
| arg_string (s : string)
| arg_value (v : option JSON).     (* an interface{}; [None] is a nil interface *)

(** Modelled from the spec: the error structs of the SDK, whose declarations
    are not in the sources.  Go [error] values are told apart by dynamic
    type: the plain values of [fmt.Errorf] and of the standard library, and
    the kinds of the error taxonomy, each with the fields that the code
    sets or that the README reads; [otherError] stands for any further
    struct. *)
Inductive error : Type :=
| errorString (format : string) (args : list fmt_arg)   (* fmt.Errorf without %w *)
| wrapError (format : string) (err : error)             (* fmt.Errorf with one %w operand *)
| libError (pkg : string) (text : string)               (* made by the standard library *)
| WOWSQLError (Message : string)
| NetworkError (Err : error)
| StorageError (Message : string) (Err : option error)
| StorageLimitExceededError (Message : string) (RequiredBytes AvailableBytes : Z)
| NotFoundError (Message : string)
| AuthenticationError (Message : string)
| PermissionError (Message : string)
| RateLimitError (Message : string)
| otherError (type_name : string) (Message : string).

(** The type assertion of [err] to a pointer to [NotFoundError]. *)
Definition is_NotFoundError (e : error) : bool :=
  match e with NotFoundError _ => true | _ => false end.

Definition is_PermissionError (e : error) : bool :=
  match e with PermissionError _ => true | _ => false end.

Definition is_NetworkError (e : error) : bool :=
  match e with NetworkError _ => true | _ => false end.

(** Errors whose dynamic type is one of the SDK's own error structs, as
    opposed to the plain values built by [fmt.Errorf] or handed over by the
    standard library. *)
Definition is_SDK_error (e : error) : bool :=
  match e with
  | errorString _ _ | wrapError _ _ | libError _ _ => false
  | _ => true
  end.

(** [strings.Contains]. *)
Fixpoint strings_Contains (s sub : string) : bool :=
  String.prefix sub s ||
  match s with
  | EmptyString => false
  | String _ s' => strings_Contains s' sub
  end.

(* ----------------------------------------------------------------- *)
(** *** Results and computations *)

(** What a Go call yields: a pair [(v, err)] with [err == nil] ([Ok v]) or
    with [err != nil] and [v] left unused ([Err err]), or a run-time panic. *)
Inductive result (A : Type) : Type :=
| Ok (a : A)
| Err (e : error)
| Panic.
Arguments Ok {A} a.
Arguments Err {A} e.
Arguments Panic {A}.

(** [if err != nil { return nil, fmt.Errorf(format, err) }] *)
Definition wrap {A} (format : string) (r : result A) : result A :=
  match r with
  | Err e => Err (wrapError format e)
  | r => r
  end.

(** A method body: it runs in a state [S] and returns early on an error. *)
Definition Comp (S A : Type) : Type := S -> result A * S.

Definition ret {S A} (a : A) : Comp S A := fun s => (Ok a, s).

Definition fail {S A} (e : error) : Comp S A := fun s => (Err e, s).

Definition panic {S A} : Comp S A := fun s => (Panic, s).

Definition bind {S A B} (c : Comp S A) (k : A -> Comp S B) : Comp S B :=
  fun s =>
    match c s with
    | (Ok a, s') => k a s'
    | (Err e, s') => (Err e, s')
    | (Panic, s') => (Panic, s')
    end.

Definition lift {S A} (r : result A) : Comp S A := fun s => (r, s).

Notation "'do' x <- c ; k" := (bind c (fun x => k))
  (at level 10, x name, c at level 100, k at level 200).

(* ================================================================= *)
(** ** HTTP *)

(** One part of a multipart form. *)
Inductive part : Type :=
| FormField (fieldname value : string)
| FormFile (fieldname filename : string) (content : bytes).

Inductive body : Type :=
| json_body (b : bytes)
| multipart_body (boundary : string) (parts : list part).

Record Request : Type := mkRequest {
  Method : string;
  URL : string;
  Header : gmap string string;
  ReqBody : option body
}.

(** [req.Header.Set(k, v)]; every key used by the clients is already in
    canonical form. *)
Definition Header_Set (k v : string) (req : Request) : Request :=
  mkRequest (Method req) (URL req) (<[k := v]> (Header req)) (ReqBody req).

(** A response: its status code and what [io.ReadAll(resp.Body)] (or a
    decoder reading [resp.Body]) gets. *)
Record Response : Type := mkResponse {
  StatusCode : Z;
  Body : result bytes
}.

(** The outcome of [httpClient.Do(req)]. *)
Inductive RoundTrip : Type :=
| TransportError (err : error)      (* no response was received *)
| Reply (resp : Response).

(** [http.Client]: the configured timeout, in nanoseconds. *)
Record http_Client : Type := { Timeout : Z }.

Definition Second : Z := 1000000000.

(** The world outside the process: [network] tells the outcome of the latest
    request of a history of requests, [log] is the round trips made so far. *)
Record World : Type := mkWorld {
  network : http_Client -> list Request -> RoundTrip;
  log : list (Request * RoundTrip)
}.

Definition sent (w : World) : list Request := map fst (log w).

(** [client.Do(req)]: exactly one round trip. *)
Definition Do (client : http_Client) (req : Request) (w : World) : RoundTrip * World :=
  let rt := network w client (sent w ++ [req]) in
  (rt, mkWorld (network w) (log w ++ [(req, rt)])).

(** The requests a computation hands to the transport from [w] on. *)
Definition has_suffix (w w' : World) (delta : list (Request * RoundTrip)) : Prop :=
  network w' = network w /\ log w' = log w ++ delta.

(* ================================================================= *)
(** ** What the modelled files take from elsewhere *)

(** The Go standard library, as far as the clients call it. *)
Class Runtime : Type := {
  (** [json.Marshal] *)
  json_Marshal : JSON -> result bytes;
  (** the error of [http.NewRequest(method, url, _)], if any *)
  http_NewRequest_err : string -> string -> option error;
  (** [url.Parse(s)] followed by [.Host]; [None] when [url.Parse] fails *)
  url_Parse_Host : string -> option string;
  url_QueryEscape : string -> string;
  strings_TrimSpace : string -> string;
  os_ReadFile : string -> result bytes;
  (** the boundary that [multipart.NewWriter] draws *)
  multipart_randomBoundary : string
}.

(** [json.Unmarshal(data, &v)] for a target [v] of type [T]. *)
Class Unmarshal (T : Type) : Type := json_Unmarshal : bytes -> result T.

(** [json.NewDecoder(resp.Body).Decode(&v)] for a target of type [T]; the
    decoder reads the body itself, so it is a function of what reading the
    body gives. *)
Class Decode (T : Type) : Type := json_Decode : result bytes -> result T.

(** The result structs of the storage client, declared in a file that is
    not among the sources: only the field that [Upload] reads is known, an
    [int64]. *)
Class Models : Type := {
  StorageQuota : Type;
  StorageAvailableBytes : StorageQuota -> Z;
  StorageAvailableBytes_int64 : forall q, int64_range (StorageAvailableBytes q);
  FileUploadResult : Type;
  StorageFile : Type
}.

(** The two classifiers of non-2xx responses, [parseError(status, body)] and
    [parseStorageError(status, body)]; they too are defined outside the
    sources. *)
Class ErrorMapper : Type := {
  parseError : Z -> bytes -> error;
  parseStorageError : Z -> bytes -> error
}.

Section Http.
Context `{Runtime}.

(** [http.NewRequest(method, url, body)] *)
Definition http_NewRequest (method url : string) (b : option body) : result Request :=
  match http_NewRequest_err method url with
  | Some e => Err e
  | None => Ok (mkRequest method url ∅ b)
  end.

End Http.

(** [resp.StatusCode < 200 || resp.StatusCode >= 300] *)
Definition non_2xx (status : Z) : bool := (status <? 200) || (300 <=? status).

(* ----------------------------------------------------------------- *)
(** *** mime/multipart, writing into a [bytes.Buffer]

    Writes into an in-memory buffer return a nil error, so the operations
    below always yield [Ok]; the callers still test their error. *)

Record multipart_Writer : Type := mkWriter {
  boundary : string;
  parts : list part
}.

Definition multipart_NewWriter `{Runtime} : multipart_Writer :=
  mkWriter multipart_randomBoundary [].

Definition WriteField (w : multipart_Writer) (fieldname value : string)
  : result multipart_Writer :=
  Ok (mkWriter (boundary w) (parts w ++ [FormField fieldname value])).

(** [writer.CreateFormFile(fieldname, filename)]: a new, empty file part,
    the one that [part.Write] then writes to. *)
Definition CreateFormFile (w : multipart_Writer) (fieldname filename : string)
  : result multipart_Writer :=
  Ok (mkWriter (boundary w) (parts w ++ [FormFile fieldname filename []])).

Definition part_Write (w : multipart_Writer) (data : bytes) : result multipart_Writer :=
  match reverse (parts w) with
  | FormFile f n c :: before =>
      Ok (mkWriter (boundary w) (reverse before ++ [FormFile f n (c ++ data)]))
  | _ => Err (libError "mime/multipart" "multipart: can't write to finished part")
  end.

Definition Writer_Close (w : multipart_Writer) : result multipart_Writer := Ok w.

Definition FormDataContentType (w : multipart_Writer) : string :=
  "multipart/form-data; boundary=" +:+ boundary w.

(* ----------------------------------------------------------------- *)
(** *** strings *)

(** [strings.Split(s, sep)] for a one-character separator. *)
Fixpoint strings_Split (s : string) (sep : ascii) : list string :=
  match s with
  | EmptyString => [EmptyString]
  | String a s' =>
      if Ascii.eqb a sep then EmptyString :: strings_Split s' sep
      else
        match strings_Split s' sep with
        | h :: t => String a h :: t
        | [] => [String a EmptyString]
        end
  end.

(** [strings.Index(s, sep)]: [-1] when [sep] does not occur. *)
Definition strings_Index (s sep : string) : Z :=
  match String.index 0 sep s with
  | Some i => Z.of_nat i
  | None => -1
  end.

Definition strings_HasPrefix (s pre : string) : bool := String.prefix pre s.

Definition strings_HasSuffix (s suf : string) : bool :=
  (String.length suf <=? String.length s)%nat &&
  String.eqb (substring (String.length s - String.length suf) (String.length suf) s) suf.

Definition strings_TrimSuffix (s suf : string) : string :=
  if strings_HasSuffix s suf
  then substring 0 (String.length s - String.length suf) s
  else s.

(* ================================================================= *)
(** ** The storage client *)

Module Storage.

Record StorageClient : Type := mkStorageClient {
  projectURL : string;
  apiKey : string;
  httpClient : http_Client;
  autoCheckQuota : bool
}.

Definition NewStorageClient (projectURL apiKey : string) : StorageClient :=
  {| projectURL := projectURL;
     apiKey := apiKey;
     autoCheckQuota := true;
     httpClient := {| Timeout := 60 * Second |} |}.

Definition NewStorageClientWithOptions (projectURL apiKey : string) (timeout : Z)
    (autoCheckQuota : bool) : StorageClient :=
  {| projectURL := projectURL;
     apiKey := apiKey;
     autoCheckQuota := autoCheckQuota;
     httpClient := {| Timeout := timeout |} |}.

(** The anonymous result structs of [Download]/[GetPresignedUrl] and of
    [ListFiles]. *)
Record url_result : Type := { result_URL : string }.
Record files_result `{Models} : Type := { result_Files : list StorageFile }.

Section Client.
Context `{Runtime} `{Models} `{ErrorMapper}.
Context `{!Unmarshal StorageQuota} `{!Unmarshal FileUploadResult}
        `{!Unmarshal StorageFile} `{!Unmarshal url_result}
        `{!Unmarshal files_result} `{!Unmarshal (gmap string JSON)}
        `{!Unmarshal (list (gmap string JSON))}.

(** [doRequest] performs an HTTP request. *)
Definition doRequest (s : StorageClient) (method path : string) (body : option JSON)
  : Comp World bytes :=
  do bodyReader <-
    match body with
    | Some b =>
        do jsonBody <- lift (wrap "failed to marshal request body: %w" (json_Marshal b));
        ret (Some (json_body jsonBody))
    | None => ret None
    end;
  let url := projectURL s +:+ path in
  do req <- lift (wrap "failed to create request: %w" (http_NewRequest method url bodyReader));
  let req := Header_Set "Content-Type" "application/json" req in
  let req := Header_Set "Accept" "application/json" req in
  let req := Header_Set "Authorization" ("Bearer " +:+ apiKey s) req in
  fun w =>
    match Do (httpClient s) req w with
    | (TransportError err, w') => (Err (StorageError "" (Some err)), w')
    | (Reply resp, w') =>
        match wrap "failed to read response body: %w" (Body resp) with
        | Ok respBody =>
            if non_2xx (StatusCode resp)
            then (Err (parseStorageError (StatusCode resp) respBody), w')
            else (Ok respBody, w')
        | Err e => (Err e, w')
        | Panic => (Panic, w')
        end
    end.

(** [json.Unmarshal(resp, &v)] with the clients' wrapping of its error. *)
Definition parse_response {T} `{!Unmarshal T} (resp : bytes) : Comp World T :=
  lift (wrap "failed to parse response: %w" (json_Unmarshal resp)).

(** [GetQuota] retrieves storage quota information. *)
Definition GetQuota (s : StorageClient) : Comp World StorageQuota :=
  do resp <- doRequest s "GET" "/api/v1/storage/quota" None;
  parse_response resp.

(** The message of the local quota failure; [formatBytes] may panic. *)
Definition limit_message (required available : Z) : option string :=
  match formatBytes required, formatBytes available with
  | Some need, Some avail =>
      Some ("Storage limit exceeded. Need " +:+ need +:+ ", but only "
              +:+ avail +:+ " available.")
  | _, _ => None
  end.

(** [Upload] uploads a file to storage. *)
Definition Upload (s : StorageClient) (fileData : bytes) (key contentType : string)
    (checkQuota : option bool) : Comp World FileUploadResult :=
  let shouldCheck :=
    match checkQuota with
    | Some b => b
    | None => autoCheckQuota s
    end in
  (* Check quota if enabled *)
  do _ <-
    (if shouldCheck then
       do quota <- GetQuota s;
       if StorageAvailableBytes quota <? int64 (len fileData) then
         match limit_message (int64 (len fileData)) (StorageAvailableBytes quota) with
         | Some msg =>
             fail (StorageLimitExceededError msg (int64 (len fileData))
                     (StorageAvailableBytes quota))
         | None => panic
         end
       else ret tt
     else ret tt);
  (* Create multipart form *)
  let writer := multipart_NewWriter in
  do writer <- lift (wrap "failed to write key field: %w" (WriteField writer "key" key));
  do writer <-
    (if negb (String.eqb contentType "") then
       lift (wrap "failed to write content_type field: %w"
               (WriteField writer "content_type" contentType))
     else ret writer);
  do writer <- lift (wrap "failed to create form file: %w"
                       (CreateFormFile writer "file" key));
  do writer <- lift (wrap "failed to write file data: %w" (part_Write writer fileData));
  do writer <- lift (wrap "failed to close multipart writer: %w" (Writer_Close writer));
  (* Make request *)
  let url := projectURL s +:+ "/api/v1/storage/upload" in
  do req <- lift (wrap "failed to create request: %w"
                    (http_NewRequest "POST" url
                       (Some (multipart_body (boundary writer) (parts writer)))));
  let req := Header_Set "Content-Type" (FormDataContentType writer) req in
  let req := Header_Set "Authorization" ("Bearer " +:+ apiKey s) req in
  fun w =>
    match Do (httpClient s) req w with
    | (TransportError err, w') => (Err (StorageError "" (Some err)), w')
    | (Reply resp, w') =>
        match wrap "failed to read response body: %w" (Body resp) with
        | Ok respBody =>
            if non_2xx (StatusCode resp)
            then (Err (parseStorageError (StatusCode resp) respBody), w')
            else parse_response respBody w'
        | Err e => (Err e, w')
        | Panic => (Panic, w')
        end
    end.

(** [Download] gets a presigned URL for downloading a file. *)
Definition Download (s : StorageClient) (key : string) (expiresIn : Z) : Comp World string :=
  let url := "/api/v1/storage/download?key=" +:+ key +:+ "&expires_in=" +:+ fmt_d expiresIn in
  do resp <- doRequest s "GET" url None;
  do result <- parse_response resp;
  ret (result_URL result).

(** [ListFiles] lists files in storage. *)
Definition ListFiles (s : StorageClient) (prefix : string) (limit : Z)
  : Comp World (list StorageFile) :=
  let url := "/api/v1/storage/list" in
  let url :=
    if negb (String.eqb prefix "") || (0 <? limit) then
      let url := url +:+ "?" in
      let url := if negb (String.eqb prefix "") then url +:+ "prefix=" +:+ prefix else url in
      if 0 <? limit then
        let url := if negb (String.eqb prefix "") then url +:+ "&" else url in
        url +:+ "limit=" +:+ fmt_d limit
      else url
    else url in
  do resp <- doRequest s "GET" url None;
  do result <- parse_response resp;
  ret (result_Files result).

(** [DeleteFile] deletes a single file. *)
Definition DeleteFile (s : StorageClient) (key : string) : Comp World unit :=
  let body := JObject (<["key" := JString key]> ∅) in
  do _ <- doRequest s "DELETE" "/api/v1/storage/delete" (Some body);
  ret tt.

(** [DeleteFiles] deletes multiple files. *)
Definition DeleteFiles (s : StorageClient) (keys : option (list string))
  : Comp World unit :=
  let body := JObject (<["keys" := json_slice JString keys]> ∅) in
  do _ <- doRequest s "DELETE" "/api/v1/storage/delete-batch" (Some body);
  ret tt.

(** [GetFileInfo] gets information about a file. *)
Definition GetFileInfo (s : StorageClient) (key : string) : Comp World StorageFile :=
  let url := "/api/v1/storage/info?key=" +:+ key in
  do resp <- doRequest s "GET" url None;
  parse_response resp.

(** [FileExists] checks if a file exists; the value is the Go pair
    [(bool, error)], with [None] for a nil error. *)
Definition FileExists (s : StorageClient) (key : string) : Comp World (bool * option error) :=
  fun w =>
    match GetFileInfo s key w with
    | (Err err, w') =>
        if is_NotFoundError err then (Ok (false, None), w')
        else (Ok (false, Some err), w')
    | (Ok _, w') => (Ok (true, None), w')
    | (Panic, w') => (Panic, w')
    end.

(** [parts[0]] of [strings.Split(s, ".")], guarded by [len(parts) > 0]. *)
Definition first_label (s : string) : option string :=
  match strings_Split s "." with
  | p :: _ => Some p
  | [] => None
  end.

(** [extractProjectSlug] extracts the project slug from a project URL. *)
Definition extractProjectSlug (s : StorageClient) : string :=
  let projectURL := strings_TrimSpace (projectURL s) in
  let from_url :=
    if strings_HasPrefix projectURL "http://" || strings_HasPrefix projectURL "https://" then
      match url_Parse_Host projectURL with
      | Some host =>
          let idx := strings_Index host ":" in
          let host := if negb (idx =? -1) then substring 0 (Z.to_nat idx) host else host in
          first_label host
      | None => None
      end
    else None in
  match from_url with
  | Some slug => slug
  | None =>
      match (if strings_Contains projectURL "." then first_label projectURL else None) with
      | Some slug => slug
      | None => projectURL
      end
  end.

(** [GetFileUrl] gets a presigned URL with full metadata. *)
Definition GetFileUrl (s : StorageClient) (key : string) (expiresIn : Z)
  : Comp World (gmap string JSON) :=
  let projectSlug := extractProjectSlug s in
  let path := "/api/v1/storage/s3/projects/" +:+ projectSlug +:+ "/files/" +:+ key
                +:+ "/url?expires_in=" +:+ fmt_d expiresIn in
  do resp <- doRequest s "GET" path None;
  parse_response resp.

(** [GetPresignedUrl] generates a presigned URL for file operations. *)
Definition GetPresignedUrl (s : StorageClient) (key : string) (expiresIn : Z)
    (operation : string) : Comp World string :=
  let projectSlug := extractProjectSlug s in
  let body := JObject (<["file_key" := JString key]>
                        (<["expires_in" := JNumber expiresIn]>
                          (<["operation" := JString operation]> ∅))) in
  let path := "/api/v1/storage/s3/projects/" +:+ projectSlug +:+ "/presigned-url" in
  do resp <- doRequest s "POST" path (Some body);
  do result <- parse_response resp;
  ret (result_URL result).

(** [GetStorageInfo] gets S3 storage information for the project. *)
Definition GetStorageInfo (s : StorageClient) : Comp World (gmap string JSON) :=
  let projectSlug := extractProjectSlug s in
  let path := "/api/v1/storage/s3/projects/" +:+ projectSlug +:+ "/info" in
  do resp <- doRequest s "GET" path None;
  parse_response resp.

(** [ProvisionStorage] provisions S3 storage for the project. *)
Definition ProvisionStorage (s : StorageClient) (region : string)
  : Comp World (gmap string JSON) :=
  let projectSlug := extractProjectSlug s in
  let body := JObject (<["region" := JString region]> ∅) in
  let path := "/api/v1/storage/s3/projects/" +:+ projectSlug +:+ "/provision" in
  do resp <- doRequest s "POST" path (Some body);
  parse_response resp.

(** [GetAvailableRegions] gets the list of available S3 regions. *)
Definition GetAvailableRegions (s : StorageClient) : Comp World (list (gmap string JSON)) :=
  do resp <- doRequest s "GET" "/api/v1/storage/s3/regions" None;
  parse_response resp.

(** [UploadFromPath] uploads a file from a local filesystem path. *)
Definition UploadFromPath (s : StorageClient) (filePath key contentType : string)
    (checkQuota : option bool) : Comp World FileUploadResult :=
  do fileData <- lift (wrap "failed to read file: %w" (os_ReadFile filePath));
  Upload s fileData key contentType checkQuota.

End Client.
End Storage.

(* ================================================================= *)
(** ** The auth client (wowsql/auth_client.go) *)

Module Auth.

Record AuthConfig : Type := {
  ProjectURL : string;
  BaseDomain : string;
  Secure : bool;
  config_Timeout : Z;
  APIKey : string;
  PublicAPIKey : string
}.

Record AuthClient : Type := mkAuthClient {
  baseURL : string;
  httpClient : http_Client;
  apiKey : string;
  publicKey : string;
  accessToken : string;
  refreshToken : string
}.

Record AuthUser : Type := {
  ID : string;
  Email : string;
  FullName : string;
  AvatarURL : string;
  EmailVerified : bool;
  UserMetadata : gmap string JSON;
  AppMetadata : gmap string JSON;
  CreatedAt : string
}.

Record AuthSession : Type := mkAuthSession {
  AccessToken : string;
  RefreshToken : string;
  TokenType : string;
  ExpiresIn : Z
}.

Record AuthResult : Type := mkAuthResult {
  User : option AuthUser;
  Session : AuthSession
}.

Record OAuthAuthorizeResponse : Type := {
  AuthorizationURL : string;
  Provider : string;
  RedirectURI : string;
  BackendCallbackURL : string;
  FrontendRedirectURI : string
}.

Record signUpRequest : Type := mkSignUpRequest {
  signUp_Email : string;
  signUp_Password : string;
  signUp_FullName : option string;
  signUp_UserMetadata : option (gmap string JSON)
}.

Record loginRequest : Type := {
  login_Email : string;
  login_Password : string
}.

Record authResponse : Type := {
  resp_User : option AuthUser;
  resp_AccessToken : string;
  resp_RefreshToken : string;
  resp_TokenType : string;
  resp_ExpiresIn : Z
}.

Record loginResponse : Type := {
  login_AccessToken : string;
  login_RefreshToken : string;
  login_TokenType : string;
  login_ExpiresIn : Z
}.

(** The JSON objects that the struct tags of the two request structs
    describe; [omitempty] drops a nil pointer and an empty map. *)
Definition signUpRequest_json (r : signUpRequest) : JSON :=
  let m : gmap string JSON :=
    <["email" := JString (signUp_Email r)]>
      (<["password" := JString (signUp_Password r)]> ∅) in
  let m := match signUp_FullName r with
           | Some n => <["full_name" := JString n]> m
           | None => m
           end in
  let m := match signUp_UserMetadata r with
           | Some md => if decide (md = ∅) then m else <["user_metadata" := JObject md]> m
           | None => m
           end in
  JObject m.

Definition loginRequest_json (r : loginRequest) : JSON :=
  JObject (<["email" := JString (login_Email r)]>
            (<["password" := JString (login_Password r)]> ∅)).

(** The state of a method call: the receiver and the world. *)
Definition St : Type := AuthClient * World.

Section Client.
Context `{Runtime} `{ErrorMapper}.
Context `{!Unmarshal authResponse} `{!Unmarshal loginResponse} `{!Unmarshal AuthUser}
        `{!Unmarshal OAuthAuthorizeResponse} `{!Unmarshal (gmap string JSON)}.

Definition buildAuthBaseURL (projectURL baseDomain : string) (secure : bool) : string :=
  let baseDomain := if String.eqb baseDomain "" then "wowsql.com" else baseDomain in
  let normalized := strings_TrimSpace projectURL in
  if strings_HasPrefix normalized "http://" || strings_HasPrefix normalized "https://" then
    let normalized := strings_TrimSuffix normalized "/" in
    let normalized :=
      if strings_HasSuffix normalized "/api" then strings_TrimSuffix normalized "/api"
      else normalized in
    normalized +:+ "/api/auth"
  else
    let protocol := if negb secure then "http" else "https" in
    let normalized :=
      if strings_Contains normalized ("." +:+ baseDomain)
         || strings_HasSuffix normalized baseDomain
      then protocol +:+ "://" +:+ normalized
      else protocol +:+ "://" +:+ normalized +:+ "." +:+ baseDomain in
    let normalized := strings_TrimSuffix normalized "/" in
    let normalized :=
      if strings_HasSuffix normalized "/api" then strings_TrimSuffix normalized "/api"
      else normalized in
    normalized +:+ "/api/auth".

(** [NewAuthClient] constructs a new project auth client. *)
Definition NewAuthClient (config : AuthConfig) : AuthClient :=
  let base := buildAuthBaseURL (ProjectURL config) (BaseDomain config) (Secure config) in
  let timeout := if config_Timeout config =? 0 then 30 * Second else config_Timeout config in
  let unifiedKey := if String.eqb (APIKey config) "" then PublicAPIKey config else APIKey config in
  {| baseURL := base;
     apiKey := unifiedKey;
     publicKey := unifiedKey;
     httpClient := {| Timeout := timeout |};
     accessToken := "";
     refreshToken := "" |}.

Definition doRequest (c : AuthClient) (method path : string) (body : option JSON)
    (headers : gmap string string) : Comp World bytes :=
  do reader <-
    match body with
    | Some b =>
        do payload <- lift (wrap "failed to encode request body: %w" (json_Marshal b));
        ret (Some (json_body payload))
    | None => ret None
    end;
  let url := baseURL c +:+ path in
  do req <- lift (wrap "failed to create request: %w" (http_NewRequest method url reader));
  let req := Header_Set "Content-Type" "application/json" req in
  let req :=
    if negb (String.eqb (apiKey c) "") then
      Header_Set "Authorization" ("Bearer " +:+ apiKey c) req
    else if negb (String.eqb (publicKey c) "") then
      Header_Set "Authorization" ("Bearer " +:+ publicKey c) req
    else req in
  let req := map_fold Header_Set req headers in
  fun w =>
    match Do (httpClient c) req w with
    | (TransportError err, w') => (Err (NetworkError err), w')
    | (Reply resp, w') =>
        match wrap "failed to read response body: %w" (Body resp) with
        | Ok bodyBytes =>
            if non_2xx (StatusCode resp)
            then (Err (parseError (StatusCode resp) bodyBytes), w')
            else (Ok bodyBytes, w')
        | Err e => (Err e, w')
        | Panic => (Panic, w')
        end
    end.

(** A call of [c.doRequest] from a method with receiver [c]. *)
Definition request (method path : string) (body : option JSON)
    (headers : gmap string string) : Comp St bytes :=
  fun '(c, w) =>
    let '(r, w') := doRequest c method path body headers w in
    (r, (c, w')).

Definition persistSession (session : AuthSession) : Comp St unit :=
  fun '(c, w) =>
    (Ok tt,
     (mkAuthClient (baseURL c) (httpClient c) (apiKey c) (publicKey c)
        (AccessToken session) (RefreshToken session), w)).

Definition session_of (resp : authResponse) : AuthSession :=
  {| AccessToken := resp_AccessToken resp;
     RefreshToken := resp_RefreshToken resp;
     TokenType := resp_TokenType resp;
     ExpiresIn := resp_ExpiresIn resp |}.

(** [SignUp] registers a new end user for the project. *)
Definition SignUp (email password : string) (options : list (signUpRequest -> signUpRequest))
  : Comp St AuthResult :=
  let payload := {| signUp_Email := email; signUp_Password := password;
                    signUp_FullName := None; signUp_UserMetadata := None |} in
  let payload := fold_left (fun p opt => opt p) options payload in
  do body <- request "POST" "/signup" (Some (signUpRequest_json payload)) ∅;
  do resp <- lift (wrap "failed to parse signup response: %w" (json_Unmarshal body));
  let session := session_of resp in
  do _ <- persistSession session;
  ret {| User := resp_User resp; Session := session |}.

Definition WithFullName (fullName : string) : signUpRequest -> signUpRequest :=
  fun req => mkSignUpRequest (signUp_Email req) (signUp_Password req) (Some fullName)
               (signUp_UserMetadata req).

Definition WithUserMetadata (metadata : option (gmap string JSON))
  : signUpRequest -> signUpRequest :=
  fun req => mkSignUpRequest (signUp_Email req) (signUp_Password req) (signUp_FullName req)
               metadata.

(** [SignIn] authenticates an existing user. *)
Definition SignIn (email password : string) : Comp St AuthResult :=
  let payload := {| login_Email := email; login_Password := password |} in
  do body <- request "POST" "/login" (Some (loginRequest_json payload)) ∅;
  do resp <- lift (wrap "failed to parse login response: %w" (json_Unmarshal body));
  let session := {| AccessToken := login_AccessToken resp;
                    RefreshToken := login_RefreshToken resp;
                    TokenType := login_TokenType resp;
                    ExpiresIn := login_ExpiresIn resp |} in
  do _ <- persistSession session;
  ret {| User := None; Session := session |}.

(** [GetUser] fetches the current user profile using the stored access
    token. *)
Definition GetUser (tokenOverride : list string) : Comp St AuthUser :=
  fun '(c, w) =>
    let token := accessToken c in
    let token :=
      match tokenOverride with
      | t :: _ => if negb (String.eqb t "") then t else token
      | [] => token
      end in
    if String.eqb token "" then
      (Err (WOWSQLError "access token is required to fetch user profile"), (c, w))
    else
      let headers : gmap string string := <["Authorization" := "Bearer " +:+ token]> ∅ in
      (do body <- request "GET" "/me" None headers;
       lift (wrap "failed to parse user response: %w" (json_Unmarshal body))) (c, w).

(** [GetOAuthAuthorizationURL] requests the provider authorization URL. *)
Definition GetOAuthAuthorizationURL (provider redirectURL : string)
  : Comp St OAuthAuthorizeResponse :=
  let path := "/oauth/" +:+ provider +:+ "?frontend_redirect_uri="
                +:+ url_QueryEscape redirectURL in
  do body <- request "GET" path None ∅;
  lift (wrap "failed to parse oauth response: %w" (json_Unmarshal body)).

(** [ExchangeOAuthCallback] exchanges an OAuth callback code for tokens. *)
Definition ExchangeOAuthCallback (provider code : string) (redirectURI : option string)
  : Comp St AuthResult :=
  let payload : gmap string JSON := <["code" := JString code]> ∅ in
  let payload := match redirectURI with
                 | Some u => <["redirect_uri" := JString u]> payload
                 | None => payload
                 end in
  do body <- request "POST" ("/oauth/" +:+ provider +:+ "/callback") (Some (JObject payload)) ∅;
  do resp <- lift (wrap "failed to parse oauth callback response: %w" (json_Unmarshal body));
  let session := session_of resp in
  do _ <- persistSession session;
  ret {| User := resp_User resp; Session := session |}.

(** [ForgotPassword] requests a password reset email. *)
Definition ForgotPassword (email : string) : Comp St (gmap string JSON) :=
  let payload : gmap string JSON := <["email" := JString email]> ∅ in
  do body <- request "POST" "/forgot-password" (Some (JObject payload)) ∅;
  lift (wrap "failed to parse forgot password response: %w" (json_Unmarshal body)).

(** [ResetPassword] resets the password with a token. *)
Definition ResetPassword (token newPassword : string) : Comp St (gmap string JSON) :=
  let payload : gmap string JSON :=
    <["token" := JString token]> (<["new_password" := JString newPassword]> ∅) in
  do body <- request "POST" "/reset-password" (Some (JObject payload)) ∅;
  lift (wrap "failed to parse reset password response: %w" (json_Unmarshal body)).

(** [GetSession] returns the currently stored tokens. *)
Definition GetSession (c : AuthClient) : AuthSession :=
  {| AccessToken := accessToken c;
     RefreshToken := refreshToken c;
     TokenType := "bearer";
     ExpiresIn := 0 |}.

(** [SetSession] overrides stored tokens. *)
Definition SetSession (accessToken refreshToken : string) (c : AuthClient) : AuthClient :=
  mkAuthClient (baseURL c) (httpClient c) (apiKey c) (publicKey c) accessToken refreshToken.

(** [ClearSession] removes stored tokens. *)
Definition ClearSession (c : AuthClient) : AuthClient :=
  mkAuthClient (baseURL c) (httpClient c) (apiKey c) (publicKey c) "" "".

(** [purpose != "login" && purpose != "signup" && purpose != "password_reset"] *)
Definition bad_otp_purpose (purpose : string) : bool :=
  negb (String.eqb purpose "login") && negb (String.eqb purpose "signup")
    && negb (String.eqb purpose "password_reset").

(** [SendOTP] sends an OTP code to the user's email. *)
Definition SendOTP (email purpose : string) : Comp St (gmap string JSON) :=
  if bad_otp_purpose purpose then
    fail (errorString "purpose must be 'login', 'signup', or 'password_reset'" [])
  else
    let payload : gmap string JSON :=
      <["email" := JString email]> (<["purpose" := JString purpose]> ∅) in
    do body <- request "POST" "/otp/send" (Some (JObject payload)) ∅;
    lift (wrap "failed to parse send OTP response: %w" (json_Unmarshal body)).

(** [VerifyOTP] verifies an OTP and completes authentication. *)
Definition VerifyOTP (email otp purpose : string) (newPassword : option string)
  : Comp St AuthResult :=
  if bad_otp_purpose purpose then
    fail (errorString "purpose must be 'login', 'signup', or 'password_reset'" [])
  else if String.eqb purpose "password_reset" && bool_decide (newPassword = None) then
    fail (errorString "newPassword is required for password_reset purpose" [])
  else
    let payload : gmap string JSON :=
      <["email" := JString email]>
        (<["otp" := JString otp]> (<["purpose" := JString purpose]> ∅)) in
    let payload := match newPassword with
                   | Some pw => <["new_password" := JString pw]> payload
                   | None => payload
                   end in
    do body <- request "POST" "/otp/verify" (Some (JObject payload)) ∅;
    if String.eqb purpose "password_reset" then
      do _ <- lift (wrap "failed to parse verify OTP response: %w"
                      (json_Unmarshal (T := gmap string JSON) body));
      ret {| User := None;
             Session := {| AccessToken := ""; RefreshToken := "";
                           TokenType := ""; ExpiresIn := 0 |} |}
    else
      do resp <- lift (wrap "failed to parse verify OTP response: %w" (json_Unmarshal body));
      let session := session_of resp in
      do _ <- persistSession session;
      ret {| User := resp_User resp; Session := session |}.

(** [purpose != "login" && purpose != "signup" && purpose != "email_verification"] *)
Definition bad_magic_link_purpose (purpose : string) : bool :=
  negb (String.eqb purpose "login") && negb (String.eqb purpose "signup")
    && negb (String.eqb purpose "email_verification").

(** [SendMagicLink] sends a magic link to the user's email. *)
Definition SendMagicLink (email purpose : string) : Comp St (gmap string JSON) :=
  if bad_magic_link_purpose purpose then
    fail (errorString "purpose must be 'login', 'signup', or 'email_verification'" [])
  else
    let payload : gmap string JSON :=
      <["email" := JString email]> (<["purpose" := JString purpose]> ∅) in
    do body <- request "POST" "/magic-link/send" (Some (JObject payload)) ∅;
    lift (wrap "failed to parse send magic link response: %w" (json_Unmarshal body)).

(** [VerifyEmail] verifies an email address using a token. *)
Definition VerifyEmail (token : string) : Comp St (gmap string JSON) :=
  let payload : gmap string JSON := <["token" := JString token]> ∅ in
  do body <- request "POST" "/verify-email" (Some (JObject payload)) ∅;
  lift (wrap "failed to parse verify email response: %w" (json_Unmarshal body)).

(** [ResendVerification] resends the verification email. *)
Definition ResendVerification (email : string) : Comp St (gmap string JSON) :=
  let payload : gmap string JSON := <["email" := JString email]> ∅ in
  do body <- request "POST" "/resend-verification" (Some (JObject payload)) ∅;
  lift (wrap "failed to parse resend verification response: %w" (json_Unmarshal body)).

End Client.
End Auth.

(* ================================================================= *)
(** ** The schema clients *)

Section SchemaCommon.
Context `{!Decode (gmap string JSON)}.

(** [var errorResp map[string]interface{}; json.NewDecoder(resp.Body).Decode(&errorResp)]
    with the decoder's error dropped: after a failed decode the map is
    still nil ([None]). *)
Definition decode_error_body (b : result bytes) : option (gmap string JSON) :=
  match json_Decode b with
  | Ok m => Some m
  | _ => None
  end.

(** [m[key]] of a possibly nil map, as an [interface{}]: a missing key and
    a JSON [null] are the nil interface. *)
Definition index_map (m : option (gmap string JSON)) (key : string) : option JSON :=
  match m with
  | Some m =>
      match m !! key with
      | Some JNull => None
      | v => v
      end
  | None => None
  end.

End SchemaCommon.

Definition json_opt {A} (f : A -> JSON) (key : string) (v : option A)
    (m : gmap string JSON) : gmap string JSON :=
  match v with
  | Some a => <[key := f a]> m
  | None => m
  end.

Definition json_nonempty_string (key value : string) (m : gmap string JSON)
  : gmap string JSON :=
  if String.eqb value "" then m else <[key := JString value]> m.

Definition json_nonempty_strings (key : string) (l : list string) (m : gmap string JSON)
  : gmap string JSON :=
  match l with
  | [] => m
  | _ => <[key := JArray (map JString l)]> m
  end.

(** *** schema.go *)

Module Schema.

Record ColumnDefinition : Type := {
  Name : string;
  Type_ : string;
  AutoIncrement : option bool;
  Unique : option bool;
  Nullable : option bool;
  Default : option string
}.

Record CreateTableRequest : Type := {
  TableName : string;
  Columns : option (list ColumnDefinition);   (* a slice without omitempty *)
  PrimaryKey : option string;
  Indexes : list string
}.

Record AlterTableRequest : Type := {
  alter_TableName : string;
  Operation : string;
  ColumnName : option string;
  ColumnType : option string;
  NewColumnName : option string;
  alter_Nullable : option bool;
  alter_Default : option string
}.

Record SchemaResponse : Type := {
  Success : bool;
  Message : string;
  Table : string;
  resp_Operation : string;
  RowsAffected : Z;
  Warning : string
}.

Record SchemaClient : Type := {
  baseURL : string;
  serviceKey : string;
  httpClient : http_Client
}.

Definition NewSchemaClient (projectURL serviceKey : string) : SchemaClient :=
  {| baseURL := projectURL; serviceKey := serviceKey; httpClient := {| Timeout := 0 |} |}.

(** The JSON objects described by the struct tags. *)
Definition ColumnDefinition_json (d : ColumnDefinition) : JSON :=
  JObject
    (json_opt JString "default" (Default d)
      (json_opt JBool "nullable" (Nullable d)
        (json_opt JBool "unique" (Unique d)
          (json_opt JBool "auto_increment" (AutoIncrement d)
            (<["type" := JString (Type_ d)]> (<["name" := JString (Name d)]> ∅)))))).

Definition CreateTableRequest_json (r : CreateTableRequest) : JSON :=
  JObject
    (json_nonempty_strings "indexes" (Indexes r)
      (json_opt JString "primary_key" (PrimaryKey r)
        (<["columns" := json_slice ColumnDefinition_json (Columns r)]>
          (<["table_name" := JString (TableName r)]> ∅)))).

Definition AlterTableRequest_json (r : AlterTableRequest) : JSON :=
  JObject
    (json_opt JString "default" (alter_Default r)
      (json_opt JBool "nullable" (alter_Nullable r)
        (json_opt JString "new_column_name" (NewColumnName r)
          (json_opt JString "column_type" (ColumnType r)
            (json_opt JString "column_name" (ColumnName r)
              (<["operation" := JString (Operation r)]>
                (<["table_name" := JString (alter_TableName r)]> ∅))))))).

Section Client.
Context `{Runtime} `{!Decode (gmap string JSON)} `{!Decode SchemaResponse}.

(** [CreateTable] creates a new table in the database. *)
Definition CreateTable (c : SchemaClient) (req : CreateTableRequest)
  : Comp World SchemaResponse :=
  let url := baseURL c +:+ "/api/v2/schema/tables" in
  do jsonData <- lift (wrap "failed to marshal request: %w"
                         (json_Marshal (CreateTableRequest_json req)));
  do httpReq <- lift (wrap "failed to create request: %w"
                        (http_NewRequest "POST" url (Some (json_body jsonData))));
  let httpReq := Header_Set "Authorization" ("Bearer " +:+ serviceKey c) httpReq in
  let httpReq := Header_Set "Content-Type" "application/json" httpReq in
  fun w =>
    match Do (httpClient c) httpReq w with
    | (TransportError err, w') => (Err (wrapError "failed to execute request: %w" err), w')
    | (Reply resp, w') =>
        if StatusCode resp =? 403 then
          (Err (errorString
                  "schema operations require a SERVICE ROLE key. You are using an anonymous key which cannot modify database schema"
                  []), w')
        else if negb (StatusCode resp =? 200) then
          let errorResp := decode_error_body (Body resp) in
          (Err (errorString "failed to create table: %v"
                  [arg_value (index_map errorResp "detail")]), w')
        else
          (wrap "failed to decode response: %w" (json_Decode (Body resp)), w')
    end.

(** [AlterTable] alters an existing table. *)
Definition AlterTable (c : SchemaClient) (req : AlterTableRequest)
  : Comp World SchemaResponse :=
  let url := baseURL c +:+ "/api/v2/schema/tables/" +:+ alter_TableName req in
  do jsonData <- lift (wrap "failed to marshal request: %w"
                         (json_Marshal (AlterTableRequest_json req)));
  do httpReq <- lift (wrap "failed to create request: %w"
                        (http_NewRequest "PATCH" url (Some (json_body jsonData))));
  let httpReq := Header_Set "Authorization" ("Bearer " +:+ serviceKey c) httpReq in
  let httpReq := Header_Set "Content-Type" "application/json" httpReq in
  fun w =>
    match Do (httpClient c) httpReq w with
    | (TransportError err, w') => (Err (wrapError "failed to execute request: %w" err), w')
    | (Reply resp, w') =>
        if StatusCode resp =? 403 then
          (Err (errorString "schema operations require a SERVICE ROLE key" []), w')
        else if negb (StatusCode resp =? 200) then
          let errorResp := decode_error_body (Body resp) in
          (Err (errorString "failed to alter table: %v"
                  [arg_value (index_map errorResp "detail")]), w')
        else
          (wrap "failed to decode response: %w" (json_Decode (Body resp)), w')
    end.

(** [DropTable] drops a table from the database. *)
Definition DropTable (c : SchemaClient) (tableName : string) (cascade : bool)
  : Comp World SchemaResponse :=
  let url := baseURL c +:+ "/api/v2/schema/tables/" +:+ tableName
               +:+ "?cascade=" +:+ fmt_t cascade in
  do httpReq <- lift (wrap "failed to create request: %w"
                        (http_NewRequest "DELETE" url None));
  let httpReq := Header_Set "Authorization" ("Bearer " +:+ serviceKey c) httpReq in
  fun w =>
    match Do (httpClient c) httpReq w with
    | (TransportError err, w') => (Err (wrapError "failed to execute request: %w" err), w')
    | (Reply resp, w') =>
        if StatusCode resp =? 403 then
          (Err (errorString "schema operations require a SERVICE ROLE key" []), w')
        else if negb (StatusCode resp =? 200) then
          let errorResp := decode_error_body (Body resp) in
          (Err (errorString "failed to drop table: %v"
                  [arg_value (index_map errorResp "detail")]), w')
        else
          (wrap "failed to decode response: %w" (json_Decode (Body resp)), w')
    end.

(** [ExecuteSQL] executes raw SQL for schema operations. *)
Definition ExecuteSQL (c : SchemaClient) (sql : string)
  : Comp World SchemaResponse :=
  let url := baseURL c +:+ "/api/v2/schema/execute" in
  do jsonData <- lift (wrap "failed to marshal request: %w"
                         (json_Marshal (JObject (<["sql" := JString sql]> ∅))));
  do httpReq <- lift (wrap "failed to create request: %w"
                        (http_NewRequest "POST" url (Some (json_body jsonData))));
  let httpReq := Header_Set "Authorization" ("Bearer " +:+ serviceKey c) httpReq in
  let httpReq := Header_Set "Content-Type" "application/json" httpReq in
  fun w =>
    match Do (httpClient c) httpReq w with
    | (TransportError err, w') => (Err (wrapError "failed to execute request: %w" err), w')
    | (Reply resp, w') =>
        if StatusCode resp =? 403 then
          (Err (errorString "schema operations require a SERVICE ROLE key" []), w')
        else if negb (StatusCode resp =? 200) then
          let errorResp := decode_error_body (Body resp) in
          (Err (errorString "failed to execute SQL: %v"
                  [arg_value (index_map errorResp "detail")]), w')
        else
          (wrap "failed to decode response: %w" (json_Decode (Body resp)), w')
    end.

(** Helper function to create string pointers. *)
Definition strPtr (s : string) : option string := Some s.

End Client.
End Schema.

(** *** WOWSQL/schema.go *)

Module WOWSQLSchema.

Record ColumnDefinition : Type := {
  Name : string;
  Type_ : string;
  AutoIncrement : bool;
  Unique : bool;
  Nullable : bool;
  Default : string
}.

Record CreateTableOptions : Type := {
  TableName : string;
  Columns : option (list ColumnDefinition);   (* a slice without omitempty *)
  PrimaryKey : string;
  Indexes : list string
}.

Record AlterTableOptions : Type := {
  alter_TableName : string;
  Operation : string;
  ColumnName : string;
  ColumnType : string;
  NewColumnName : string;
  alter_Nullable : option bool;
  alter_Default : string
}.

Record SchemaClient : Type := {
  baseURL : string;
  serviceKey : string;
  httpClient : http_Client
}.

Definition NewSchemaClient (projectURL serviceKey : string) : SchemaClient :=
  {| baseURL := projectURL; serviceKey := serviceKey; httpClient := {| Timeout := 0 |} |}.

Definition json_true (key : string) (b : bool) (m : gmap string JSON) : gmap string JSON :=
  if b then <[key := JBool true]> m else m.

Definition ColumnDefinition_json (d : ColumnDefinition) : JSON :=
  JObject
    (json_nonempty_string "default" (Default d)
      (json_true "nullable" (Nullable d)
        (json_true "unique" (Unique d)
          (json_true "auto_increment" (AutoIncrement d)
            (<["type" := JString (Type_ d)]> (<["name" := JString (Name d)]> ∅)))))).

Definition CreateTableOptions_json (r : CreateTableOptions) : JSON :=
  JObject
    (json_nonempty_strings "indexes" (Indexes r)
      (json_nonempty_string "primary_key" (PrimaryKey r)
        (<["columns" := json_slice ColumnDefinition_json (Columns r)]>
          (<["table_name" := JString (TableName r)]> ∅)))).

Definition AlterTableOptions_json (r : AlterTableOptions) : JSON :=
  JObject
    (json_nonempty_string "default" (alter_Default r)
      (json_opt JBool "nullable" (alter_Nullable r)
        (json_nonempty_string "new_column_name" (NewColumnName r)
          (json_nonempty_string "column_type" (ColumnType r)
            (json_nonempty_string "column_name" (ColumnName r)
              (<["operation" := JString (Operation r)]>
                (<["table_name" := JString (alter_TableName r)]> ∅))))))).

Section Client.
Context `{Runtime} `{!Decode (gmap string JSON)}.

(** [CreateTable] creates a new table. *)
Definition CreateTable (s : SchemaClient) (options : CreateTableOptions)
  : Comp World (gmap string JSON) :=
  let url := baseURL s +:+ "/api/v2/schema/tables" in
  do jsonData <- lift (wrap "failed to marshal request: %w"
                         (json_Marshal (CreateTableOptions_json options)));
  do req <- lift (wrap "failed to create request: %w"
                    (http_NewRequest "POST" url (Some (json_body jsonData))));
  let req := Header_Set "Authorization" ("Bearer " +:+ serviceKey s) req in
  let req := Header_Set "Content-Type" "application/json" req in
  fun w =>
    match Do (httpClient s) req w with
    | (TransportError err, w') => (Err (wrapError "request failed: %w" err), w')
    | (Reply resp, w') =>
        if StatusCode resp =? 403 then
          (Err (errorString
                  "schema operations require a SERVICE ROLE key. You are using an anonymous key which cannot modify database schema"
                  []), w')
        else if negb (StatusCode resp =? 200) && negb (StatusCode resp =? 201) then
          let errorResp := decode_error_body (Body resp) in
          match index_map errorResp "detail" with
          | Some (JString detail) =>
              (Err (errorString "failed to create table: %s" [arg_string detail]), w')
          | _ =>
              (Err (errorString "failed to create table: status %d"
                      [arg_int (StatusCode resp)]), w')
          end
        else
          (wrap "failed to decode response: %w" (json_Decode (Body resp)), w')
    end.

(** [AlterTable] modifies an existing table. *)
Definition AlterTable (s : SchemaClient) (options : AlterTableOptions)
  : Comp World (gmap string JSON) :=
  let url := baseURL s +:+ "/api/v2/schema/tables/" +:+ alter_TableName options in
  do jsonData <- lift (wrap "failed to marshal request: %w"
                         (json_Marshal (AlterTableOptions_json options)));
  do req <- lift (wrap "failed to create request: %w"
                    (http_NewRequest "PATCH" url (Some (json_body jsonData))));
  let req := Header_Set "Authorization" ("Bearer " +:+ serviceKey s) req in
  let req := Header_Set "Content-Type" "application/json" req in
  fun w =>
    match Do (httpClient s) req w with
    | (TransportError err, w') => (Err (wrapError "request failed: %w" err), w')
    | (Reply resp, w') =>
        if StatusCode resp =? 403 then
          (Err (errorString "schema operations require a SERVICE ROLE key" []), w')
        else if negb (StatusCode resp =? 200) then
          let errorResp := decode_error_body (Body resp) in
          match index_map errorResp "detail" with
          | Some (JString detail) =>
              (Err (errorString "failed to alter table: %s" [arg_string detail]), w')
          | _ =>
              (Err (errorString "failed to alter table: status %d"
                      [arg_int (StatusCode resp)]), w')
          end
        else
          (wrap "failed to decode response: %w" (json_Decode (Body resp)), w')
    end.

(** [DropTable] deletes a table. *)
Definition DropTable (s : SchemaClient) (tableName : string) (cascade : bool)
  : Comp World (gmap string JSON) :=
  let url := baseURL s +:+ "/api/v2/schema/tables/" +:+ tableName
               +:+ "?cascade=" +:+ fmt_t cascade in
  do req <- lift (wrap "failed to create request: %w"
                    (http_NewRequest "DELETE" url None));
  let req := Header_Set "Authorization" ("Bearer " +:+ serviceKey s) req in
  fun w =>
    match Do (httpClient s) req w with
    | (TransportError err, w') => (Err (wrapError "request failed: %w" err), w')
    | (Reply resp, w') =>
        if StatusCode resp =? 403 then
          (Err (errorString "schema operations require a SERVICE ROLE key" []), w')
        else if negb (StatusCode resp =? 200) then
          let errorResp := decode_error_body (Body resp) in
          match index_map errorResp "detail" with
          | Some (JString detail) =>
              (Err (errorString "failed to drop table: %s" [arg_string detail]), w')
          | _ =>
              (Err (errorString "failed to drop table: status %d"
                      [arg_int (StatusCode resp)]), w')
          end
        else
          (wrap "failed to decode response: %w" (json_Decode (Body resp)), w')
    end.

(** [ExecuteSQL] executes raw SQL for schema operations. *)
Definition ExecuteSQL (s : SchemaClient) (sql : string)
  : Comp World (gmap string JSON) :=
  let url := baseURL s +:+ "/api/v2/schema/execute" in
  do jsonData <- lift (wrap "failed to marshal request: %w"
                         (json_Marshal (JObject (<["sql" := JString sql]> ∅))));
  do req <- lift (wrap "failed to create request: %w"
                    (http_NewRequest "POST" url (Some (json_body jsonData))));
  let req := Header_Set "Authorization" ("Bearer " +:+ serviceKey s) req in
  let req := Header_Set "Content-Type" "application/json" req in
  fun w =>
    match Do (httpClient s) req w with
    | (TransportError err, w') => (Err (wrapError "request failed: %w" err), w')
    | (Reply resp, w') =>
        if StatusCode resp =? 403 then
          (Err (errorString "schema operations require a SERVICE ROLE key" []), w')
        else if negb (StatusCode resp =? 200) then
          let errorResp := decode_error_body (Body resp) in
          match index_map errorResp "detail" with
          | Some (JString detail) =>
              (Err (errorString "failed to execute SQL: %s" [arg_string detail]), w')
          | _ =>
              (Err (errorString "failed to execute SQL: status %d"
                      [arg_int (StatusCode resp)]), w')
          end
        else
          (wrap "failed to decode response: %w" (json_Decode (Body resp)), w')
    end.

End Client.
End WOWSQLSchema.

(* ================================================================= *)
(** ** The query builder *)

Module QueryBuilder.

(** Modelled from the spec: the filter predicates, missing from the
    sources, "one of {eq, neq, gt, gte, lt, lte, like, isNull}". *)
Inductive operator : Type :=
| op_eq | op_neq | op_gt | op_gte | op_lt | op_lte | op_like | op_isNull.

(** Modelled from the spec: a predicate of the missing query builder, a
    "{column, operator, value}" triple. *)
Record predicate : Type := {
  pred_column : string;
  pred_operator : operator;
  pred_value : JSON
}.

(** Modelled from the spec: the query builder of the database client is not
    in the sources.  A Query is a table name, a column selection, the
    predicates in the order they were added, an optional sort, an optional
    limit and an optional offset. *)
Record Query : Type := mkQuery {
  table : string;
  columns : list string;
  filters : list predicate;
  sort : option (string * string);
  limit : option Z;
  offset : option Z
}.

(** Modelled from the spec: the Record of the missing database client, "a
    mapping from column name to an arbitrary JSON-compatible value". *)
Definition Record_ : Type := gmap string JSON.

(** Modelled from the spec: QueryResult, "an ordered sequence of Records
    plus a count". *)
Record QueryResult : Type := {
  data : list Record_;
  count : Z
}.

(** Modelled from the spec: [select] of the missing builder, "repeated
    calls replace the prior projection". *)
Definition select (cols : list string) (q : Query) : Query :=
  mkQuery (table q) cols (filters q) (sort q) (limit q) (offset q).

(** Modelled from the spec: [eq], [neq], ... of the missing builder, each of
    which "appends one predicate". *)
Definition filter_by (p : predicate) (q : Query) : Query :=
  mkQuery (table q) (columns q) (filters q ++ [p]) (sort q) (limit q) (offset q).

(** Modelled from the spec: [orderBy] of the missing builder, "at most one
    active sort; repeated calls replace it". *)
Definition orderBy (column direction : string) (q : Query) : Query :=
  mkQuery (table q) (columns q) (filters q) (Some (column, direction)) (limit q) (offset q).

(** Modelled from the spec: [limit(n)] of the missing builder. *)
Definition with_limit (n : Z) (q : Query) : Query :=
  mkQuery (table q) (columns q) (filters q) (sort q) (Some n) (offset q).

(** Modelled from the spec: [offset(n)] of the missing builder. *)
Definition with_offset (n : Z) (q : Query) : Query :=
  mkQuery (table q) (columns q) (filters q) (sort q) (limit q) (Some n).

(** Modelled from the spec: the missing database client, which "holds the
    base URL, API key, and an HTTP client configuration". *)
Record Client : Type := {
  baseURL : string;
  apiKey : string;
  httpClient : http_Client
}.

Section Terminal.
Context `{Runtime} `{ErrorMapper} `{!Unmarshal QueryResult}.

(** The path and query string of a read request; the spec leaves the
    encoding of the accumulated state open. *)
Variable serialize : Query -> string.

(** Modelled from the spec: the terminal call [execute()], missing from the
    sources: it "serializes accumulated state into request parameters,
    dispatches a read request, returns QueryResult or fails"; the
    dispatcher fails with a NetworkError on a transport failure, the mapper
    classifies a non-2xx response and deserializes a 2xx one. *)
Definition execute (c : Client) (q : Query) : Comp World QueryResult :=
  do req <- lift (wrap "failed to create request: %w"
                    (http_NewRequest "GET" (baseURL c +:+ serialize q) None));
  let req := Header_Set "Content-Type" "application/json" req in
  let req := Header_Set "Authorization" ("Bearer " +:+ apiKey c) req in
  fun w =>
    match Do (httpClient c) req w with
    | (TransportError err, w') => (Err (NetworkError err), w')
    | (Reply resp, w') =>
        match wrap "failed to read response body: %w" (Body resp) with
        | Ok respBody =>
            if non_2xx (StatusCode resp)
            then (Err (parseError (StatusCode resp) respBody), w')
            else (wrap "failed to parse response: %w" (json_Unmarshal respBody), w')
        | Err e => (Err e, w')
        | Panic => (Panic, w')
        end
    end.

(** Modelled from the spec: the terminal call [first()], missing from the
    sources: "equivalent to execute() with limit forced to 1; returns the
    single Record or nil if the result set is empty (not an error)".
    [None] is the nil Record. *)
Definition first (c : Client) (q : Query) : Comp World (option Record_) :=
  do res <- execute c (with_limit 1 q);
  ret (head (data res)).

End Terminal.
End QueryBuilder.

(* ================================================================= *)
(** ** Vocabulary for the round trips of a call *)

Definition Trace : Type := list (Request * RoundTrip).

(** Running [c] only appends round trips [delta] to the log, and [delta]
    and the result of [c] are related by [Q]. *)
Definition traced_on {S A} (world_of : S -> World) (Q : Trace -> result A -> Prop)
    (c : Comp S A) : Prop :=
  forall s r s', c s = (r, s') ->
    exists delta, has_suffix (world_of s) (world_of s') delta /\ Q delta r.

Definition traced {A} := traced_on (S := World) (A := A) id.

(** [sel] names the round trips that make a call fail and the error each
    one causes: a call is [failing sel] when any such round trip among its
    own decides its result. *)
Definition failing (sel : RoundTrip -> option error) {A} (delta : Trace) (r : result A)
  : Prop :=
  forall req rt e, In (req, rt) delta -> sel rt = Some e -> r = Err e.

(** What a dispatcher makes of a round trip, given the constructor [net] of
    its transport error and its classifier [parse] of non-2xx responses:
    the failure, if the round trip is one, and the value handed on. *)
Definition dispatch_failure (net : error -> error) (parse : Z -> bytes -> error)
    (rt : RoundTrip) : option error :=
  match rt with
  | TransportError err => Some (net err)
  | Reply resp =>
      match Body resp with
      | Ok b => if non_2xx (StatusCode resp) then Some (parse (StatusCode resp) b) else None
      | Err e => Some (wrapError "failed to read response body: %w" e)
      | Panic => None
      end
  end.

Definition dispatch_result (net : error -> error) (parse : Z -> bytes -> error)
    (rt : RoundTrip) : result bytes :=
  match rt with
  | TransportError err => Err (net err)
  | Reply resp =>
      match Body resp with
      | Ok b => if non_2xx (StatusCode resp) then Err (parse (StatusCode resp) b) else Ok b
      | Err e => Err (wrapError "failed to read response body: %w" e)
      | Panic => Panic
      end
  end.

(* ================================================================= *)
(** ** The operations of each client, as one type

    [run] makes the call and keeps its Go [error] only. *)

Definition erase {S A} (c : Comp S A) : Comp S unit :=
  do _ <- c; ret tt.

Module StorageCalls.
Import Storage.

Inductive call : Type :=
| call_GetQuota
| call_Upload (fileData : bytes) (key contentType : string) (checkQuota : option bool)
| call_Download (key : string) (expiresIn : Z)
| call_ListFiles (prefix : string) (limit : Z)
| call_DeleteFile (key : string)
| call_DeleteFiles (keys : option (list string))
| call_GetFileInfo (key : string)
| call_FileExists (key : string)
| call_GetFileUrl (key : string) (expiresIn : Z)
| call_GetPresignedUrl (key : string) (expiresIn : Z) (operation : string)
| call_GetStorageInfo
| call_ProvisionStorage (region : string)
| call_GetAvailableRegions
| call_UploadFromPath (filePath key contentType : string) (checkQuota : option bool).

Section Run.
Context `{Runtime} `{Models} `{ErrorMapper}.
Context `{!Unmarshal StorageQuota} `{!Unmarshal FileUploadResult}
        `{!Unmarshal StorageFile} `{!Unmarshal url_result}
        `{!Unmarshal files_result} `{!Unmarshal (gmap string JSON)}
        `{!Unmarshal (list (gmap string JSON))}.

(** The [error] of the pair that [FileExists] returns. *)
Definition FileExists_error (s : StorageClient) (key : string) : Comp World unit :=
  do r <- FileExists s key;
  match r with
  | (_, Some err) => fail err
  | (_, None) => ret tt
  end.

Definition run (c : call) (s : StorageClient) : Comp World unit :=
  match c with
  | call_GetQuota => erase (GetQuota s)
  | call_Upload fileData key contentType checkQuota =>
      erase (Upload s fileData key contentType checkQuota)
  | call_Download key expiresIn => erase (Download s key expiresIn)
  | call_ListFiles prefix limit => erase (ListFiles s prefix limit)
  | call_DeleteFile key => DeleteFile s key
  | call_DeleteFiles keys => DeleteFiles s keys
  | call_GetFileInfo key => erase (GetFileInfo s key)
  | call_FileExists key => FileExists_error s key
  | call_GetFileUrl key expiresIn => erase (GetFileUrl s key expiresIn)
  | call_GetPresignedUrl key expiresIn operation =>
      erase (GetPresignedUrl s key expiresIn operation)
  | call_GetStorageInfo => erase (GetStorageInfo s)
  | call_ProvisionStorage region => erase (ProvisionStorage s region)
  | call_GetAvailableRegions => erase (GetAvailableRegions s)
  | call_UploadFromPath filePath key contentType checkQuota =>
      erase (UploadFromPath s filePath key contentType checkQuota)
  end.

(** The request that [Upload] sends to the upload endpoint. *)
Definition is_upload_request (s : StorageClient) (req : Request) : bool :=
  String.eqb (Method req) "POST"
    && String.eqb (URL req) (projectURL s +:+ "/api/v1/storage/upload").

(** The request of [GetQuota]. *)
Definition is_quota_request (s : StorageClient) (req : Request) : bool :=
  String.eqb (Method req) "GET"
    && String.eqb (URL req) (projectURL s +:+ "/api/v1/storage/quota").

(** The transport error of the storage client. *)
Definition transport_error (err : error) : error := StorageError "" (Some err).

(** The request that [doRequest] builds. *)
Definition request_of (s : StorageClient) (method path : string) (body : option JSON)
  : result Request :=
  match
    match body with
    | Some b =>
        match wrap "failed to marshal request body: %w" (json_Marshal b) with
        | Ok jsonBody => Ok (Some (json_body jsonBody))
        | Err e => Err e
        | Panic => Panic
        end
    | None => Ok None
    end
  with
  | Ok bodyReader =>
      match wrap "failed to create request: %w"
              (http_NewRequest method (projectURL s +:+ path) bodyReader) with
      | Ok req =>
          Ok (Header_Set "Authorization" ("Bearer " +:+ apiKey s)
                (Header_Set "Accept" "application/json"
                   (Header_Set "Content-Type" "application/json" req)))
      | Err e => Err e
      | Panic => Panic
      end
  | Err e => Err e
  | Panic => Panic
  end.

(** The first step of [Upload], the quota check: it fetches the quota when
    the check is enabled and fails when the payload does not fit. *)
Definition quota_precheck (s : StorageClient) (fileData : bytes) (checkQuota : option bool)
  : Comp World unit :=
  if match checkQuota with Some b => b | None => autoCheckQuota s end then
    do quota <- GetQuota s;
    if StorageAvailableBytes quota <? int64 (len fileData) then
      match limit_message (int64 (len fileData)) (StorageAvailableBytes quota) with
      | Some msg =>
          fail (StorageLimitExceededError msg (int64 (len fileData))
                  (StorageAvailableBytes quota))
      | None => panic
      end
    else ret tt
  else ret tt.

(** What [Upload] makes of the round trip to the upload endpoint. *)
Definition upload_outcome (rt : RoundTrip) : result FileUploadResult :=
  match dispatch_result transport_error parseStorageError rt with
  | Ok respBody => wrap "failed to parse response: %w" (json_Unmarshal respBody)
  | Err e => Err e
  | Panic => Panic
  end.

(** The form that [Upload] sends. *)
Definition upload_parts (fileData : bytes) (key contentType : string) : list part :=
  FormField "key" key
    :: (if negb (String.eqb contentType "") then [FormField "content_type" contentType]
        else [])
    ++ [FormFile "file" key fileData].

(** The request that [Upload] hands to the transport. *)
Definition upload_request_of (s : StorageClient) (fileData : bytes)
    (key contentType : string) : Request :=
  Header_Set "Authorization" ("Bearer " +:+ apiKey s)
    (Header_Set "Content-Type" ("multipart/form-data; boundary=" +:+ multipart_randomBoundary)
       (mkRequest "POST" (projectURL s +:+ "/api/v1/storage/upload") ∅
          (Some (multipart_body multipart_randomBoundary
                   (upload_parts fileData key contentType))))).

(** A failing round trip decides the result of a storage call; the one
    exception is [FileExists], which turns a [NotFoundError] into a
    negative answer. *)
Definition run_failing (c : call) (delta : Trace) (r : result unit) : Prop :=
  forall req rt e,
    In (req, rt) delta ->
    dispatch_failure transport_error parseStorageError rt = Some e ->
    r = Err e \/
    (exists key, c = call_FileExists key) /\ is_NotFoundError e = true /\ r = Ok tt.

End Run.
End StorageCalls.

Module AuthCalls.
Import Auth.

Inductive call : Type :=
| call_SignUp (email password : string) (options : list (signUpRequest -> signUpRequest))
| call_SignIn (email password : string)
| call_GetUser (tokenOverride : list string)
| call_GetOAuthAuthorizationURL (provider redirectURL : string)
| call_ExchangeOAuthCallback (provider code : string) (redirectURI : option string)
| call_ForgotPassword (email : string)
| call_ResetPassword (token newPassword : string)
| call_SendOTP (email purpose : string)
| call_VerifyOTP (email otp purpose : string) (newPassword : option string)
| call_SendMagicLink (email purpose : string)
| call_VerifyEmail (token : string)
| call_ResendVerification (email : string).

(** The calls that return an [AuthResult]: sign-up, sign-in, OAuth exchange
    and OTP verification. *)
Definition returns_session (c : call) : bool :=
  match c with
  | call_SignUp _ _ _ | call_SignIn _ _ | call_ExchangeOAuthCallback _ _ _
  | call_VerifyOTP _ _ _ _ => true
  | _ => false
  end.

(** An OTP verification made for a password reset. *)
Definition is_password_reset (c : call) : bool :=
  match c with
  | call_VerifyOTP _ _ purpose _ => String.eqb purpose "password_reset"
  | _ => false
  end.

Section Run.
Context `{Runtime} `{ErrorMapper}.
Context `{!Unmarshal authResponse} `{!Unmarshal loginResponse} `{!Unmarshal AuthUser}
        `{!Unmarshal OAuthAuthorizeResponse} `{!Unmarshal (gmap string JSON)}.

Definition with_session (c : Comp St AuthResult) : Comp St (option AuthSession) :=
  do res <- c; ret (Some (Session res)).

Definition no_session {A} (c : Comp St A) : Comp St (option AuthSession) :=
  do _ <- c; ret None.

(** [run c] makes the call; on success it yields the [Session] of the
    returned [AuthResult], if the call returns one. *)
Definition run (c : call) : Comp St (option AuthSession) :=
  match c with
  | call_SignUp email password options => with_session (SignUp email password options)
  | call_SignIn email password => with_session (SignIn email password)
  | call_GetUser tokenOverride => no_session (GetUser tokenOverride)
  | call_GetOAuthAuthorizationURL provider redirectURL =>
      no_session (GetOAuthAuthorizationURL provider redirectURL)
  | call_ExchangeOAuthCallback provider code redirectURI =>
      with_session (ExchangeOAuthCallback provider code redirectURI)
  | call_ForgotPassword email => no_session (ForgotPassword email)
  | call_ResetPassword token newPassword => no_session (ResetPassword token newPassword)
  | call_SendOTP email purpose => no_session (SendOTP email purpose)
  | call_VerifyOTP email otp purpose newPassword =>
      with_session (VerifyOTP email otp purpose newPassword)
  | call_SendMagicLink email purpose => no_session (SendMagicLink email purpose)
  | call_VerifyEmail token => no_session (VerifyEmail token)
  | call_ResendVerification email => no_session (ResendVerification email)
  end.

(** The request that [doRequest] builds. *)
Definition request_of (c : AuthClient) (method path : string) (body : option JSON)
    (headers : gmap string string) : result Request :=
  match
    match body with
    | Some b =>
        match wrap "failed to encode request body: %w" (json_Marshal b) with
        | Ok payload => Ok (Some (json_body payload))
        | Err e => Err e
        | Panic => Panic
        end
    | None => Ok None
    end
  with
  | Ok reader =>
      match wrap "failed to create request: %w"
              (http_NewRequest method (baseURL c +:+ path) reader) with
      | Ok req =>
          let req := Header_Set "Content-Type" "application/json" req in
          let req :=
            if negb (String.eqb (apiKey c) "") then
              Header_Set "Authorization" ("Bearer " +:+ apiKey c) req
            else if negb (String.eqb (publicKey c) "") then
              Header_Set "Authorization" ("Bearer " +:+ publicKey c) req
            else req in
          Ok (map_fold Header_Set req headers)
      | Err e => Err e
      | Panic => Panic
      end
  | Err e => Err e
  | Panic => Panic
  end.

(** A computation that never touches the receiver. *)
Definition keeps_client {A} (c : Comp St A) : Prop :=
  forall cl w r cl' w', c (cl, w) = (r, (cl', w')) -> cl' = cl.

(** The session that a call reads off the body of a response: [SignIn]
    decodes a [loginResponse], the other three an [authResponse]. *)
Definition decoded_session (c : call) (b : bytes) : option AuthSession :=
  match c with
  | call_SignIn _ _ =>
      match json_Unmarshal (T := loginResponse) b with
      | Ok resp =>
          Some {| AccessToken := login_AccessToken resp;
                  RefreshToken := login_RefreshToken resp;
                  TokenType := login_TokenType resp;
                  ExpiresIn := login_ExpiresIn resp |}
      | _ => None
      end
  | call_SignUp _ _ _ | call_ExchangeOAuthCallback _ _ _ | call_VerifyOTP _ _ _ _ =>
      match json_Unmarshal (T := authResponse) b with
      | Ok resp => Some (session_of resp)
      | _ => None
      end
  | _ => None
  end.

(** What a call does to the stored tokens, given its result. *)
Definition session_effect (c : call) (cl : AuthClient) (w : World)
    (r : result (option AuthSession)) (cl' : AuthClient) (w' : World) : Prop :=
  match r with
  | Ok (Some session) =>
      if is_password_reset c then cl' = cl
      else
        cl' = SetSession (AccessToken session) (RefreshToken session) cl /\
        exists req resp b,
          has_suffix w w' [(req, Reply resp)] /\ Body resp = Ok b /\
          non_2xx (StatusCode resp) = false /\
          decoded_session c b = Some session
  | _ => cl' = cl
  end.

End Run.
End AuthCalls.

Module SchemaCalls.

Inductive call : Type :=
| call_CreateTable (req : Schema.CreateTableRequest)
| call_AlterTable (req : Schema.AlterTableRequest)
| call_DropTable (tableName : string) (cascade : bool)
| call_ExecuteSQL (sql : string).

Inductive pkg_call : Type :=
| pkg_CreateTable (options : WOWSQLSchema.CreateTableOptions)
| pkg_AlterTable (options : WOWSQLSchema.AlterTableOptions)
| pkg_DropTable (tableName : string) (cascade : bool)
| pkg_ExecuteSQL (sql : string).

Section Run.
Context `{Runtime} `{!Decode (gmap string JSON)} `{!Decode Schema.SchemaResponse}.

(** The calls of schema.go. *)
Definition run (c : call) (client : Schema.SchemaClient) : Comp World unit :=
  match c with
  | call_CreateTable req => erase (Schema.CreateTable client req)
  | call_AlterTable req => erase (Schema.AlterTable client req)
  | call_DropTable tableName cascade => erase (Schema.DropTable client tableName cascade)
  | call_ExecuteSQL sql => erase (Schema.ExecuteSQL client sql)
  end.

(** The calls of WOWSQL/schema.go. *)
Definition run_pkg (c : pkg_call) (client : WOWSQLSchema.SchemaClient) : Comp World unit :=
  match c with
  | pkg_CreateTable options => erase (WOWSQLSchema.CreateTable client options)
  | pkg_AlterTable options => erase (WOWSQLSchema.AlterTable client options)
  | pkg_DropTable tableName cascade =>
      erase (WOWSQLSchema.DropTable client tableName cascade)
  | pkg_ExecuteSQL sql => erase (WOWSQLSchema.ExecuteSQL client sql)
  end.

(** The statuses that a call of WOWSQL/schema.go takes for a success. *)
Definition pkg_accepts (c : pkg_call) (status : Z) : bool :=
  match c with
  | pkg_CreateTable _ => (status =? 200) || (status =? 201)
  | _ => status =? 200
  end.

(** The message of each call for a 403 response. *)
Definition forbidden_message (c : call) : string :=
  match c with
  | call_CreateTable _ =>
      "schema operations require a SERVICE ROLE key. You are using an anonymous key which cannot modify database schema"
  | _ => "schema operations require a SERVICE ROLE key"
  end.

Definition pkg_forbidden_message (c : pkg_call) : string :=
  match c with
  | pkg_CreateTable _ =>
      "schema operations require a SERVICE ROLE key. You are using an anonymous key which cannot modify database schema"
  | _ => "schema operations require a SERVICE ROLE key"
  end.

(** What each call says it failed to do. *)
Definition failed_to (c : call) : string :=
  match c with
  | call_CreateTable _ => "failed to create table"
  | call_AlterTable _ => "failed to alter table"
  | call_DropTable _ _ => "failed to drop table"
  | call_ExecuteSQL _ => "failed to execute SQL"
  end.

Definition pkg_failed_to (c : pkg_call) : string :=
  match c with
  | pkg_CreateTable _ => "failed to create table"
  | pkg_AlterTable _ => "failed to alter table"
  | pkg_DropTable _ _ => "failed to drop table"
  | pkg_ExecuteSQL _ => "failed to execute SQL"
  end.

(** Method, path and JSON payload of each call. *)
Definition target (c : call) : string * string * option JSON :=
  match c with
  | call_CreateTable req =>
      ("POST", "/api/v2/schema/tables", Some (Schema.CreateTableRequest_json req))
  | call_AlterTable req =>
      ("PATCH", "/api/v2/schema/tables/" +:+ Schema.alter_TableName req,
       Some (Schema.AlterTableRequest_json req))
  | call_DropTable tableName cascade =>
      ("DELETE", "/api/v2/schema/tables/" +:+ tableName +:+ "?cascade=" +:+ fmt_t cascade,
       None)
  | call_ExecuteSQL sql =>
      ("POST", "/api/v2/schema/execute", Some (JObject (<["sql" := JString sql]> ∅)))
  end.

Definition pkg_target (c : pkg_call) : string * string * option JSON :=
  match c with
  | pkg_CreateTable options =>
      ("POST", "/api/v2/schema/tables", Some (WOWSQLSchema.CreateTableOptions_json options))
  | pkg_AlterTable options =>
      ("PATCH", "/api/v2/schema/tables/" +:+ WOWSQLSchema.alter_TableName options,
       Some (WOWSQLSchema.AlterTableOptions_json options))
  | pkg_DropTable tableName cascade =>
      ("DELETE", "/api/v2/schema/tables/" +:+ tableName +:+ "?cascade=" +:+ fmt_t cascade,
       None)
  | pkg_ExecuteSQL sql =>
      ("POST", "/api/v2/schema/execute", Some (JObject (<["sql" := JString sql]> ∅)))
  end.

(** The request that a schema call builds from its target. *)
Definition request_for (baseURL serviceKey : string) (t : string * string * option JSON)
  : result Request :=
  let '(method, path, payload) := t in
  match payload with
  | Some j =>
      match wrap "failed to marshal request: %w" (json_Marshal j) with
      | Ok jsonData =>
          match wrap "failed to create request: %w"
                  (http_NewRequest method (baseURL +:+ path) (Some (json_body jsonData))) with
          | Ok req =>
              Ok (Header_Set "Content-Type" "application/json"
                    (Header_Set "Authorization" ("Bearer " +:+ serviceKey) req))
          | Err e => Err e
          | Panic => Panic
          end
      | Err e => Err e
      | Panic => Panic
      end
  | None =>
      match wrap "failed to create request: %w"
              (http_NewRequest method (baseURL +:+ path) None) with
      | Ok req => Ok (Header_Set "Authorization" ("Bearer " +:+ serviceKey) req)
      | Err e => Err e
      | Panic => Panic
      end
  end.

Definition forget {A} (r : result A) : result unit :=
  match r with
  | Ok _ => Ok tt
  | Err e => Err e
  | Panic => Panic
  end.

(** What a call of schema.go makes of its round trip. *)
Definition outcome (c : call) (rt : RoundTrip) : result unit :=
  match rt with
  | TransportError err => Err (wrapError "failed to execute request: %w" err)
  | Reply resp =>
      if StatusCode resp =? 403 then Err (errorString (forbidden_message c) [])
      else if negb (StatusCode resp =? 200) then
        Err (errorString (failed_to c +:+ ": %v")
               [arg_value (index_map (decode_error_body (Body resp)) "detail")])
      else
        forget (wrap "failed to decode response: %w"
                  (json_Decode (T := Schema.SchemaResponse) (Body resp)))
  end.

(** What a call of WOWSQL/schema.go makes of its round trip. *)
Definition pkg_outcome (c : pkg_call) (rt : RoundTrip) : result unit :=
  match rt with
  | TransportError err => Err (wrapError "request failed: %w" err)
  | Reply resp =>
      if StatusCode resp =? 403 then Err (errorString (pkg_forbidden_message c) [])
      else if negb (pkg_accepts c (StatusCode resp)) then
        match index_map (decode_error_body (Body resp)) "detail" with
        | Some (JString detail) =>
            Err (errorString (pkg_failed_to c +:+ ": %s") [arg_string detail])
        | _ =>
            Err (errorString (pkg_failed_to c +:+ ": status %d") [arg_int (StatusCode resp)])
        end
      else
        forget (wrap "failed to decode response: %w"
                  (json_Decode (T := gmap string JSON) (Body resp)))
  end.

End Run.
End SchemaCalls.

(* ================================================================= *)
(** ** A sample environment

    One concrete choice of everything the clients take from elsewhere, on
    which the examples at the end of the file run. *)

Module Sample.

Definition text (b : bytes) : string := string_of_list_byte b.

Definition body_of (s : string) : bytes := list_byte_of_string s.

(** A decimal numeral, or nothing. *)
Fixpoint decimal (acc : Z) (b : bytes) : option Z :=
  match b with
  | [] => Some acc
  | c :: rest =>
      let d := Z.of_N (Byte.to_N c) - 48 in
      if (0 <=? d) && (d <=? 9) then decimal (10 * acc + d) rest else None
  end.

Definition syntax_error : error := libError "encoding/json" "invalid character".

#[export] Instance runtime : Runtime := {|
  json_Marshal := fun _ => Ok (body_of "{}");
  http_NewRequest_err := fun _ url =>
    if strings_Contains url " "
    then Some (libError "net/url" "invalid character in host name")
    else None;
  url_Parse_Host := fun _ => None;
  url_QueryEscape := fun s => s;
  strings_TrimSpace := fun s => s;
  os_ReadFile := fun _ => Err (libError "os" "no such file or directory");
  multipart_randomBoundary := "2f1a9c"
|}.

(** The sample quota is its available bytes alone. *)
#[export] Instance models : Models := {|
  StorageQuota := Z;
  StorageAvailableBytes := int64;
  StorageAvailableBytes_int64 :=
    ltac:(intros q; unfold int64_range, int64;
          pose proof (Z.mod_pos_bound (q + 2 ^ 63) (2 ^ 64) eq_refl); lia);
  FileUploadResult := string;
  StorageFile := string
|}.

(** The sample classifiers follow the taxonomy of the specification. *)
Definition classify_status (status : Z) (b : bytes) : error :=
  if status =? 401 then AuthenticationError (text b)
  else if status =? 403 then PermissionError (text b)
  else if status =? 404 then NotFoundError (text b)
  else if status =? 429 then RateLimitError (text b)
  else otherError "WOWSQLError" (text b).

#[export] Instance errors : ErrorMapper := {|
  parseError := classify_status;
  parseStorageError := classify_status
|}.

#[export] Instance unmarshal_quota : Unmarshal StorageQuota := fun b =>
  match decimal 0 b with
  | Some n => Ok n
  | None => Err syntax_error
  end.

#[export] Instance unmarshal_text : Unmarshal string := fun b => Ok (text b).

#[export] Instance unmarshal_url : Unmarshal Storage.url_result := fun b =>
  Ok {| Storage.result_URL := text b |}.

#[export] Instance unmarshal_files : Unmarshal Storage.files_result := fun b =>
  Ok {| Storage.result_Files := [text b] |}.

#[export] Instance unmarshal_map : Unmarshal (gmap string JSON) := fun b =>
  Ok (<["body" := JString (text b)]> ∅).

#[export] Instance unmarshal_maps : Unmarshal (list (gmap string JSON)) := fun b =>
  Ok [<["body" := JString (text b)]> ∅].

(** The sample auth responses carry the body as access token. *)
#[export] Instance unmarshal_authResponse : Unmarshal Auth.authResponse := fun b =>
  Ok {| Auth.resp_User := None;
        Auth.resp_AccessToken := text b;
        Auth.resp_RefreshToken := "refresh-" +:+ text b;
        Auth.resp_TokenType := "bearer";
        Auth.resp_ExpiresIn := 3600 |}.

#[export] Instance unmarshal_loginResponse : Unmarshal Auth.loginResponse := fun b =>
  Ok {| Auth.login_AccessToken := text b;
        Auth.login_RefreshToken := "refresh-" +:+ text b;
        Auth.login_TokenType := "bearer";
        Auth.login_ExpiresIn := 3600 |}.

#[export] Instance unmarshal_AuthUser : Unmarshal Auth.AuthUser := fun b =>
  Ok {| Auth.ID := text b; Auth.Email := ""; Auth.FullName := ""; Auth.AvatarURL := "";
        Auth.EmailVerified := false; Auth.UserMetadata := ∅; Auth.AppMetadata := ∅;
        Auth.CreatedAt := "" |}.

#[export] Instance unmarshal_OAuth : Unmarshal Auth.OAuthAuthorizeResponse := fun b =>
  Ok {| Auth.AuthorizationURL := text b; Auth.Provider := ""; Auth.RedirectURI := "";
        Auth.BackendCallbackURL := ""; Auth.FrontendRedirectURI := "" |}.

#[export] Instance unmarshal_QueryResult : Unmarshal QueryBuilder.QueryResult := fun b =>
  match b with
  | [] => Ok {| QueryBuilder.data := []; QueryBuilder.count := 0 |}
  | _ => Ok {| QueryBuilder.data := [<["body" := JString (text b)]> ∅];
               QueryBuilder.count := 1 |}
  end.

#[export] Instance decode_map : Decode (gmap string JSON) := fun r =>
  match r with
  | Ok b => Ok (<["detail" := JString (text b)]> ∅)
  | Err e => Err e
  | Panic => Panic
  end.

#[export] Instance decode_SchemaResponse : Decode Schema.SchemaResponse := fun r =>
  match r with
  | Ok b => Ok {| Schema.Success := true; Schema.Message := text b; Schema.Table := "";
                  Schema.resp_Operation := ""; Schema.RowsAffected := 0;
                  Schema.Warning := "" |}
  | Err e => Err e
  | Panic => Panic
  end.

(** A world whose network gives the same outcome to every request. *)
Definition answering (rt : RoundTrip) : World := mkWorld (fun _ _ => rt) [].

Definition reply (status : Z) (b : string) : RoundTrip :=
  Reply (mkResponse status (Ok (body_of b))).

Definition connection_refused : error := libError "net/http" "dial tcp: connection refused".

Definition storage : Storage.StorageClient :=
  Storage.NewStorageClient "https://demo.wowsql.com" "wowsql_anon_key".

Definition auth : Auth.AuthClient :=
  Auth.SetSession "old-access" "old-refresh"
    (Auth.NewAuthClient
       {| Auth.ProjectURL := "demo"; Auth.BaseDomain := ""; Auth.Secure := true;
          Auth.config_Timeout := 0; Auth.APIKey := "wowsql_anon_key";
          Auth.PublicAPIKey := "" |}).

Definition schema : Schema.SchemaClient :=
  Schema.NewSchemaClient "https://demo.wowsql.com" "wowsql_anon_key".

Definition pkg_schema : WOWSQLSchema.SchemaClient :=
  WOWSQLSchema.NewSchemaClient "https://demo.wowsql.com" "wowsql_anon_key".

Definition database : QueryBuilder.Client :=
  {| QueryBuilder.baseURL := "https://demo.wowsql.com";
     QueryBuilder.apiKey := "wowsql_anon_key";
     QueryBuilder.httpClient := {| Timeout := 30 * Second |} |}.

Definition users : QueryBuilder.Query :=
  QueryBuilder.filter_by
    {| QueryBuilder.pred_column := "email";
       QueryBuilder.pred_operator := QueryBuilder.op_eq;
       QueryBuilder.pred_value := JString "ann@example.com" |}
    (QueryBuilder.mkQuery "users" [] [] None None None).

Definition serialize (q : QueryBuilder.Query) : string :=
  "/api/v1/" +:+ QueryBuilder.table q.

End Sample.

(* ================================================================= *)
(** ** Vocabulary for the requests on the wire *)

(** Every request among [delta] satisfies [P], and there are at most [n]
    round trips. *)
Definition within (P : Request -> Prop) (n : nat) (delta : Trace) : Prop :=
  Forall (fun x => P x.1) delta /\ (List.length delta <= n)%nat.

Module Wire.

(** The slug that [extractProjectSlug] reads off a parsed host: the host up
    to its port, up to its first dot. *)
Definition slug_of_host (host : string) : option string :=
  let idx := strings_Index host ":" in
  Storage.first_label
    (if negb (idx =? -1) then substring 0 (Z.to_nat idx) host else host).

(** What every request of the storage client [s] looks like: it goes to
    the project URL and carries the API key. *)
Definition storage_request (s : Storage.StorageClient) (req : Request) : Prop :=
  strings_HasPrefix (URL req) (Storage.projectURL s) = true /\
  Header req !! "Authorization" = Some ("Bearer " +:+ Storage.apiKey s).

(** The most round trips a storage call makes: the two uploads may fetch the
    quota first. *)
Definition storage_round_trips (c : StorageCalls.call) : nat :=
  match c with
  | StorageCalls.call_Upload _ _ _ _ | StorageCalls.call_UploadFromPath _ _ _ _ => 2
  | _ => 1
  end.

(** A query string made of the given parameters. *)
Definition join_query (params : list string) : string :=
  match params with
  | [] => ""
  | p :: rest => "?" +:+ p +:+ String.concat "" (map (fun q => "&" +:+ q) rest)
  end.

(** The parameters that [ListFiles] puts in its query: a prefix that is not
    empty, a limit that is positive. *)
Definition list_params (prefix : string) (limit : Z) : list string :=
  (if String.eqb prefix "" then [] else ["prefix=" +:+ prefix])
    ++ (if 0 <? limit then ["limit=" +:+ fmt_d limit] else []).

(** The token that [GetUser] presents: the first override unless it is
    empty, else the stored access token. *)
Definition effective_token (tokenOverride : list string) (cl : Auth.AuthClient) : string :=
  match tokenOverride with
  | t :: _ => if String.eqb t "" then Auth.accessToken cl else t
  | [] => Auth.accessToken cl
  end.

(** The credential that the auth client puts on a request of its own: the
    API key, else the deprecated public key, else none. *)
Definition key_authorization (cl : Auth.AuthClient) : option string :=
  if String.eqb (Auth.apiKey cl) "" then
    if String.eqb (Auth.publicKey cl) "" then None
    else Some ("Bearer " +:+ Auth.publicKey cl)
  else Some ("Bearer " +:+ Auth.apiKey cl).

Definition authorization_of (c : AuthCalls.call) (cl : Auth.AuthClient) : option string :=
  match c with
  | AuthCalls.call_GetUser tokenOverride =>
      Some ("Bearer " +:+ effective_token tokenOverride cl)
  | _ => key_authorization cl
  end.

Definition auth_request (c : AuthCalls.call) (cl : Auth.AuthClient) (req : Request) : Prop :=
  strings_HasPrefix (URL req) (Auth.baseURL cl) = true /\
  Header req !! "Content-Type" = Some "application/json" /\
  Header req !! "Authorization" = authorization_of c cl.

(** A step of an auth method that makes no round trip. *)
Definition quiet {A} (c : Comp Auth.St A) : Prop :=
  forall s r s', c s = (r, s') -> s'.2 = s.2.

(** What every request of a schema client looks like; only the calls with a
    JSON payload declare a content type. *)
Definition schema_request (baseURL serviceKey : string) (t : string * string * option JSON)
    (req : Request) : Prop :=
  Method req = t.1.1 /\
  URL req = baseURL +:+ t.1.2 /\
  Header req !! "Authorization" = Some ("Bearer " +:+ serviceKey) /\
  match t.2 with
  | Some _ => Header req !! "Content-Type" = Some "application/json"
  | None => Header req !! "Content-Type" = None /\ ReqBody req = None
  end.

End Wire.

(** Running [c] only appends round trips to the log: at most [n], each with
    a request that satisfies [P]. *)
Definition sends {S A} (world_of : S -> World) (P : Request -> Prop) (n : nat)
    (c : Comp S A) : Prop :=
  traced_on world_of (fun delta _ => within P n delta) c.

(** The same for a method of the auth client called on the receiver [cl]. *)
Definition sends_from {A} (cl : Auth.AuthClient) (P : Request -> Prop) (n : nat)
    (c : Comp Auth.St A) : Prop :=
  forall w r s', c (cl, w) = (r, s') ->
    exists delta, has_suffix w s'.2 delta /\ within P n delta.

(** The auth clients that a program can come to hold: built by
    [NewAuthClient] from [cfg], then used for calls and handed to
    [SetSession] and [ClearSession], in any order. *)
Section Reachable.
Context `{Runtime} `{ErrorMapper}.
Context `{!Unmarshal Auth.authResponse} `{!Unmarshal Auth.loginResponse}
        `{!Unmarshal Auth.AuthUser} `{!Unmarshal Auth.OAuthAuthorizeResponse}
        `{!Unmarshal (gmap string JSON)}.

Inductive reachable (cfg : Auth.AuthConfig) : Auth.AuthClient -> Prop :=
| reach_new : reachable cfg (Auth.NewAuthClient cfg)
| reach_call c cl w r cl' w' :
    reachable cfg cl -> AuthCalls.run c (cl, w) = (r, (cl', w')) -> reachable cfg cl'
| reach_SetSession accessToken refreshToken cl :
    reachable cfg cl -> reachable cfg (Auth.SetSession accessToken refreshToken cl)
| reach_ClearSession cl :
    reachable cfg cl -> reachable cfg (Auth.ClearSession cl).

(** The key that [NewAuthClient] settles on. *)
Definition unified_key (cfg : Auth.AuthConfig) : string :=
  if String.eqb (Auth.APIKey cfg) "" then Auth.PublicAPIKey cfg else Auth.APIKey cfg.

(** The options of [SignUp] that the package offers. *)
Inductive SignUpOption : Type :=
| opt_FullName (fullName : string)
| opt_UserMetadata (metadata : option (gmap string JSON)).

Definition apply_option (o : SignUpOption) : Auth.signUpRequest -> Auth.signUpRequest :=
  match o with
  | opt_FullName fullName => Auth.WithFullName fullName
  | opt_UserMetadata metadata => Auth.WithUserMetadata metadata
  end.

Definition given_full_name (o : SignUpOption) : option string :=
  match o with
  | opt_FullName fullName => Some fullName
  | opt_UserMetadata _ => None
  end.

Definition given_metadata (o : SignUpOption) : option (option (gmap string JSON)) :=
  match o with
  | opt_FullName _ => None
  | opt_UserMetadata metadata => Some metadata
  end.

(** The full name of the last [WithFullName] among the options, and the
    metadata of the last [WithUserMetadata]; nothing when there is none. *)
Definition last_full_name (os : list SignUpOption) : option string :=
  last (omap given_full_name os).

Definition last_metadata (os : list SignUpOption) : option (gmap string JSON) :=
  match last (omap given_metadata os) with
  | Some metadata => metadata
  | None => None
  end.

(** The payload that [SignUp] encodes. *)
Definition SignUp_payload (email password : string)
    (options : list (Auth.signUpRequest -> Auth.signUpRequest)) : Auth.signUpRequest :=
  fold_left (fun p opt => opt p) options
    (Auth.mkSignUpRequest email password None None).

End Reachable.

(** A second sample run-time, whose [url.Parse] takes for the host what
    stands between ["://"] and the next slash. *)
Module Parsing.

Definition after_scheme (u : string) : string :=
  match String.index 0 "://" u with
  | Some i => substring (i + 3) (String.length u) u
  | None => u
  end.

Definition host_of (u : string) : option string :=
  match strings_Split (after_scheme u) "/" with
  | host :: _ => Some host
  | [] => None
  end.

Definition runtime : Runtime := {|
  json_Marshal := fun _ => Ok (Sample.body_of "{}");
  http_NewRequest_err := fun _ _ => None;
  url_Parse_Host := host_of;
  url_QueryEscape := fun s => s;
  strings_TrimSpace := fun s => s;
  os_ReadFile := fun _ => Ok (Sample.body_of "hello world");
  multipart_randomBoundary := "2f1a9c"
|}.

Definition project : Storage.StorageClient :=
  Storage.NewStorageClient "https://demo.wowsql.com:8443/v1" "wowsql_anon_key".

End Parsing.

(* ================================================================= *)
(** ** The error taxonomy and the shapes of the results *)

(** The kinds of error of section 7 of the specification that stand for a
    response. *)
Inductive kind : Type :=
| Authentication | Permission | NotFound | RateLimit | StorageLimit | Validation | Server
| Generic.

#[global] Instance kind_eq_dec : EqDecision kind.
Proof. solve_decision. Defined.

(** The kind of an error value: each error struct of the SDK is its own
    kind, ValidationError and ServerError are told by their type name, the
    base structs [WOWSQLError] and [StorageError] and any further struct
    are generic; the plain values of [fmt.Errorf] and of the standard
    library, and a [NetworkError], are no classification of a response. *)
Definition kind_of (e : error) : option kind :=
  match e with
  | AuthenticationError _ => Some Authentication
  | PermissionError _ => Some Permission
  | NotFoundError _ => Some NotFound
  | RateLimitError _ => Some RateLimit
  | StorageLimitExceededError _ _ _ => Some StorageLimit
  | otherError type_name _ =>
      if String.eqb type_name "ValidationError" then Some Validation
      else if String.eqb type_name "ServerError" then Some Server
      else Some Generic
  | WOWSQLError _ | StorageError _ _ => Some Generic
  | NetworkError _ | errorString _ _ | wrapError _ _ | libError _ _ => None
  end.

(** The kind that section 7 of the specification gives to a status code:
    "401-class", "403-class", "404-class" and "429-class" responses, then
    "4xx response indicating malformed request" and "5xx response". *)
Definition status_kind (status : Z) : option kind :=
  if status =? 401 then Some Authentication
  else if status =? 403 then Some Permission
  else if status =? 404 then Some NotFound
  else if status =? 429 then Some RateLimit
  else if (400 <=? status) && (status <? 500) then Some Validation
  else if (500 <=? status) && (status <? 600) then Some Server
  else None.

(** Modelled from the spec: [parseError] and [parseStorageError] are
    declared in a file that is not among the sources.  Sections 4.3 and 7
    of the specification have them classify a response "into a fixed error
    taxonomy by status code": the error is of the kind of the status code;
    by its body a response may instead be a quota violation reported by the
    server ([StorageLimitExceededError]), and a body that cannot be parsed
    degrades to a generic error. *)
Definition classified (status : Z) (e : error) : bool :=
  match kind_of e with
  | Some Generic | Some StorageLimit => true
  | Some k => bool_decide (status_kind status = Some k)
  | None => false
  end.

(** Modelled from the spec: that the two classifiers of the SDK do classify
    as the specification says. *)
Class Taxonomy `{ErrorMapper} : Prop := {
  parseError_classified : forall status b, classified status (parseError status b) = true;
  parseStorageError_classified :
    forall status b, classified status (parseStorageError status b) = true
}.

(** A 2xx response with a readable body decides the result of a call: the
    result is what [f] makes of the body. *)
Definition accepting {A} (f : bytes -> result A) (delta : Trace) (r : result A) : Prop :=
  forall req status b,
    In (req, Reply (mkResponse status (Ok b))) delta -> non_2xx status = false -> r = f b.

(** The result of a step handed on to the next. *)
Definition and_then {A B} (r : result A) (g : A -> result B) : result B :=
  match r with
  | Ok a => g a
  | Err e => Err e
  | Panic => Panic
  end.

(** A continuation that makes no round trip: its result is [g] of its
    argument. *)
Definition local_step {S A B} (world_of : S -> World) (K : A -> Comp S B)
    (g : A -> result B) : Prop :=
  forall a s, exists s', K a s = (g a, s') /\ world_of s' = world_of s.

(** A result of the shape [T] mapped on, with the error of the decoder
    wrapped by [format]. *)
Definition decode_as {T A} `{!Unmarshal T} (format : string) (f : T -> A) (b : bytes)
  : result A :=
  match wrap format (json_Unmarshal (T := T) b) with
  | Ok t => Ok (f t)
  | Err e => Err e
  | Panic => Panic
  end.

Module Shapes.

Section Storage.
Import Storage StorageCalls.
Context `{Runtime} `{Models} `{ErrorMapper}.
Context `{!Unmarshal StorageQuota} `{!Unmarshal FileUploadResult}
        `{!Unmarshal StorageFile} `{!Unmarshal url_result}
        `{!Unmarshal files_result} `{!Unmarshal (gmap string JSON)}
        `{!Unmarshal (list (gmap string JSON))}.

(** The shape that a storage call deserializes the body of a 2xx response
    to its request into; [run] keeps of it that it was there.  [DeleteFile]
    and [DeleteFiles] return no value and leave the body alone. *)
Definition storage_decoded (c : call) (b : bytes) : result unit :=
  let parsed T `{!Unmarshal T} :=
    decode_as (T := T) "failed to parse response: %w" (fun _ => tt) b in
  match c with
  | call_GetQuota => parsed StorageQuota
  | call_Upload _ _ _ _ | call_UploadFromPath _ _ _ _ => parsed FileUploadResult
  | call_Download _ _ | call_GetPresignedUrl _ _ _ => parsed url_result
  | call_ListFiles _ _ => parsed files_result
  | call_DeleteFile _ | call_DeleteFiles _ => Ok tt
  | call_GetFileInfo _ | call_FileExists _ => parsed StorageFile
  | call_GetFileUrl _ _ | call_GetStorageInfo | call_ProvisionStorage _ =>
      parsed (gmap string JSON)
  | call_GetAvailableRegions => parsed (list (gmap string JSON))
  end.

(** The payload of an upload. *)
Definition payload_of (c : call) : option bytes :=
  match c with
  | call_Upload fileData _ _ _ => Some fileData
  | call_UploadFromPath filePath _ _ _ =>
      match os_ReadFile filePath with
      | Ok fileData => Some fileData
      | _ => None
      end
  | _ => None
  end.

(** What the quota check of [Upload] makes of the body of a 2xx response
    to the quota request: it is deserialized into a [StorageQuota], and
    compared with the payload; a quota that has room lets the upload go
    on. *)
Definition quota_decoded (fileData : bytes) (b : bytes) (r : result unit) : Prop :=
  match wrap "failed to parse response: %w" (json_Unmarshal (T := StorageQuota) b) with
  | Ok quota =>
      StorageAvailableBytes quota < int64 (len fileData) ->
      exists msg,
        r = Err (StorageLimitExceededError msg (int64 (len fileData))
                   (StorageAvailableBytes quota))
  | Err e => r = Err e
  | Panic => r = Panic
  end.

(** A 2xx response in the trace of a storage call is deserialized: the one
    to the quota request of an upload into the quota, every other one into
    the result of the call. *)
Definition storage_accepting (c : call) (s : StorageClient) (delta : Trace)
    (r : result unit) : Prop :=
  forall req status b,
    In (req, Reply (mkResponse status (Ok b))) delta -> non_2xx status = false ->
    match payload_of c with
    | Some fileData =>
        if is_quota_request s req then quota_decoded fileData b r
        else r = storage_decoded c b
    | None => r = storage_decoded c b
    end.

End Storage.

Section Auth.
Import Auth AuthCalls.
Context `{Runtime} `{ErrorMapper}.
Context `{!Unmarshal authResponse} `{!Unmarshal loginResponse} `{!Unmarshal AuthUser}
        `{!Unmarshal OAuthAuthorizeResponse} `{!Unmarshal (gmap string JSON)}.

(** The shape that an auth call deserializes the body of a 2xx response
    into, and the session that [run] keeps of it. *)
Definition auth_decoded (c : call) (b : bytes) : result (option AuthSession) :=
  let plain T `{!Unmarshal T} format :=
    decode_as (T := T) format (fun _ => @None AuthSession) b in
  let session format :=
    decode_as (T := authResponse) format (fun resp => Some (session_of resp)) b in
  match c with
  | call_SignUp _ _ _ => session "failed to parse signup response: %w"
  | call_SignIn _ _ =>
      decode_as (T := loginResponse) "failed to parse login response: %w"
        (fun resp => Some {| AccessToken := login_AccessToken resp;
                             RefreshToken := login_RefreshToken resp;
                             TokenType := login_TokenType resp;
                             ExpiresIn := login_ExpiresIn resp |}) b
  | call_GetUser _ => plain AuthUser "failed to parse user response: %w"
  | call_GetOAuthAuthorizationURL _ _ =>
      plain OAuthAuthorizeResponse "failed to parse oauth response: %w"
  | call_ExchangeOAuthCallback _ _ _ =>
      session "failed to parse oauth callback response: %w"
  | call_ForgotPassword _ =>
      plain (gmap string JSON) "failed to parse forgot password response: %w"
  | call_ResetPassword _ _ =>
      plain (gmap string JSON) "failed to parse reset password response: %w"
  | call_SendOTP _ _ => plain (gmap string JSON) "failed to parse send OTP response: %w"
  | call_VerifyOTP _ _ purpose _ =>
      if String.eqb purpose "password_reset" then
        decode_as (T := gmap string JSON) "failed to parse verify OTP response: %w"
          (fun _ => Some {| AccessToken := ""; RefreshToken := "";
                            TokenType := ""; ExpiresIn := 0 |}) b
      else session "failed to parse verify OTP response: %w"
  | call_SendMagicLink _ _ =>
      plain (gmap string JSON) "failed to parse send magic link response: %w"
  | call_VerifyEmail _ =>
      plain (gmap string JSON) "failed to parse verify email response: %w"
  | call_ResendVerification _ =>
      plain (gmap string JSON) "failed to parse resend verification response: %w"
  end.

End Auth.

End Shapes.

(* ================================================================= *)
(** * Properties *)

(** ** Computations and their round trips *)

Lemma has_suffix_refl w : has_suffix w w [].
Proof. split; [reflexivity|]. symmetry. apply app_nil_r. Qed.

Lemma has_suffix_trans w1 w2 w3 d1 d2 :
  has_suffix w1 w2 d1 -> has_suffix w2 w3 d2 -> has_suffix w1 w3 (d1 ++ d2).
Proof.
  intros [Hn1 Hl1] [Hn2 Hl2]. split; [congruence|].
  rewrite Hl2, Hl1. symmetry. apply app_assoc.
Qed.

Lemma has_suffix_Do client req w :
  has_suffix w (Do client req w).2 [(req, (Do client req w).1)].
Proof. split; reflexivity. Qed.

Section Failing.
Context {S : Type} (world_of : S -> World).
Variable sel : RoundTrip -> option error.

Lemma traced_local {A} (r : result A) : traced_on world_of (failing sel) (lift r).
Proof.
  intros w r' w' Heq. injection Heq as <- <-.
  exists []. split; [apply has_suffix_refl|]. intros req rt e [].
Qed.

Lemma traced_ret {A} (a : A) : traced_on world_of (failing sel) (ret a).
Proof. apply (traced_local (Ok a)). Qed.

Lemma traced_fail {A} (e : error) : traced_on world_of (failing sel) (fail (A := A) e).
Proof. apply (traced_local (Err e)). Qed.

Lemma traced_panic {A} : traced_on world_of (failing sel) (panic (A := A)).
Proof. apply (traced_local Panic). Qed.

Lemma traced_bind {A B} (c : Comp S A) (k : A -> Comp S B) :
  traced_on world_of (failing sel) c ->
  (forall a, traced_on world_of (failing sel) (k a)) ->
  traced_on world_of (failing sel) (bind c k).
Proof.
  intros Hc Hk w r w' Heq. unfold bind in Heq.
  destruct (c w) as [r1 w1] eqn:Hcw.
  destruct (Hc _ _ _ Hcw) as (d1 & Hs1 & Hq1).
  destruct r1 as [a|e1|].
  - destruct (Hk a _ _ _ Heq) as (d2 & Hs2 & Hq2).
    exists (d1 ++ d2). split; [eapply has_suffix_trans; eassumption|].
    intros req rt e Hin Hsel. apply in_app_or in Hin as [Hin|Hin].
    + specialize (Hq1 _ _ _ Hin Hsel). discriminate.
    + eapply Hq2; eassumption.
  - injection Heq as <- <-. exists d1. split; [assumption|].
    intros req rt e Hin Hsel. specialize (Hq1 _ _ _ Hin Hsel).
    injection Hq1 as ->. reflexivity.
  - injection Heq as <- <-. exists d1. split; [assumption|].
    intros req rt e Hin Hsel. specialize (Hq1 _ _ _ Hin Hsel). discriminate.
Qed.

Lemma traced_erase {A} (c : Comp S A) :
  traced_on world_of (failing sel) c -> traced_on world_of (failing sel) (erase c).
Proof. intros Hc. apply traced_bind; [assumption|]. intros a. apply traced_ret. Qed.

End Failing.

Lemma dispatch_result_failure net parse rt e :
  dispatch_failure net parse rt = Some e -> dispatch_result net parse rt = Err e.
Proof.
  destruct rt as [err|resp]; cbn.
  - intros [= <-]. reflexivity.
  - destruct (Body resp) as [b|e'|]; [|intros [= <-]; reflexivity|discriminate].
    destruct (non_2xx (StatusCode resp)); [intros [= <-]; reflexivity|discriminate].
Qed.

(* ================================================================= *)
(** ** formatBytes *)

Lemma int64_id z : int64_range z -> int64 z = z.
Proof.
  unfold int64_range, int64. intros Hz.
  rewrite Z.mod_small by lia. lia.
Qed.

(** The loop stops within its bound, at the largest power of 1024 that is
    at most [n], without overflow. *)
Lemma formatBytes_loop_spec (fuel : nat) :
  forall n d e,
    1 <= n < 1024 ^ (Z.of_nat fuel + 1) -> 0 < d -> d * n < 2 ^ 63 ->
    exists k, 0 <= k <= Z.of_nat fuel /\
      formatBytes_loop fuel n d e = Some (d * 1024 ^ k, e + k) /\
      1024 ^ k <= n < 1024 ^ (k + 1).
Proof.
  induction fuel as [|fuel IH]; intros n d e Hn Hd Hdn.
  - exists 0. simpl in *. unfold unit1024.
    destruct (Z.leb_spec 1024 n); [lia|].
    split; [lia|]. split; [f_equal; f_equal; lia|lia].
  - cbn [formatBytes_loop]. unfold unit1024.
    destruct (Z.leb_spec 1024 n) as [Hge|Hlt].
    + rewrite Z.quot_div_nonneg by lia.
      assert (Hq1 : 1 <= n / 1024) by (apply Z.div_le_lower_bound; lia).
      assert (Hq2 : n / 1024 < 1024 ^ (Z.of_nat fuel + 1)).
      { apply Z.div_lt_upper_bound; [lia|].
        rewrite <- Z.pow_succ_r by lia.
        replace (Z.succ (Z.of_nat fuel + 1)) with (Z.of_nat (Datatypes.S fuel) + 1) by lia.
        lia. }
      assert (Hmul : 1024 * (n / 1024) <= n) by (apply Z.mul_div_le; lia).
      assert (Hd1024 : d * 1024 * (n / 1024) <= d * n) by nia.
      rewrite int64_id by (unfold int64_range; nia).
      destruct (IH (n / 1024) (d * 1024) (e + 1)) as (k & Hk & Hrun & Hbounds); [lia|lia|lia|].
      exists (k + 1). split; [lia|]. split.
      * rewrite Hrun. f_equal. f_equal; [|lia].
        rewrite Z.pow_add_r by lia. lia.
      * rewrite (Z.pow_add_r 1024 k 1) by lia.
        rewrite (Z.pow_add_r 1024 (k + 1) 1) by lia.
        rewrite Z.pow_1_r.
        pose proof (Z.mod_pos_bound n 1024 ltac:(lia)).
        pose proof (Z.div_mod n 1024 ltac:(lia)). nia.
    + exists 0. split; [lia|]. split; [f_equal; f_equal; lia|].
      rewrite Z.pow_0_r. simpl. lia.
Qed.

Lemma pow1024_le_63 k : 0 <= k -> 1024 ^ (k + 1) < 2 ^ 63 -> k <= 5.
Proof.
  intros Hk Hlt.
  destruct (Z.le_gt_cases k 5) as [|Hgt]; [assumption|exfalso].
  assert (1024 ^ 7 <= 1024 ^ (k + 1)) by (apply Z.pow_le_mono_r; lia).
  change (1024 ^ 7) with 1180591620717411303424 in *.
  change (2 ^ 63) with 9223372036854775808 in *. lia.
Qed.

Lemma unit_letter_in_range k : 0 <= k <= 5 -> exists c, unit_letter k = Some c.
Proof.
  intros Hk.
  assert (k = 0 \/ k = 1 \/ k = 2 \/ k = 3 \/ k = 4 \/ k = 5) as Hcases by lia.
  destruct Hcases as [->|[->|[->|[->|[->| ->]]]]]; eexists; reflexivity.
Qed.

Lemma formatBytes_small b : b < 1024 -> formatBytes b = Some (fmt_d b +:+ " B").
Proof.
  intros Hlt. unfold formatBytes, unit1024.
  destruct (Z.ltb_spec b 1024); [reflexivity|lia].
Qed.

Lemma formatBytes_large b :
  1024 <= b < 2 ^ 63 ->
  exists k c,
    0 <= k <= 5 /\ 1024 ^ (k + 1) <= b < 1024 ^ (k + 2) /\
    unit_letter k = Some c /\
    formatBytes b =
      Some (fmt_f2 (float64_div (float64_of_int b) (float64_of_int (1024 ^ (k + 1))))
              +:+ " " +:+ String c "B").
Proof.
  intros [Hge Hlt]. unfold formatBytes.
  change unit1024 with 1024. change (int64 1024) with 1024.
  destruct (Z.ltb_spec b 1024); [lia|].
  rewrite Z.quot_div_nonneg by lia.
  assert (Hq1 : 1 <= b / 1024) by (apply Z.div_le_lower_bound; lia).
  assert (Hmul : 1024 * (b / 1024) <= b) by (apply Z.mul_div_le; lia).
  destruct (formatBytes_loop_spec 64 (b / 1024) 1024 0) as (k & Hk & Hrun & Hbounds).
  - split; [lia|]. apply Z.div_lt_upper_bound; [lia|].
    apply Z.lt_le_trans with (2 ^ 63); [lia|]. vm_compute. discriminate.
  - lia.
  - lia.
  - assert (Hlo : 1024 ^ (k + 1) <= b).
    { rewrite Z.pow_add_r, Z.pow_1_r by lia. lia. }
    assert (Hhi : b < 1024 ^ (k + 2)).
    { replace (k + 2) with (k + 1 + 1) by lia.
      rewrite (Z.pow_add_r 1024 (k + 1) 1), Z.pow_1_r by lia.
      pose proof (Z.mod_pos_bound b 1024 ltac:(lia)).
      pose proof (Z.div_mod b 1024 ltac:(lia)). nia. }
    assert (Hk5 : k <= 5) by (apply pow1024_le_63; lia).
    destruct (unit_letter_in_range k) as [c Hc]; [lia|].
    exists k, c. repeat split; try lia; try assumption.
    rewrite Hrun. rewrite Z.add_0_l, Hc.
    replace (1024 * 1024 ^ k) with (1024 ^ (k + 1))
      by (rewrite Z.pow_add_r, Z.pow_1_r by lia; lia).
    reflexivity.
Qed.

(** [formatBytes] neither panics nor exhausts its loop bound on an [int64]. *)
Lemma formatBytes_total b : b < 2 ^ 63 -> exists s, formatBytes b = Some s.
Proof.
  intros Hb. destruct (Z.lt_ge_cases b 1024) as [Hlt|Hge].
  - eexists. apply formatBytes_small. assumption.
  - destruct (formatBytes_large b) as (k & c & _ & _ & _ & Heq); [lia|].
    eexists. exact Heq.
Qed.

(** C8.  [formatBytes] uses binary units on every non-negative [int64]:
    below 1024 it prints the number of bytes followed by " B"; from 1024 on
    it picks the letter [k] of "KMGTPE" with [1024^(k+1) <= bytes < 1024^(k+2)]
    and prints [float64(bytes) / float64(1024^(k+1))] with two decimals.  In
    particular 0 gives "0 B", 1536 gives "1.50 KB" and 1073741824 gives
    "1.00 GB". *)
Theorem formatBytes_binary_units (b : Z) (Hb : 0 <= b < 2 ^ 63) :
  (b < 1024 -> formatBytes b = Some (fmt_d b +:+ " B")) /\
  (1024 <= b ->
   exists k c,
     0 <= k <= 5 /\ 1024 ^ (k + 1) <= b < 1024 ^ (k + 2) /\
     unit_letter k = Some c /\
     formatBytes b =
       Some (fmt_f2 (float64_div (float64_of_int b) (float64_of_int (1024 ^ (k + 1))))
               +:+ " " +:+ String c "B")) /\
  formatBytes 0 = Some "0 B" /\
  formatBytes 1536 = Some "1.50 KB" /\
  formatBytes 1073741824 = Some "1.00 GB".
Proof.
  split; [apply formatBytes_small|].
  split; [intros Hge; apply formatBytes_large; lia|].
  repeat split; vm_compute; reflexivity.
Qed.

Lemma formatBytes_binary_units_witness :
  0 <= 1536 < 2 ^ 63 /\
  exists k c,
    0 <= k <= 5 /\ 1024 ^ (k + 1) <= 1536 < 1024 ^ (k + 2) /\
    unit_letter k = Some c /\
    formatBytes 1536 =
      Some (fmt_f2 (float64_div (float64_of_int 1536) (float64_of_int (1024 ^ (k + 1))))
              +:+ " " +:+ String c "B").
Proof.
  assert (H : 0 <= 1536 < 2 ^ 63) by lia.
  split; [exact H|].
  apply (proj1 (proj2 (formatBytes_binary_units 1536 H))). lia.
Defined.

(* ================================================================= *)
(** ** The storage client *)

Module StorageFacts.
Import Storage StorageCalls.

Section Facts.
Context `{RT : Runtime} `{MD : Models} `{EM : ErrorMapper}.
Context `{!Unmarshal StorageQuota} `{!Unmarshal FileUploadResult}
        `{!Unmarshal StorageFile} `{!Unmarshal url_result}
        `{!Unmarshal files_result} `{!Unmarshal (gmap string JSON)}
        `{!Unmarshal (list (gmap string JSON))}.

Abbreviation failure := (dispatch_failure transport_error parseStorageError).
Abbreviation outcome := (dispatch_result transport_error parseStorageError).

(** [doRequest] builds its request, makes one round trip and classifies
    the outcome; when the request cannot be built nothing is sent. *)
Lemma storage_doRequest_unfold s method path body w :
  doRequest s method path body w =
    match request_of s method path body with
    | Ok req => (outcome (Do (httpClient s) req w).1, (Do (httpClient s) req w).2)
    | Err e => (Err e, w)
    | Panic => (Panic, w)
    end.
Proof.
  unfold doRequest, request_of, bind, lift, ret.
  destruct body as [b|].
  - destruct (wrap _ (json_Marshal b)) as [jsonBody|e|]; [|reflexivity..].
    destruct (wrap _ (http_NewRequest _ _ _)) as [req|e|]; [|reflexivity..].
    destruct (Do _ _ w) as [[err|resp] w']; cbn; [reflexivity|].
    destruct (Body resp) as [b'|e|]; cbn; [|reflexivity..].
    destruct (non_2xx (StatusCode resp)); reflexivity.
  - destruct (wrap _ (http_NewRequest _ _ _)) as [req|e|]; [|reflexivity..].
    destruct (Do _ _ w) as [[err|resp] w']; cbn; [reflexivity|].
    destruct (Body resp) as [b'|e|]; cbn; [|reflexivity..].
    destruct (non_2xx (StatusCode resp)); reflexivity.
Qed.

Lemma request_of_target s method path body req :
  request_of s method path body = Ok req ->
  Method req = method /\ URL req = projectURL s +:+ path.
Proof.
  unfold request_of, http_NewRequest.
  destruct body as [b|].
  - destruct (json_Marshal b); cbn; try discriminate.
    destruct (http_NewRequest_err _ _); cbn; [discriminate|].
    intros [= <-]. split; reflexivity.
  - destruct (http_NewRequest_err _ _); cbn; [discriminate|].
    intros [= <-]. split; reflexivity.
Qed.

Lemma doRequest_traced s method path body :
  traced (failing failure) (doRequest s method path body).
Proof.
  intros w r w' Heq. rewrite storage_doRequest_unfold in Heq.
  destruct (request_of s method path body) as [req|e|].
  - injection Heq as <- <-. eexists. split; [apply has_suffix_Do|].
    intros req' rt' e [Hin|[]] Hsel. injection Hin as <- <-.
    apply dispatch_result_failure. assumption.
  - injection Heq as <- <-. exists []. split; [apply has_suffix_refl|]. intros ? ? ? [].
  - injection Heq as <- <-. exists []. split; [apply has_suffix_refl|]. intros ? ? ? [].
Qed.

(** A successful [doRequest] made exactly one round trip, to [path], and
    got a 2xx response whose body it returns. *)
Lemma doRequest_Ok s method path body w b w' :
  doRequest s method path body w = (Ok b, w') ->
  exists req resp,
    has_suffix w w' [(req, Reply resp)] /\
    Method req = method /\ URL req = projectURL s +:+ path /\
    Body resp = Ok b /\ non_2xx (StatusCode resp) = false.
Proof.
  rewrite storage_doRequest_unfold.
  destruct (request_of s method path body) as [req|e|] eqn:Hreq; [|discriminate..].
  destruct (request_of_target _ _ _ _ _ Hreq) as [Hm Hu].
  pose proof (has_suffix_Do (httpClient s) req w) as Hs.
  destruct (Do (httpClient s) req w) as [rt w1]. cbn [fst snd] in *.
  intros [= Hout <-].
  destruct rt as [err|resp]; cbn in Hout; [discriminate|].
  destruct (Body resp) as [b'|e|] eqn:Hb; [|discriminate..].
  destruct (non_2xx (StatusCode resp)) eqn:Hst; [discriminate|].
  injection Hout as ->. exists req, resp. repeat split; try assumption; apply Hs.
Qed.

Lemma parse_response_traced {T} `{!Unmarshal T} sel (resp : bytes) :
  traced (failing sel) (parse_response (T := T) resp).
Proof. apply traced_local. Qed.

(** [Upload] is its quota check followed, when the upload request can be
    built, by one round trip to the upload endpoint. *)
Lemma Upload_unfold s fileData key contentType checkQuota w :
  Upload s fileData key contentType checkQuota w =
    match quota_precheck s fileData checkQuota w with
    | (Ok _, w1) =>
        match http_NewRequest_err "POST" (projectURL s +:+ "/api/v1/storage/upload") with
        | Some e => (Err (wrapError "failed to create request: %w" e), w1)
        | None =>
            let req := upload_request_of s fileData key contentType in
            (upload_outcome (Do (httpClient s) req w1).1, (Do (httpClient s) req w1).2)
        end
    | (Err e, w1) => (Err e, w1)
    | (Panic, w1) => (Panic, w1)
    end.
Proof.
  unfold Upload. unfold bind at 1. fold (quota_precheck s fileData checkQuota).
  destruct (quota_precheck s fileData checkQuota w) as [[[]|e|] w1]; [|reflexivity..].
  unfold bind, lift, ret, multipart_NewWriter, upload_request_of, upload_parts,
    http_NewRequest.
  destruct (negb (String.eqb contentType "")); cbn -[Do];
    (destruct (http_NewRequest_err _ _) as [e|]; [reflexivity|]); cbn -[Do];
    unfold upload_outcome, FormDataContentType; cbn -[Do];
    (destruct (Do _ _ w1) as [[err|resp] w']; cbn; [reflexivity|]);
    (destruct (Body resp) as [b'|e|]; cbn; [|reflexivity..]);
    destruct (non_2xx (StatusCode resp)); reflexivity.
Qed.

Lemma GetQuota_traced s : traced (failing failure) (GetQuota s).
Proof.
  unfold GetQuota. apply traced_bind; [apply doRequest_traced|].
  intros; apply parse_response_traced.
Qed.

Lemma quota_precheck_traced s fileData checkQuota :
  traced (failing failure) (quota_precheck s fileData checkQuota).
Proof.
  unfold quota_precheck.
  destruct (match checkQuota with Some b => b | None => autoCheckQuota s end);
    [|apply traced_ret].
  apply traced_bind; [apply GetQuota_traced|]. intros quota.
  destruct (_ <? _); [|apply traced_ret].
  destruct (limit_message _ _); [apply traced_fail|apply traced_panic].
Qed.

Lemma Upload_traced s fileData key contentType checkQuota :
  traced (failing failure) (Upload s fileData key contentType checkQuota).
Proof.
  intros w r w' Heq. rewrite Upload_unfold in Heq.
  destruct (quota_precheck s fileData checkQuota w) as [r1 w1] eqn:Hcheck.
  destruct (quota_precheck_traced _ _ _ _ _ _ Hcheck) as (d1 & Hs1 & Hq1).
  destruct r1 as [[]|e1|].
  - destruct (http_NewRequest_err _ _) as [e|]; injection Heq as <- <-.
    + exists d1. split; [exact Hs1|].
      intros req rt e' Hin Hsel. specialize (Hq1 _ _ _ Hin Hsel). discriminate.
    + eexists. split; [eapply has_suffix_trans; [exact Hs1|apply has_suffix_Do]|].
      intros req rt e' Hin Hsel. apply in_app_or in Hin as [Hin|[Hin|[]]].
      * specialize (Hq1 _ _ _ Hin Hsel). discriminate.
      * injection Hin as <- <-. unfold upload_outcome.
        rewrite (dispatch_result_failure _ _ _ _ Hsel). reflexivity.
  - injection Heq as <- <-. exists d1. split; [exact Hs1|].
    intros req rt e' Hin Hsel. specialize (Hq1 _ _ _ Hin Hsel).
    injection Hq1 as ->. reflexivity.
  - injection Heq as <- <-. exists d1. split; [exact Hs1|].
    intros req rt e' Hin Hsel. specialize (Hq1 _ _ _ Hin Hsel). discriminate.
Qed.

Lemma GetFileInfo_traced s key : traced (failing failure) (GetFileInfo s key).
Proof.
  unfold GetFileInfo. apply traced_bind; [apply doRequest_traced|].
  intros; apply parse_response_traced.
Qed.

Lemma failing_run_failing c delta r : failing failure delta r -> run_failing c delta r.
Proof. intros Hf req rt e Hin Hsel. left. eapply Hf; eassumption. Qed.

Lemma FileExists_error_traced s key :
  traced (run_failing (call_FileExists key)) (FileExists_error s key).
Proof.
  intros w r w' Heq. unfold FileExists_error, FileExists, bind in Heq.
  destruct (GetFileInfo s key w) as [r1 w1] eqn:Hinfo.
  destruct (GetFileInfo_traced s key _ _ _ Hinfo) as (delta & Hs & Hq).
  exists delta.
  destruct r1 as [file|err|].
  - injection Heq as <- <-. split; [assumption|].
    intros req rt e Hin Hsel. specialize (Hq _ _ _ Hin Hsel). discriminate.
  - destruct (is_NotFoundError err) eqn:Hnf; injection Heq as <- <-;
      (split; [assumption|]);
      intros req rt e Hin Hsel; specialize (Hq _ _ _ Hin Hsel); injection Hq as ->.
    + right. split; [eexists; reflexivity|]. split; [assumption|reflexivity].
    + left. reflexivity.
  - injection Heq as <- <-. split; [assumption|].
    intros req rt e Hin Hsel. specialize (Hq _ _ _ Hin Hsel). discriminate.
Qed.

Lemma traced_weaken {A} (P Q : Trace -> result A -> Prop) (c : Comp World A) :
  (forall delta r, P delta r -> Q delta r) -> traced P c -> traced Q c.
Proof.
  intros HPQ Hc w r w' Heq. destruct (Hc _ _ _ Heq) as (delta & Hs & Hp).
  exists delta. split; [assumption|]. apply HPQ. assumption.
Qed.

Lemma storage_run_traced c s : traced (run_failing c) (run c s).
Proof.
  destruct c; cbn [run];
    try apply FileExists_error_traced;
    apply (traced_weaken (failing failure)); try apply failing_run_failing.
  - apply traced_erase, GetQuota_traced.
  - apply traced_erase, Upload_traced.
  - apply traced_erase. unfold Download.
    apply traced_bind; [apply doRequest_traced|]. intros.
    apply traced_bind; [apply parse_response_traced|]. intros. apply traced_ret.
  - apply traced_erase. unfold ListFiles.
    apply traced_bind; [apply doRequest_traced|]. intros.
    apply traced_bind; [apply parse_response_traced|]. intros. apply traced_ret.
  - unfold DeleteFile. apply traced_bind; [apply doRequest_traced|]. intros. apply traced_ret.
  - unfold DeleteFiles. apply traced_bind; [apply doRequest_traced|]. intros. apply traced_ret.
  - apply traced_erase, GetFileInfo_traced.
  - apply traced_erase. unfold GetFileUrl.
    apply traced_bind; [apply doRequest_traced|]. intros. apply parse_response_traced.
  - apply traced_erase. unfold GetPresignedUrl.
    apply traced_bind; [apply doRequest_traced|]. intros.
    apply traced_bind; [apply parse_response_traced|]. intros. apply traced_ret.
  - apply traced_erase. unfold GetStorageInfo.
    apply traced_bind; [apply doRequest_traced|]. intros. apply parse_response_traced.
  - apply traced_erase. unfold ProvisionStorage.
    apply traced_bind; [apply doRequest_traced|]. intros. apply parse_response_traced.
  - apply traced_erase. unfold GetAvailableRegions.
    apply traced_bind; [apply doRequest_traced|]. intros. apply parse_response_traced.
  - apply traced_erase. unfold UploadFromPath.
    apply traced_bind; [apply traced_local|]. intros. apply Upload_traced.
Qed.


Lemma GetQuota_Ok s w quota w1 :
  GetQuota s w = (Ok quota, w1) ->
  exists req resp,
    has_suffix w w1 [(req, Reply resp)] /\
    is_quota_request s req = true /\ is_upload_request s req = false.
Proof.
  unfold GetQuota, bind.
  destruct (doRequest s "GET" "/api/v1/storage/quota" None w) as [[b|e|] w2] eqn:Hreq;
    [|discriminate..].
  unfold parse_response, lift. intros [= _ <-].
  destruct (doRequest_Ok _ _ _ _ _ _ _ Hreq) as (req & resp & Hs & Hm & Hu & _).
  exists req, resp. split; [exact Hs|].
  unfold is_quota_request, is_upload_request. rewrite Hm, Hu.
  rewrite !String.eqb_refl. split; reflexivity.
Qed.

(** C1.  When the quota pre-check is enabled (no override and
    [autoCheckQuota] set, or the override [true]), the quota was fetched and
    its available bytes are fewer than the payload has, [Upload] fails with a
    [StorageLimitExceededError] carrying the payload length as required and
    the quota's available bytes, and the only request it has made is the
    quota request: nothing went to the upload endpoint.  (A Go slice has
    fewer than 2^63 elements.) *)
Theorem Upload_quota_precheck s fileData key contentType checkQuota w quota w1 :
  (checkQuota = None /\ autoCheckQuota s = true) \/ checkQuota = Some true ->
  GetQuota s w = (Ok quota, w1) ->
  StorageAvailableBytes quota < len fileData ->
  len fileData < 2 ^ 63 ->
  exists msg req rt,
    Upload s fileData key contentType checkQuota w =
      (Err (StorageLimitExceededError msg (len fileData) (StorageAvailableBytes quota)), w1) /\
    has_suffix w w1 [(req, rt)] /\
    is_quota_request s req = true /\ is_upload_request s req = false.
Proof.
  intros Henabled Hquota Hless Hlen.
  assert (Hcheck : match checkQuota with Some b => b | None => autoCheckQuota s end = true).
  { destruct Henabled as [[-> ->]| ->]; reflexivity. }
  assert (Hint : int64 (len fileData) = len fileData).
  { apply int64_id. unfold int64_range, len in *. lia. }
  destruct (formatBytes_total (len fileData) Hlen) as [need Hneed].
  destruct (formatBytes_total (StorageAvailableBytes quota)) as [avail Havail].
  { pose proof (StorageAvailableBytes_int64 quota) as Hr. unfold int64_range in Hr. lia. }
  destruct (GetQuota_Ok _ _ _ _ Hquota) as (req & resp & Hs & Hq & Hu).
  eexists _, req, (Reply resp). split; [|repeat split; try assumption; apply Hs].
  rewrite Upload_unfold. unfold quota_precheck. rewrite Hcheck.
  unfold bind. rewrite Hquota.
  rewrite Hint. destruct (Z.ltb_spec (StorageAvailableBytes quota) (len fileData)); [|lia].
  unfold limit_message. rewrite Hneed, Havail. reflexivity.
Qed.

(** C5.  [FileExists] answers [(false, nil)] when [GetFileInfo] fails with a
    [NotFoundError], [(true, nil)] when it succeeds, and hands every other
    error on to its caller. *)
Theorem FileExists_spec s key w r w' :
  GetFileInfo s key w = (r, w') ->
  (forall msg, r = Err (NotFoundError msg) ->
     FileExists s key w = (Ok (false, None), w')) /\
  (forall file, r = Ok file -> FileExists s key w = (Ok (true, None), w')) /\
  (forall err, r = Err err -> is_NotFoundError err = false ->
     FileExists s key w = (Ok (false, Some err), w')).
Proof.
  intros Hinfo. unfold FileExists. rewrite Hinfo.
  split; [|split].
  - intros msg ->. reflexivity.
  - intros file ->. reflexivity.
  - intros err -> ->. reflexivity.
Qed.

(** C6.  With the override [false], whatever [autoCheckQuota] says, [Upload]
    fetches no quota: no request it makes is a quota request, and provided
    the upload request can be built, its one and only round trip is the POST
    of the multipart form to the upload endpoint and its result is what that
    round trip gives, whatever the network would have answered to a quota
    request. *)
Theorem Upload_check_disabled s fileData key contentType w :
  (forall r w',
     Upload s fileData key contentType (Some false) w = (r, w') ->
     exists delta, has_suffix w w' delta /\
       forall req rt, In (req, rt) delta ->
         is_quota_request s req = false /\ is_upload_request s req = true) /\
  (http_NewRequest_err "POST" (projectURL s +:+ "/api/v1/storage/upload") = None ->
   exists req rt,
     Upload s fileData key contentType (Some false) w =
       (upload_outcome rt, mkWorld (network w) (log w ++ [(req, rt)])) /\
     rt = network w (httpClient s) (sent w ++ [req]) /\
     is_upload_request s req = true /\ is_quota_request s req = false /\
     ReqBody req =
       Some (multipart_body multipart_randomBoundary
               (upload_parts fileData key contentType))).
Proof.
  assert (Htarget : is_quota_request s (upload_request_of s fileData key contentType) = false
                    /\ is_upload_request s (upload_request_of s fileData key contentType)
                       = true).
  { unfold is_upload_request, is_quota_request. cbn.
    rewrite String.eqb_refl. split; reflexivity. }
  split.
  - intros r w'. rewrite Upload_unfold. unfold quota_precheck, ret. cbv beta iota.
    destruct (http_NewRequest_err _ _) as [e|]; intros [= <- <-].
    + exists []. split; [apply has_suffix_refl|]. intros ? ? [].
    + eexists. split; [apply has_suffix_Do|].
      intros req rt [[= <- <-]|[]]. exact Htarget.
  - intros Hbuild.
    exists (upload_request_of s fileData key contentType).
    eexists. split; [|split; [reflexivity|]].
    + rewrite Upload_unfold, Hbuild. reflexivity.
    + split; [apply Htarget|]. split; [apply Htarget|reflexivity].
Qed.

End Facts.
End StorageFacts.

(* ================================================================= *)
(** ** The auth client *)

Module AuthFacts.
Import Auth AuthCalls.

Section Facts.
Context `{Runtime} `{ErrorMapper}.
Context `{!Unmarshal authResponse} `{!Unmarshal loginResponse} `{!Unmarshal AuthUser}
        `{!Unmarshal OAuthAuthorizeResponse} `{!Unmarshal (gmap string JSON)}.

Abbreviation failure := (dispatch_failure NetworkError parseError).
Abbreviation outcome := (dispatch_result NetworkError parseError).

Lemma auth_doRequest_unfold c method path body headers w :
  doRequest c method path body headers w =
    match request_of c method path body headers with
    | Ok req => (outcome (Do (httpClient c) req w).1, (Do (httpClient c) req w).2)
    | Err e => (Err e, w)
    | Panic => (Panic, w)
    end.
Proof.
  unfold doRequest, request_of, bind, lift, ret.
  destruct body as [b|].
  - destruct (wrap _ (json_Marshal b)) as [payload|e|]; [|reflexivity..].
    destruct (wrap _ (http_NewRequest _ _ _)) as [req|e|]; [|reflexivity..].
    destruct (Do _ _ w) as [[err|resp] w']; cbn; [reflexivity|].
    destruct (Body resp) as [b'|e|]; cbn; [|reflexivity..].
    destruct (non_2xx (StatusCode resp)); reflexivity.
  - destruct (wrap _ (http_NewRequest _ _ _)) as [req|e|]; [|reflexivity..].
    destruct (Do _ _ w) as [[err|resp] w']; cbn; [reflexivity|].
    destruct (Body resp) as [b'|e|]; cbn; [|reflexivity..].
    destruct (non_2xx (StatusCode resp)); reflexivity.
Qed.

Lemma request_unfold method path body headers c w :
  request method path body headers (c, w) =
    match request_of c method path body headers with
    | Ok req => (outcome (Do (httpClient c) req w).1, (c, (Do (httpClient c) req w).2))
    | Err e => (Err e, (c, w))
    | Panic => (Panic, (c, w))
    end.
Proof.
  unfold request. rewrite auth_doRequest_unfold.
  destruct (request_of c method path body headers); reflexivity.
Qed.

Lemma request_traced method path body headers :
  traced_on snd (failing failure) (request method path body headers).
Proof.
  intros [c w] r [c' w'] Heq. rewrite request_unfold in Heq. cbn [snd].
  destruct (request_of c method path body headers) as [req|e|].
  - injection Heq as <- <- <-. eexists. split; [apply has_suffix_Do|].
    intros req' rt' e [Hin|[]] Hsel. injection Hin as <- <-.
    apply dispatch_result_failure. assumption.
  - injection Heq as <- <- <-. exists []. split; [apply has_suffix_refl|]. intros ? ? ? [].
  - injection Heq as <- <- <-. exists []. split; [apply has_suffix_refl|]. intros ? ? ? [].
Qed.

(** A successful request leaves the client alone, made exactly one round
    trip and returns the body of a 2xx response. *)
Lemma request_Ok method path body headers c w b c' w' :
  request method path body headers (c, w) = (Ok b, (c', w')) ->
  c' = c /\
  exists req resp,
    has_suffix w w' [(req, Reply resp)] /\
    Body resp = Ok b /\ non_2xx (StatusCode resp) = false.
Proof.
  rewrite request_unfold.
  destruct (request_of c method path body headers) as [req|e|]; [|discriminate..].
  pose proof (has_suffix_Do (httpClient c) req w) as Hs.
  destruct (Do (httpClient c) req w) as [rt w1]. cbn [fst snd] in *.
  intros [= Hout <- <-]. split; [reflexivity|].
  destruct rt as [err|resp]; cbn in Hout; [discriminate|].
  destruct (Body resp) as [b'|e|] eqn:Hb; [|discriminate..].
  destruct (non_2xx (StatusCode resp)) eqn:Hst; [discriminate|].
  injection Hout as ->. exists req, resp. repeat split; try assumption; apply Hs.
Qed.

Lemma request_keeps_client method path body headers c w r c' w' :
  request method path body headers (c, w) = (r, (c', w')) -> c' = c.
Proof.
  rewrite request_unfold.
  destruct (request_of c method path body headers); intros [= _ <- _]; reflexivity.
Qed.

Lemma persistSession_traced sel session :
  traced_on snd (failing sel) (persistSession session).
Proof.
  intros [c w] r [c' w'] Heq. injection Heq as <- <- <-.
  exists []. split; [apply has_suffix_refl|]. intros ? ? ? [].
Qed.

Ltac auth_traced :=
  repeat first
    [ apply request_traced
    | apply persistSession_traced
    | apply traced_ret | apply traced_fail | apply traced_local
    | apply traced_bind; [|intros ?] ].

Lemma auth_run_traced (c : call) : traced_on snd (failing failure) (run c).
Proof.
  destruct c; cbn [run]; unfold with_session, no_session;
    (apply traced_bind; [|intros ?; apply traced_ret]).
  - unfold SignUp. auth_traced.
  - unfold SignIn. auth_traced.
  - unfold GetUser. intros [c w] r [c' w'] Heq.
    destruct (String.eqb _ "") eqn:Htoken.
    + injection Heq as <- <- <-. exists []. split; [apply has_suffix_refl|].
      intros ? ? ? [].
    + refine (traced_bind snd _ _ _ _ _ (c, w) r (c', w') Heq);
        [apply request_traced|intros; apply traced_local].
  - unfold GetOAuthAuthorizationURL. auth_traced.
  - unfold ExchangeOAuthCallback. auth_traced.
  - unfold ForgotPassword. auth_traced.
  - unfold ResetPassword. auth_traced.
  - unfold SendOTP. destruct (bad_otp_purpose purpose); auth_traced.
  - unfold VerifyOTP. destruct (bad_otp_purpose purpose); [auth_traced|].
    destruct (_ && _); [auth_traced|].
    apply traced_bind; [apply request_traced|]. intros body.
    destruct (String.eqb purpose "password_reset"); auth_traced.
  - unfold SendMagicLink. destruct (bad_magic_link_purpose purpose); auth_traced.
  - unfold VerifyEmail. auth_traced.
  - unfold ResendVerification. auth_traced.
Qed.

(** *** The stored session *)

Lemma keeps_request method path body headers :
  keeps_client (request method path body headers).
Proof. intros cl w r cl' w'. apply request_keeps_client. Qed.

Lemma keeps_lift {A} (r : result A) : keeps_client (lift r).
Proof. intros cl w r' cl' w' [= _ <- _]. reflexivity. Qed.

Lemma keeps_bind {A B} (c : Comp St A) (k : A -> Comp St B) :
  keeps_client c -> (forall a, keeps_client (k a)) -> keeps_client (bind c k).
Proof.
  intros Hc Hk cl w r cl' w'. unfold bind.
  destruct (c (cl, w)) as [[a|e|] [cl1 w1]] eqn:Hcw.
  - intros Heq. rewrite <- (Hc _ _ _ _ _ Hcw). eapply Hk. eassumption.
  - intros [= _ <- _]. eapply Hc. eassumption.
  - intros [= _ <- _]. eapply Hc. eassumption.
Qed.

Ltac keeps :=
  repeat first
    [ apply keeps_request | apply keeps_lift
    | apply (keeps_lift (Ok _)) | apply (keeps_lift (Err _))
    | apply keeps_bind; [|intros ?] ].

Lemma no_session_frame {A} (c : Comp St A) cl w r cl' w' :
  keeps_client c ->
  no_session c (cl, w) = (r, (cl', w')) ->
  cl' = cl /\ forall session, r <> Ok (Some session).
Proof.
  intros Hc. unfold no_session, bind, ret.
  destruct (c (cl, w)) as [[a|e|] [cl1 w1]] eqn:Hcw;
    intros [= <- <- <-]; (split; [eapply Hc; eassumption|discriminate]).
Qed.

(** The calls that persist a session: they decode the body of a 2xx
    response into [T], store the tokens [mk] reads off it and return them. *)
Lemma with_session_frame {T} `{!Unmarshal T} method path body headers format
    (mk : T -> AuthSession) (user : T -> option AuthUser) cl w r cl' w' :
  with_session
    (do b <- request method path body headers;
     do resp <- lift (wrap format (json_Unmarshal b));
     do _ <- persistSession (mk resp);
     ret {| User := user resp; Session := mk resp |}) (cl, w) = (r, (cl', w')) ->
  match r with
  | Ok (Some session) =>
      cl' = SetSession (AccessToken session) (RefreshToken session) cl /\
      exists req resp b t,
        has_suffix w w' [(req, Reply resp)] /\ Body resp = Ok b /\
        non_2xx (StatusCode resp) = false /\
        json_Unmarshal b = Ok t /\ mk t = session
  | Ok None => False
  | _ => cl' = cl
  end.
Proof.
  unfold with_session, bind.
  destruct (request method path body headers (cl, w)) as [[b|e|] [cl1 w1]] eqn:Hreq.
  - destruct (request_Ok _ _ _ _ _ _ _ _ _ Hreq) as (-> & req & resp & Hs & Hb & Hst).
    unfold lift. destruct (json_Unmarshal b) as [t|e|] eqn:Hdec; cbn.
    + intros [= <- <- <-]. split; [reflexivity|].
      exists req, resp, b, t.
      split; [exact Hs|]. split; [exact Hb|]. split; [exact Hst|].
      split; [exact Hdec|reflexivity].
    + intros [= <- <- <-]. reflexivity.
    + intros [= <- <- <-]. reflexivity.
  - intros [= <- <- <-]. eapply request_keeps_client. eassumption.
  - intros [= <- <- <-]. eapply request_keeps_client. eassumption.
Qed.


Lemma GetUser_keeps tokenOverride : keeps_client (GetUser tokenOverride).
Proof.
  intros cl w r cl' w'. unfold GetUser.
  destruct (String.eqb _ ""); [intros [= _ <- _]; reflexivity|].
  apply keeps_bind; [apply keeps_request|intros; apply keeps_lift].
Qed.

Lemma with_session_effect {T} `{!Unmarshal T} (c : call) method path body headers format
    (mk : T -> AuthSession) (user : T -> option AuthUser) cl w r cl' w' :
  is_password_reset c = false ->
  (forall b, decoded_session c b =
             match json_Unmarshal b with Ok t => Some (mk t) | _ => None end) ->
  with_session
    (do b <- request method path body headers;
     do resp <- lift (wrap format (json_Unmarshal b));
     do _ <- persistSession (mk resp);
     ret {| User := user resp; Session := mk resp |}) (cl, w) = (r, (cl', w')) ->
  session_effect c cl w r cl' w'.
Proof.
  intros Hreset Hdec Heq. apply with_session_frame in Heq. unfold session_effect.
  destruct r as [[session|]|e|]; try assumption; [|contradiction].
  rewrite Hreset. destruct Heq as (Hcl & req & resp & b & t & Hs & Hb & Hst & Ht & Hmk).
  split; [assumption|]. exists req, resp, b.
  split; [exact Hs|]. split; [exact Hb|]. split; [exact Hst|].
  rewrite Hdec, Ht, Hmk. reflexivity.
Qed.

Lemma no_session_effect {A} (c : call) (m : Comp St A) cl w r cl' w' :
  keeps_client m ->
  no_session m (cl, w) = (r, (cl', w')) ->
  session_effect c cl w r cl' w'.
Proof.
  intros Hk Heq. destruct (no_session_frame _ _ _ _ _ _ Hk Heq) as [-> Hr].
  unfold session_effect. destruct r as [[session|]|e|]; try reflexivity.
  exfalso. eapply Hr. reflexivity.
Qed.

Lemma VerifyOTP_effect email otp purpose newPassword cl w r cl' w' :
  with_session (VerifyOTP email otp purpose newPassword) (cl, w) = (r, (cl', w')) ->
  session_effect (call_VerifyOTP email otp purpose newPassword) cl w r cl' w'.
Proof.
  unfold VerifyOTP.
  destruct (bad_otp_purpose purpose).
  { intros [= <- <- <-]. reflexivity. }
  destruct (String.eqb purpose "password_reset" && bool_decide (newPassword = None)).
  { intros [= <- <- <-]. reflexivity. }
  destruct (String.eqb purpose "password_reset") eqn:Hreset.
  - unfold with_session, bind.
    destruct (request _ _ _ _ (cl, w)) as [[b|e|] [cl1 w1]] eqn:Hreq.
    + apply request_keeps_client in Hreq as ->.
      unfold lift. destruct (wrap _ (json_Unmarshal b)) as [m|e|]; cbn;
        intros [= <- <- <-]; unfold session_effect; cbn [is_password_reset];
        try rewrite Hreset; reflexivity.
    + apply request_keeps_client in Hreq as ->. intros [= <- <- <-]. reflexivity.
    + apply request_keeps_client in Hreq as ->. intros [= <- <- <-]. reflexivity.
  - intros Heq.
    eapply (with_session_effect _ _ _ _ _ _ session_of resp_User); [exact Hreset| |exact Heq].
    intros b. reflexivity.
Qed.

Lemma run_session_effect c cl w r cl' w' :
  run c (cl, w) = (r, (cl', w')) -> session_effect c cl w r cl' w'.
Proof.
  destruct c; cbn [run]; try (apply no_session_effect).
  - intros Heq.
    eapply (with_session_effect _ _ _ _ _ _ session_of resp_User);
      [reflexivity| |exact Heq]. intros b. reflexivity.
  - intros Heq.
    eapply (with_session_effect _ _ _ _ _ _
              (fun resp => {| AccessToken := login_AccessToken resp;
                              RefreshToken := login_RefreshToken resp;
                              TokenType := login_TokenType resp;
                              ExpiresIn := login_ExpiresIn resp |})
              (fun _ => None));
      [reflexivity| |exact Heq]. intros b. reflexivity.
  - apply GetUser_keeps.
  - unfold GetOAuthAuthorizationURL. keeps.
  - intros Heq.
    eapply (with_session_effect _ _ _ _ _ _ session_of resp_User);
      [reflexivity| |exact Heq]. intros b. reflexivity.
  - unfold ForgotPassword. keeps.
  - unfold ResetPassword. keeps.
  - unfold SendOTP. destruct (bad_otp_purpose purpose); keeps.
  - apply VerifyOTP_effect.
  - unfold SendMagicLink. destruct (bad_magic_link_purpose purpose); keeps.
  - unfold VerifyEmail. keeps.
  - unfold ResendVerification. keeps.
Qed.

Lemma run_returns_session c s r s' session :
  run c s = (r, s') -> r = Ok (Some session) -> returns_session c = true.
Proof.
  destruct c; cbn [run returns_session]; try reflexivity;
    unfold no_session, bind, ret;
    match goal with
    | |- context [?m s] => destruct (m s) as [[a|e|] s1]
    end; intros [= <- _]; discriminate.
Qed.

(** C7, as amended.  A successful SignUp, SignIn, ExchangeOAuthCallback, or
    VerifyOTP for the purposes login and signup, overwrites the stored
    tokens with those decoded from the body of the 2xx response (and
    returned as the Session); a VerifyOTP for password_reset and every other
    call, successful or not, leaves the client as it was.  Only the calls
    returning an AuthResult yield a session.  [SetSession] stores the
    caller's tokens and [ClearSession] resets both to the empty string. *)
Theorem session_updates c cl w r cl' w' :
  run c (cl, w) = (r, (cl', w')) ->
  match r with
  | Ok (Some session) =>
      returns_session c = true /\
      if is_password_reset c then cl' = cl
      else
        cl' = SetSession (AccessToken session) (RefreshToken session) cl /\
        exists req resp b,
          has_suffix w w' [(req, Reply resp)] /\ Body resp = Ok b /\
          non_2xx (StatusCode resp) = false /\
          decoded_session c b = Some session
  | _ => cl' = cl
  end /\
  (forall a t, accessToken (SetSession a t cl) = a /\ refreshToken (SetSession a t cl) = t) /\
  accessToken (ClearSession cl) = "" /\ refreshToken (ClearSession cl) = "".
Proof.
  intros Heq. split; [|repeat split].
  pose proof (run_session_effect _ _ _ _ _ _ Heq) as Heffect.
  unfold session_effect in Heffect.
  destruct r as [[session|]|e|]; try assumption.
  split; [|assumption]. eapply run_returns_session; [exact Heq|reflexivity].
Qed.

(** C10.  [SendOTP] and [VerifyOTP] reject a purpose other than "login",
    "signup" and "password_reset", and [VerifyOTP] rejects a password reset
    without a new password: the error is returned with the client and the
    world untouched, so no request was made and the stored session is
    unchanged. *)
Theorem otp_purpose_validated email otp purpose newPassword cl w :
  (purpose <> "login" -> purpose <> "signup" -> purpose <> "password_reset" ->
   SendOTP email purpose (cl, w) =
     (Err (errorString "purpose must be 'login', 'signup', or 'password_reset'" []), (cl, w)) /\
   VerifyOTP email otp purpose newPassword (cl, w) =
     (Err (errorString "purpose must be 'login', 'signup', or 'password_reset'" []), (cl, w))) /\
  VerifyOTP email otp "password_reset" None (cl, w) =
    (Err (errorString "newPassword is required for password_reset purpose" []), (cl, w)).
Proof.
  split; [|reflexivity].
  intros Hlogin Hsignup Hreset.
  assert (Hbad : bad_otp_purpose purpose = true).
  { unfold bad_otp_purpose.
    apply String.eqb_neq in Hlogin, Hsignup, Hreset.
    rewrite Hlogin, Hsignup, Hreset. reflexivity. }
  unfold SendOTP, VerifyOTP. rewrite Hbad. split; reflexivity.
Qed.

End Facts.
End AuthFacts.

(* ================================================================= *)
(** ** The schema clients *)

Module SchemaFacts.
Import SchemaCalls.

Section Facts.
Context `{Runtime} `{!Decode (gmap string JSON)} `{!Decode Schema.SchemaResponse}.

Ltac schema_unfold :=
  unfold erase, bind, lift, ret, request_for;
  repeat
    match goal with
    | |- context [wrap ?f (json_Marshal ?j)] =>
        destruct (wrap f (json_Marshal j)) as [? | ? | ]; [|reflexivity..]
    | |- context [wrap ?f (http_NewRequest ?m ?u ?b)] =>
        destruct (wrap f (http_NewRequest m u b)) as [? | ? | ]; [|reflexivity..]
    end;
  match goal with
  | |- context [Do ?c ?r ?w] => destruct (Do c r w) as [[err|resp] w']
  end; cbn; [reflexivity|];
  repeat
    match goal with
    | |- context [StatusCode ?r =? ?n] => destruct (StatusCode r =? n); cbn; try reflexivity
    end;
  repeat
    match goal with
    | |- context [match index_map ?m ?k with _ => _ end] =>
        destruct (index_map m k) as [[]|]; cbn; try reflexivity
    | |- context [wrap ?f (json_Decode ?b)] =>
        destruct (wrap f (json_Decode b)) as [? | ? | ]; cbn; try reflexivity
    end.

(** Each call of schema.go builds one request, makes one round trip and
    turns its outcome into the result. *)
Lemma run_unfold c client w :
  run c client w =
    match request_for (Schema.baseURL client) (Schema.serviceKey client) (target c) with
    | Ok req =>
        (outcome c (Do (Schema.httpClient client) req w).1,
         (Do (Schema.httpClient client) req w).2)
    | Err e => (Err e, w)
    | Panic => (Panic, w)
    end.
Proof.
  destruct c; cbn [run target outcome];
    unfold Schema.CreateTable, Schema.AlterTable, Schema.DropTable, Schema.ExecuteSQL;
    schema_unfold.
Qed.

Lemma run_pkg_unfold c client w :
  run_pkg c client w =
    match request_for (WOWSQLSchema.baseURL client) (WOWSQLSchema.serviceKey client)
            (pkg_target c) with
    | Ok req =>
        (pkg_outcome c (Do (WOWSQLSchema.httpClient client) req w).1,
         (Do (WOWSQLSchema.httpClient client) req w).2)
    | Err e => (Err e, w)
    | Panic => (Panic, w)
    end.
Proof.
  destruct c; cbn [run_pkg pkg_target pkg_outcome];
    unfold WOWSQLSchema.CreateTable, WOWSQLSchema.AlterTable, WOWSQLSchema.DropTable,
      WOWSQLSchema.ExecuteSQL;
    schema_unfold.
Qed.


(** The round trips of a schema call: none when the request cannot be
    built, else one, and then the result is what [outcome] makes of it. *)
Lemma run_round_trip c client w r w' :
  run c client w = (r, w') ->
  exists delta, has_suffix w w' delta /\
    forall req rt, In (req, rt) delta -> r = outcome c rt.
Proof.
  rewrite run_unfold.
  destruct (request_for _ _ (target c)) as [req|e|]; intros [= <- <-].
  - eexists. split; [apply has_suffix_Do|].
    intros req' rt' [[= <- <-]|[]]. reflexivity.
  - exists []. split; [apply has_suffix_refl|]. intros ? ? [].
  - exists []. split; [apply has_suffix_refl|]. intros ? ? [].
Qed.

Lemma run_pkg_round_trip c client w r w' :
  run_pkg c client w = (r, w') ->
  exists delta, has_suffix w w' delta /\
    forall req rt, In (req, rt) delta -> r = pkg_outcome c rt.
Proof.
  rewrite run_pkg_unfold.
  destruct (request_for _ _ (pkg_target c)) as [req|e|]; intros [= <- <-].
  - eexists. split; [apply has_suffix_Do|].
    intros req' rt' [[= <- <-]|[]]. reflexivity.
  - exists []. split; [apply has_suffix_refl|]. intros ? ? [].
  - exists []. split; [apply has_suffix_refl|]. intros ? ? [].
Qed.

Lemma forbidden_message_key c :
  strings_Contains (forbidden_message c) "SERVICE ROLE key" = true.
Proof. destruct c; vm_compute; reflexivity. Qed.

Lemma pkg_forbidden_message_key c :
  strings_Contains (pkg_forbidden_message c) "SERVICE ROLE key" = true.
Proof. destruct c; vm_compute; reflexivity. Qed.

(** C2, on the code.  A 403 response to CreateTable, AlterTable, DropTable
    or ExecuteSQL, of schema.go and of WOWSQL/schema.go alike, makes the
    call return the plain [fmt.Errorf] value with the fixed message that
    names the SERVICE ROLE key: an error that is not a [PermissionError]
    and none of the SDK's error structs. *)
Theorem forbidden_is_plain_error :
  (forall c client w r w',
     run c client w = (r, w') ->
     exists delta, has_suffix w w' delta /\
       forall req resp, In (req, Reply resp) delta -> StatusCode resp = 403 ->
         r = Err (errorString (forbidden_message c) []) /\
         strings_Contains (forbidden_message c) "SERVICE ROLE key" = true /\
         is_PermissionError (errorString (forbidden_message c) []) = false /\
         is_SDK_error (errorString (forbidden_message c) []) = false) /\
  (forall c client w r w',
     run_pkg c client w = (r, w') ->
     exists delta, has_suffix w w' delta /\
       forall req resp, In (req, Reply resp) delta -> StatusCode resp = 403 ->
         r = Err (errorString (pkg_forbidden_message c) []) /\
         strings_Contains (pkg_forbidden_message c) "SERVICE ROLE key" = true /\
         is_PermissionError (errorString (pkg_forbidden_message c) []) = false /\
         is_SDK_error (errorString (pkg_forbidden_message c) []) = false).
Proof.
  split; intros c client w r w' Hrun.
  - destruct (run_round_trip _ _ _ _ _ Hrun) as (delta & Hs & Hq).
    exists delta. split; [assumption|]. intros req resp Hin Hst.
    rewrite (Hq _ _ Hin). cbn. rewrite Hst. cbn.
    repeat split. apply forbidden_message_key.
  - destruct (run_pkg_round_trip _ _ _ _ _ Hrun) as (delta & Hs & Hq).
    exists delta. split; [assumption|]. intros req resp Hin Hst.
    rewrite (Hq _ _ Hin). cbn. rewrite Hst. cbn.
    repeat split. apply pkg_forbidden_message_key.
Qed.

End Facts.
End SchemaFacts.

(* ================================================================= *)
(** ** The query builder *)

Module QueryFacts.
Import QueryBuilder.

Section Facts.
Context `{Runtime} `{ErrorMapper} `{!Unmarshal QueryResult}.
Variable serialize : Query -> string.

(** C9.  [first()] is [execute()] with the limit set to 1: it makes the
    same round trip, fails where that fails, and on success returns the
    first Record, or nil without an error when the result set is empty. *)
Theorem first_is_execute_limit_1 c q w r w' :
  execute serialize c (with_limit 1 q) w = (r, w') ->
  limit (with_limit 1 q) = Some 1 /\
  match r with
  | Ok res =>
      first serialize c q w = (Ok (head (data res)), w') /\
      (data res = [] -> first serialize c q w = (Ok None, w')) /\
      (forall record rest, data res = record :: rest ->
         first serialize c q w = (Ok (Some record), w'))
  | Err e => first serialize c q w = (Err e, w')
  | Panic => first serialize c q w = (Panic, w')
  end.
Proof.
  intros Hexec. split; [reflexivity|].
  unfold first, bind. rewrite Hexec.
  destruct r as [res|e|]; [|reflexivity..].
  split; [reflexivity|]. split.
  - intros ->. reflexivity.
  - intros record rest ->. reflexivity.
Qed.

End Facts.
End QueryFacts.

(* ================================================================= *)
(** ** Responses that are accepted *)

Lemma has_suffix_unique w w' d1 d2 :
  has_suffix w w' d1 -> has_suffix w w' d2 -> d1 = d2.
Proof.
  intros [_ H1] [_ H2]. rewrite H1 in H2. eapply app_inv_head. exact H2.
Qed.

Section Accepting.
Context {S : Type} (world_of : S -> World).

Lemma accepting_ext {A} (f g : bytes -> result A) (c : Comp S A) :
  (forall b, f b = g b) ->
  traced_on world_of (accepting f) c -> traced_on world_of (accepting g) c.
Proof.
  intros Hfg Hc s r s' Heq. destruct (Hc _ _ _ Heq) as (delta & Hs & Hq).
  exists delta. split; [exact Hs|]. intros req status b Hin Hst.
  rewrite <- Hfg. eapply Hq; eassumption.
Qed.

Lemma local_lift {A B} (g : A -> result B) :
  local_step world_of (fun a => lift (g a)) g.
Proof. intros a s. exists s. split; reflexivity. Qed.

Lemma local_ret {A B} (h : A -> B) :
  local_step world_of (fun a => ret (h a)) (fun a => Ok (h a)).
Proof. intros a s. exists s. split; reflexivity. Qed.

Lemma local_bind {A B C} (K1 : A -> Comp S B) (K2 : B -> Comp S C) g1 g2 :
  local_step world_of K1 g1 -> local_step world_of K2 g2 ->
  local_step world_of (fun a => bind (K1 a) K2) (fun a => and_then (g1 a) g2).
Proof.
  intros H1 H2 a s. unfold bind. destruct (H1 a s) as (s1 & -> & Hw1).
  destruct (g1 a) as [x|e|]; cbn [and_then].
  - destruct (H2 x s1) as (s2 & -> & Hw2). exists s2. split; [reflexivity|congruence].
  - exists s1. split; [reflexivity|exact Hw1].
  - exists s1. split; [reflexivity|exact Hw1].
Qed.

(** A request followed by steps that stay off the network. *)
Lemma accepting_then {A B} (c : Comp S A) (K : A -> Comp S B) f g :
  traced_on world_of (accepting f) c -> local_step world_of K g ->
  traced_on world_of (accepting (fun b => and_then (f b) g)) (bind c K).
Proof.
  intros Hc HK s r s' Heq. unfold bind in Heq.
  destruct (c s) as [r1 s1] eqn:Hcs.
  destruct (Hc _ _ _ Hcs) as (delta & Hs & Hq). exists delta.
  destruct r1 as [a|e|].
  - destruct (HK a s1) as (s2 & Hk & Hw). rewrite Hk in Heq. injection Heq as <- <-.
    split; [rewrite Hw; exact Hs|].
    intros req status b Hin Hst. rewrite <- (Hq _ _ _ Hin Hst). reflexivity.
  - injection Heq as <- <-. split; [exact Hs|].
    intros req status b Hin Hst. rewrite <- (Hq _ _ _ Hin Hst). reflexivity.
  - injection Heq as <- <-. split; [exact Hs|].
    intros req status b Hin Hst. rewrite <- (Hq _ _ _ Hin Hst). reflexivity.
Qed.

End Accepting.

Lemma dispatch_result_accepted net parse status b :
  non_2xx status = false ->
  dispatch_result net parse (Reply (mkResponse status (Ok b))) = Ok b.
Proof. intros Hst. cbn. rewrite Hst. reflexivity. Qed.

Module StorageAccepts.
Import Storage StorageCalls StorageFacts Shapes.

Section Facts.
Context `{RT : Runtime} `{MD : Models} `{EM : ErrorMapper}.
Context `{!Unmarshal StorageQuota} `{!Unmarshal FileUploadResult}
        `{!Unmarshal StorageFile} `{!Unmarshal url_result}
        `{!Unmarshal files_result} `{!Unmarshal (gmap string JSON)}
        `{!Unmarshal (list (gmap string JSON))}.

(** The round trip of [doRequest]: none when the request cannot be built,
    else the one whose outcome it returns. *)
Lemma doRequest_round_trip s method path body w r w' :
  doRequest s method path body w = (r, w') ->
  (w' = w /\ forall b, r <> Ok b) \/
  exists req rt,
    request_of s method path body = Ok req /\
    has_suffix w w' [(req, rt)] /\
    r = dispatch_result transport_error parseStorageError rt.
Proof.
  rewrite storage_doRequest_unfold.
  destruct (request_of s method path body) as [req|e|].
  - intros [= <- <-]. right. eexists _, _.
    split; [reflexivity|]. split; [apply has_suffix_Do|reflexivity].
  - intros [= <- <-]. left. split; [reflexivity|discriminate].
  - intros [= <- <-]. left. split; [reflexivity|discriminate].
Qed.

Lemma doRequest_accepting s method path body :
  traced (accepting Ok) (doRequest s method path body).
Proof.
  intros w r w' Heq.
  destruct (doRequest_round_trip _ _ _ _ _ _ _ Heq) as [[-> _]|(req & rt & _ & Hs & ->)].
  - exists []. split; [apply has_suffix_refl|]. intros ? ? ? [].
  - eexists. split; [exact Hs|].
    intros req' status b [[= -> ->]|[]] Hst. apply dispatch_result_accepted, Hst.
Qed.

Ltac accept_one :=
  unfold erase;
  eapply accepting_ext;
    [|eapply accepting_then;
        [eapply accepting_then; [apply doRequest_accepting|]|apply local_ret];
        first [ apply local_lift
              | eapply local_bind; [apply local_lift|apply local_ret]
              | apply local_ret ]];
  intros b; unfold storage_decoded, decode_as, and_then; cbn beta;
  try destruct (wrap _ (json_Unmarshal b)); reflexivity.

Lemma GetFileInfo_accepting s key :
  traced (accepting (fun b => wrap "failed to parse response: %w"
                                (json_Unmarshal (T := StorageFile) b)))
    (GetFileInfo s key).
Proof.
  unfold GetFileInfo.
  eapply accepting_ext;
    [|eapply accepting_then; [apply doRequest_accepting|apply local_lift]].
  intros b. reflexivity.
Qed.

Lemma FileExists_accepting s key :
  traced (accepting (storage_decoded (call_FileExists key))) (FileExists_error s key).
Proof.
  intros w r w' Heq. unfold FileExists_error, FileExists, bind in Heq.
  destruct (GetFileInfo s key w) as [r1 w1] eqn:Hinfo.
  destruct (GetFileInfo_accepting s key _ _ _ Hinfo) as (delta & Hs & Hq).
  exists delta.
  assert (Hr : w' = w1 /\
               forall b, r1 = wrap "failed to parse response: %w"
                                (json_Unmarshal (T := StorageFile) b) ->
                         r = storage_decoded (call_FileExists key) b).
  { unfold storage_decoded, decode_as.
    destruct r1 as [file|err|].
    - injection Heq as <- <-. split; [reflexivity|]. intros b <-. reflexivity.
    - destruct (is_NotFoundError err) eqn:Hnf; injection Heq as <- <-;
        (split; [reflexivity|]); intros b Hb; rewrite <- Hb; [|reflexivity].
      destruct (json_Unmarshal b); cbn in Hb; try discriminate.
      injection Hb as ->. discriminate.
    - injection Heq as <- <-. split; [reflexivity|]. intros b <-. reflexivity. }
  destruct Hr as [-> Hr]. split; [exact Hs|].
  intros req status b Hin Hst. apply Hr. eapply Hq; eassumption.
Qed.

Lemma int64_in_range z : int64_range (int64 z).
Proof.
  unfold int64_range, int64.
  pose proof (Z.mod_pos_bound (z + 2 ^ 63) (2 ^ 64) eq_refl). lia.
Qed.

(** The quota check makes the quota request alone, and a 2xx response to
    it is deserialized into the quota that decides the check. *)
Lemma quota_precheck_accepting s fileData checkQuota w r1 w1 :
  quota_precheck s fileData checkQuota w = (r1, w1) ->
  exists d1, has_suffix w w1 d1 /\
    forall req status b,
      In (req, Reply (mkResponse status (Ok b))) d1 -> non_2xx status = false ->
      is_quota_request s req = true /\
      match wrap "failed to parse response: %w" (json_Unmarshal (T := StorageQuota) b) with
      | Ok quota =>
          if StorageAvailableBytes quota <? int64 (len fileData) then
            exists msg,
              r1 = Err (StorageLimitExceededError msg (int64 (len fileData))
                          (StorageAvailableBytes quota))
          else r1 = Ok tt
      | Err e => r1 = Err e
      | Panic => r1 = Panic
      end.
Proof.
  unfold quota_precheck.
  destruct (match checkQuota with Some b => b | None => autoCheckQuota s end).
  2:{ intros [= <- <-]. exists []. split; [apply has_suffix_refl|]. intros ? ? ? []. }
  unfold bind at 1, GetQuota, bind at 1.
  destruct (doRequest s "GET" "/api/v1/storage/quota" None w) as [r0 w0] eqn:Hreq.
  destruct (doRequest_round_trip _ _ _ _ _ _ _ Hreq)
    as [[-> Hr0]|(req & rt & Hbuilt & Hs & ->)].
  - destruct r0 as [b|e|]; [exfalso; eapply Hr0; reflexivity|..];
      intros [= <- <-]; exists []; (split; [apply has_suffix_refl|]); intros ? ? ? [].
  - assert (Hq : is_quota_request s req = true).
    { destruct (request_of_target _ _ _ _ _ Hbuilt) as [Hm Hu].
      unfold is_quota_request. rewrite Hm, Hu, !String.eqb_refl. reflexivity. }
    assert (Hone : forall req' status b,
              In (req', Reply (mkResponse status (Ok b))) [(req, rt)] ->
              non_2xx status = false ->
              req' = req /\ dispatch_result transport_error parseStorageError rt = Ok b).
    { intros req' status b [[= -> ->]|[]] Hst.
      split; [reflexivity|]. apply dispatch_result_accepted, Hst. }
    destruct (dispatch_result _ _ rt) as [b0|e|] eqn:Hout.
    + unfold parse_response, lift.
      destruct (wrap _ (json_Unmarshal b0)) as [quota|e|] eqn:Hparse.
      * destruct (StorageAvailableBytes quota <? int64 (len fileData)) eqn:Hlt.
        -- destruct (formatBytes_total (int64 (len fileData))) as [need Hneed].
           { apply int64_in_range. }
           destruct (formatBytes_total (StorageAvailableBytes quota)) as [avail Havail].
           { apply StorageAvailableBytes_int64. }
           unfold limit_message. rewrite Hneed, Havail.
           intros [= <- <-]. exists [(req, rt)]. split; [exact Hs|].
           intros req' status b Hin Hst. destruct (Hone _ _ _ Hin Hst) as [-> [= <-]].
           split; [exact Hq|]. rewrite Hparse, Hlt. eexists. reflexivity.
        -- intros [= <- <-]. exists [(req, rt)]. split; [exact Hs|].
           intros req' status b Hin Hst. destruct (Hone _ _ _ Hin Hst) as [-> [= <-]].
           split; [exact Hq|]. rewrite Hparse, Hlt. reflexivity.
      * intros [= <- <-]. exists [(req, rt)]. split; [exact Hs|].
        intros req' status b Hin Hst. destruct (Hone _ _ _ Hin Hst) as [-> [= <-]].
        split; [exact Hq|]. rewrite Hparse. reflexivity.
      * intros [= <- <-]. exists [(req, rt)]. split; [exact Hs|].
        intros req' status b Hin Hst. destruct (Hone _ _ _ Hin Hst) as [-> [= <-]].
        split; [exact Hq|]. rewrite Hparse. reflexivity.
    + intros [= <- <-]. exists [(req, rt)]. split; [exact Hs|].
      intros req' status b Hin Hst. destruct (Hone _ _ _ Hin Hst) as [_ [=]].
    + intros [= <- <-]. exists [(req, rt)]. split; [exact Hs|].
      intros req' status b Hin Hst. destruct (Hone _ _ _ Hin Hst) as [_ [=]].
Qed.

(** [Upload]: a 2xx response to the quota request is deserialized into the
    quota, one to the upload request into the result. *)
Lemma Upload_accepting s fileData key contentType checkQuota w r w' :
  Upload s fileData key contentType checkQuota w = (r, w') ->
  exists delta, has_suffix w w' delta /\
    forall req status b,
      In (req, Reply (mkResponse status (Ok b))) delta -> non_2xx status = false ->
      if is_quota_request s req then quota_decoded fileData b (SchemaCalls.forget r)
      else SchemaCalls.forget r
           = decode_as (T := FileUploadResult) "failed to parse response: %w"
               (fun _ => tt) b.
Proof.
  rewrite Upload_unfold.
  destruct (quota_precheck s fileData checkQuota w) as [r1 w1] eqn:Hcheck.
  destruct (quota_precheck_accepting _ _ _ _ _ _ Hcheck) as (d1 & Hs1 & Hq1).
  assert (Hquota : forall req status b,
            In (req, Reply (mkResponse status (Ok b))) d1 -> non_2xx status = false ->
            (forall e, r1 = Err e -> r = Err e) -> (r1 = Panic -> r = Panic) ->
            if is_quota_request s req then quota_decoded fileData b (SchemaCalls.forget r)
            else SchemaCalls.forget r
                 = decode_as (T := FileUploadResult) "failed to parse response: %w"
                     (fun _ => tt) b).
  { intros req status b Hin Hst Herr Hpanic.
    destruct (Hq1 _ _ _ Hin Hst) as [-> Hdec]. unfold quota_decoded.
    destruct (wrap _ (json_Unmarshal b)) as [quota|e|].
    - intros Hlt. destruct (Z.ltb_spec (StorageAvailableBytes quota) (int64 (len fileData)));
        [|lia].
      destruct Hdec as [msg Hr1]. exists msg. rewrite (Herr _ Hr1). reflexivity.
    - rewrite (Herr _ Hdec). reflexivity.
    - rewrite (Hpanic Hdec). reflexivity. }
  destruct r1 as [[]|e1|].
  - destruct (http_NewRequest_err _ _) as [e|].
    + intros [= <- <-]. exists d1. split; [exact Hs1|].
      intros req status b Hin Hst. apply (Hquota _ _ _ Hin Hst); discriminate.
    + intros [= <- <-]. eexists.
      split; [eapply has_suffix_trans; [exact Hs1|apply has_suffix_Do]|].
      intros req status b Hin Hst. apply in_app_or in Hin as [Hin|[Hin|[]]].
      * apply (Hquota _ _ _ Hin Hst); discriminate.
      * injection Hin as <- Hrt.
        replace (is_quota_request s (upload_request_of s fileData key contentType))
          with false by reflexivity.
        unfold upload_outcome. rewrite Hrt, (dispatch_result_accepted _ _ _ _ Hst).
        unfold decode_as. destruct (wrap _ (json_Unmarshal b)); reflexivity.
  - intros [= <- <-]. exists d1. split; [exact Hs1|].
    intros req status b Hin Hst. apply (Hquota _ _ _ Hin Hst); [intros e [= ->]|]; 
      [reflexivity|discriminate].
  - intros [= <- <-]. exists d1. split; [exact Hs1|].
    intros req status b Hin Hst. apply (Hquota _ _ _ Hin Hst); [discriminate|reflexivity].
Qed.

Lemma erase_run {A} (c : Comp World A) w :
  erase c w = (SchemaCalls.forget (c w).1, (c w).2).
Proof. unfold erase, bind, ret. destruct (c w) as [[a|e|] w']; reflexivity. Qed.

(** The calls that make one request hand the body of a 2xx response to the
    decoder of their result. *)
Lemma single_request_accepting c s :
  payload_of c = None ->
  (forall filePath key contentType checkQuota,
     c <> call_UploadFromPath filePath key contentType checkQuota) ->
  traced (accepting (storage_decoded c)) (run c s).
Proof.
  intros Hpayload Hpath. destruct c; cbn [run]; try discriminate.
  - unfold GetQuota. accept_one.
  - unfold Download. accept_one.
  - unfold ListFiles. accept_one.
  - unfold DeleteFile.
    eapply accepting_ext; [|eapply accepting_then; [apply doRequest_accepting|apply local_ret]].
    intros b. reflexivity.
  - unfold DeleteFiles.
    eapply accepting_ext; [|eapply accepting_then; [apply doRequest_accepting|apply local_ret]].
    intros b. reflexivity.
  - unfold GetFileInfo. accept_one.
  - apply FileExists_accepting.
  - unfold GetFileUrl. accept_one.
  - unfold GetPresignedUrl. accept_one.
  - unfold GetStorageInfo. accept_one.
  - unfold ProvisionStorage. accept_one.
  - unfold GetAvailableRegions. accept_one.
  - exfalso. eapply Hpath. reflexivity.
Qed.

(** Every 2xx response in the trace of a storage call is deserialized. *)
Lemma storage_run_accepting c s : traced (storage_accepting c s) (run c s).
Proof.
  intros w r w' Hrun.
  assert (Hupload : forall fileData key contentType checkQuota,
            payload_of c = Some fileData ->
            Upload s fileData key contentType checkQuota w
              = ((Upload s fileData key contentType checkQuota w).1, w') ->
            r = SchemaCalls.forget (Upload s fileData key contentType checkQuota w).1 ->
            storage_decoded c
              = decode_as (T := FileUploadResult) "failed to parse response: %w"
                  (fun _ => tt) ->
            exists delta, has_suffix w w' delta /\ storage_accepting c s delta r).
  { intros fileData key contentType checkQuota Hpayload Hup -> Hshape.
    destruct (Upload_accepting _ _ _ _ _ _ _ _ Hup) as (delta & Hs & Hq).
    exists delta. split; [exact Hs|].
    intros req status b Hin Hst. rewrite Hpayload, Hshape. apply (Hq _ _ _ Hin Hst). }
  destruct c;
    try (match type of Hrun with
         | run ?c0 _ _ = _ =>
             destruct (single_request_accepting c0 s eq_refl
                         ltac:(intros; discriminate) _ _ _ Hrun) as (delta & Hs & Hq)
         end;
         exists delta; split; [exact Hs|];
         intros req status b Hin Hst; cbn [payload_of]; eapply Hq; eassumption).
  - cbn [run] in Hrun. rewrite erase_run in Hrun. injection Hrun as <- <-.
    eapply Hupload; [reflexivity|apply surjective_pairing|reflexivity|reflexivity].
  - cbn [run] in Hrun. unfold UploadFromPath in Hrun.
    rewrite erase_run in Hrun. unfold bind, lift in Hrun.
    destruct (os_ReadFile filePath) as [fileData|e|] eqn:Hread; cbn [wrap fst snd] in Hrun.
    + injection Hrun as <- <-.
      eapply Hupload; [cbn [payload_of]; rewrite Hread; reflexivity
                      |apply surjective_pairing|reflexivity|reflexivity].
    + injection Hrun as <- <-. exists []. split; [apply has_suffix_refl|]. intros ? ? ? [].
    + injection Hrun as <- <-. exists []. split; [apply has_suffix_refl|]. intros ? ? ? [].
Qed.

End Facts.
End StorageAccepts.

Module AuthAccepts.
Import Auth AuthCalls AuthFacts Shapes.

Section Facts.
Context `{Runtime} `{ErrorMapper}.
Context `{!Unmarshal authResponse} `{!Unmarshal loginResponse} `{!Unmarshal AuthUser}
        `{!Unmarshal OAuthAuthorizeResponse} `{!Unmarshal (gmap string JSON)}.

Lemma request_accepting method path body headers :
  traced_on snd (accepting Ok) (request method path body headers).
Proof.
  intros [c w] r [c' w'] Heq. rewrite request_unfold in Heq. cbn [snd].
  destruct (request_of c method path body headers) as [req|e|].
  - injection Heq as <- <- <-. eexists. split; [apply has_suffix_Do|].
    intros req' status b [Hin|[]] Hst. injection Hin as _ ->.
    apply dispatch_result_accepted, Hst.
  - injection Heq as <- <- <-. exists []. split; [apply has_suffix_refl|]. intros ? ? ? [].
  - injection Heq as <- <- <-. exists []. split; [apply has_suffix_refl|]. intros ? ? ? [].
Qed.

(** Storing the session makes no round trip. *)
Lemma local_persist {T} (mk : T -> AuthSession) (res : T -> AuthResult) :
  local_step snd (fun resp => do _ <- persistSession (mk resp); ret (res resp))
    (fun resp => Ok (res resp)).
Proof. intros resp [c w]. eexists. split; reflexivity. Qed.

(** A call that fails before its request accepts nothing. *)
Lemma accepting_fail {A B} (f : bytes -> result B) (e : error) (K : A -> Comp St B) :
  traced_on snd (accepting f) (bind (fail e) K).
Proof.
  intros s r s' [= <- <-]. exists []. split; [apply has_suffix_refl|]. intros ? ? ? [].
Qed.

Ltac accept_one :=
  eapply accepting_ext;
    [|eapply accepting_then;
        [eapply accepting_then; [apply request_accepting|];
         first [ apply local_lift
               | eapply local_bind; [apply local_lift|apply local_persist]
               | eapply local_bind; [apply local_lift|apply local_ret] ]
        |apply local_ret]];
  intros b; unfold auth_decoded, decode_as, and_then; cbn beta zeta;
  try destruct (wrap _ (json_Unmarshal b)); reflexivity.

(** Every 2xx response in the trace of an auth call is deserialized into
    the result of the call. *)
Lemma auth_run_accepting (c : call) : traced_on snd (accepting (auth_decoded c)) (run c).
Proof.
  destruct c; cbn [run auth_decoded]; unfold with_session, no_session.
  - unfold SignUp. accept_one.
  - unfold SignIn. accept_one.
  - intros [cl w] r [cl' w'] Heq. unfold bind at 1 in Heq.
    destruct (GetUser tokenOverride (cl, w)) as [r1 [cl1 w1]] eqn:Hget.
    unfold GetUser in Hget.
    destruct (String.eqb _ "").
    + injection Hget as <- <- <-. injection Heq as <- <- <-.
      exists []. split; [apply has_suffix_refl|]. intros ? ? ? [].
    + assert (Hrun : (do user <- (do body <- request "GET" "/me" None
                                      (<["Authorization" := "Bearer " +:+
                                           match tokenOverride with
                                           | t :: _ =>
                                               if negb (String.eqb t "") then t
                                               else accessToken cl
                                           | [] => accessToken cl
                                           end]> ∅);
                                   lift (wrap "failed to parse user response: %w"
                                           (json_Unmarshal (T := AuthUser) body)));
                      ret (@None AuthSession)) (cl, w) = (r, (cl', w'))).
      { unfold bind at 1. rewrite Hget. exact Heq. }
      revert Hrun. generalize (cl, w) r (cl', w'). clear.
      change (traced_on snd
                (accepting (decode_as (T := AuthUser) "failed to parse user response: %w"
                              (fun _ => @None AuthSession)))
                (do user <- (do body <- request "GET" "/me" None
                                      (<["Authorization" := "Bearer " +:+
                                           match tokenOverride with
                                           | t :: _ =>
                                               if negb (String.eqb t "") then t
                                               else accessToken cl
                                           | [] => accessToken cl
                                           end]> ∅);
                              lift (wrap "failed to parse user response: %w"
                                      (json_Unmarshal (T := AuthUser) body)));
                 ret (@None AuthSession))).
      accept_one.
  - unfold GetOAuthAuthorizationURL. accept_one.
  - unfold ExchangeOAuthCallback. accept_one.
  - unfold ForgotPassword. accept_one.
  - unfold ResetPassword. accept_one.
  - unfold SendOTP. destruct (bad_otp_purpose purpose); [apply accepting_fail|accept_one].
  - unfold VerifyOTP. destruct (bad_otp_purpose purpose); [apply accepting_fail|].
    destruct (_ && _); [apply accepting_fail|].
    unfold auth_decoded. destruct (String.eqb purpose "password_reset"); accept_one.
  - unfold SendMagicLink.
    destruct (bad_magic_link_purpose purpose); [apply accepting_fail|accept_one].
  - unfold VerifyEmail. accept_one.
  - unfold ResendVerification. accept_one.
Qed.

End Facts.
End AuthAccepts.

(* ================================================================= *)
(** ** Transport failures and status codes, client by client *)

Section AllClients.
Context `{Runtime} `{Models} `{ErrorMapper}.
Context `{!Unmarshal StorageQuota} `{!Unmarshal FileUploadResult}
        `{!Unmarshal StorageFile} `{!Unmarshal Storage.url_result}
        `{!Unmarshal Storage.files_result} `{!Unmarshal (gmap string JSON)}
        `{!Unmarshal (list (gmap string JSON))}.
Context `{!Unmarshal Auth.authResponse} `{!Unmarshal Auth.loginResponse}
        `{!Unmarshal Auth.AuthUser} `{!Unmarshal Auth.OAuthAuthorizeResponse}.
Context `{!Decode (gmap string JSON)} `{!Decode Schema.SchemaResponse}.

(** C3, as amended.  A round trip that ends in a transport failure makes
    every call of the auth client return a [NetworkError] holding the
    transport error, every call of the storage client a [StorageError]
    whose [Err] is the transport error, and every call of the two schema
    clients a [fmt.Errorf] value wrapping it. *)
Theorem transport_failure_errors :
  (forall c cl w r cl' w',
     AuthCalls.run c (cl, w) = (r, (cl', w')) ->
     exists delta, has_suffix w w' delta /\
       forall req err, In (req, TransportError err) delta -> r = Err (NetworkError err)) /\
  (forall c s w r w',
     StorageCalls.run c s w = (r, w') ->
     exists delta, has_suffix w w' delta /\
       forall req err, In (req, TransportError err) delta ->
         r = Err (StorageError "" (Some err))) /\
  (forall c client w r w',
     SchemaCalls.run c client w = (r, w') ->
     exists delta, has_suffix w w' delta /\
       forall req err, In (req, TransportError err) delta ->
         r = Err (wrapError "failed to execute request: %w" err)) /\
  (forall c client w r w',
     SchemaCalls.run_pkg c client w = (r, w') ->
     exists delta, has_suffix w w' delta /\
       forall req err, In (req, TransportError err) delta ->
         r = Err (wrapError "request failed: %w" err)).
Proof.
  split; [|split; [|split]].
  - intros c cl w r cl' w' Hrun.
    destruct (AuthFacts.auth_run_traced c _ _ _ Hrun) as (delta & Hs & Hq).
    exists delta. split; [exact Hs|]. intros req err Hin.
    apply (Hq _ _ _ Hin). reflexivity.
  - intros c s w r w' Hrun.
    destruct (StorageFacts.storage_run_traced c s _ _ _ Hrun) as (delta & Hs & Hq).
    exists delta. split; [exact Hs|]. intros req err Hin.
    destruct (Hq _ _ (StorageCalls.transport_error err) Hin eq_refl)
      as [Hr|(_ & Hnf & _)]; [exact Hr|discriminate].
  - intros c client w r w' Hrun.
    destruct (SchemaFacts.run_round_trip _ _ _ _ _ Hrun) as (delta & Hs & Hq).
    exists delta. split; [exact Hs|]. intros req err Hin. apply (Hq _ _ Hin).
  - intros c client w r w' Hrun.
    destruct (SchemaFacts.run_pkg_round_trip _ _ _ _ _ Hrun) as (delta & Hs & Hq).
    exists delta. split; [exact Hs|]. intros req err Hin. apply (Hq _ _ Hin).
Qed.

Context {TX : Taxonomy}.

Lemma NotFound_is_404 status msg : classified status (NotFoundError msg) = true -> status = 404.
Proof.
  unfold classified, status_kind. cbn [kind_of].
  destruct (Z.eqb_spec status 401); [discriminate|].
  destruct (Z.eqb_spec status 403); [discriminate|].
  destruct (Z.eqb_spec status 404); [intros _; assumption|].
  destruct (status =? 429); [discriminate|].
  destruct (_ && _); [discriminate|].
  destruct (_ && _); discriminate.
Qed.


End AllClients.

(* ================================================================= *)
(** ** Examples on the sample environment *)

Module Examples.
Import Sample.

(** *** Helpers *)

Example formatBytes_rounds_up : formatBytes 1048575 = Some "1024.00 KB".
Proof. vm_compute. reflexivity. Qed.

Example formatBytes_megabytes : formatBytes 123456789 = Some "117.74 MB".
Proof. vm_compute. reflexivity. Qed.

Example formatBytes_largest : formatBytes (2 ^ 63 - 1) = Some "8.00 EB".
Proof. vm_compute. reflexivity. Qed.

Example formatBytes_negative : formatBytes (-5) = Some "-5 B".
Proof. vm_compute. reflexivity. Qed.

Example buildAuthBaseURL_slug :
  Auth.buildAuthBaseURL "demo" "" true = "https://demo.wowsql.com/api/auth".
Proof. vm_compute. reflexivity. Qed.

Example buildAuthBaseURL_full_url :
  Auth.buildAuthBaseURL "http://localhost:8000/api/" "" true
    = "http://localhost:8000/api/auth".
Proof. vm_compute. reflexivity. Qed.

(** *** Storage *)

(** The quota endpoint reports 10 available bytes; the payload has 11. *)
Lemma Upload_quota_precheck_witness :
  let w := answering (reply 200 "10") in
  let data := body_of "hello world" in
  exists msg req rt,
    Storage.Upload storage data "a.txt" "" None w =
      (Err (StorageLimitExceededError msg 11 10), (Storage.GetQuota storage w).2) /\
    has_suffix w (Storage.GetQuota storage w).2 [(req, rt)] /\
    StorageCalls.is_quota_request storage req = true /\
    StorageCalls.is_upload_request storage req = false.
Proof.
  intros w data.
  apply (StorageFacts.Upload_quota_precheck (MD := models)
           storage data "a.txt" "" None w 10).
  - left. split; reflexivity.
  - vm_compute. reflexivity.
  - vm_compute. reflexivity.
  - vm_compute. reflexivity.
Defined.

Lemma FileExists_spec_witness :
  let w := answering (reply 404 "no such file") in
  Storage.FileExists storage "a.txt" w =
    (Ok (false, None), (Storage.GetFileInfo storage "a.txt" w).2).
Proof.
  intros w.
  assert (Hinfo : Storage.GetFileInfo storage "a.txt" w =
                    (Err (NotFoundError "no such file"),
                     (Storage.GetFileInfo storage "a.txt" w).2))
    by (vm_compute; reflexivity).
  exact (proj1 (StorageFacts.FileExists_spec storage "a.txt" w _ _ Hinfo)
           "no such file" eq_refl).
Defined.

(** The override wins over [autoCheckQuota = true], on a network that would
    report no space left. *)
Lemma Upload_check_disabled_witness :
  let w := answering (reply 200 "0") in
  let data := body_of "hello world" in
  exists req rt,
    Storage.Upload storage data "a.txt" "" (Some false) w =
      (StorageCalls.upload_outcome rt, mkWorld (network w) (log w ++ [(req, rt)])) /\
    rt = network w (Storage.httpClient storage) (sent w ++ [req]) /\
    StorageCalls.is_upload_request storage req = true /\
    StorageCalls.is_quota_request storage req = false /\
    ReqBody req =
      Some (multipart_body multipart_randomBoundary
              (StorageCalls.upload_parts data "a.txt" "")).
Proof.
  intros w data.
  apply (proj2 (StorageFacts.Upload_check_disabled storage data "a.txt" "" w)).
  vm_compute. reflexivity.
Defined.

(** A project URL that [http.NewRequest] refuses: the upload stops before
    any round trip. *)
Example Upload_request_not_built :
  let w := answering (reply 200 "0") in
  Storage.Upload (Storage.NewStorageClient "https://demo wowsql.com" "key")
    (body_of "hello world") "a.txt" "" (Some false) w =
    (Err (wrapError "failed to create request: %w"
            (libError "net/url" "invalid character in host name")), w).
Proof. vm_compute. reflexivity. Qed.

(** *** Auth *)

(** C7 fails as stated: a successful VerifyOTP for a password reset leaves
    the stored tokens as they were, although the response carries others. *)
Lemma password_reset_keeps_tokens :
  let w := answering (reply 200 "new-access") in
  exists res w' resp,
    Auth.VerifyOTP "ann@example.com" "123456" "password_reset" (Some "s3cret") (auth, w)
      = (Ok res, (auth, w')) /\
    json_Unmarshal (T := Auth.authResponse) (body_of "new-access") = Ok resp /\
    Auth.accessToken auth = "old-access" /\
    Auth.resp_AccessToken resp = "new-access" /\
    Auth.accessToken auth <> Auth.resp_AccessToken resp.
Proof.
  intros w. eexists _, _, _.
  split; [vm_compute; reflexivity|]. split; [vm_compute; reflexivity|].
  split; [reflexivity|]. split; [reflexivity|]. discriminate.
Qed.

Lemma session_updates_witness :
  let w := answering (reply 200 "new-access") in
  let c := AuthCalls.call_SignIn "ann@example.com" "s3cret" in
  exists session cl' w',
    AuthCalls.run c (auth, w) = (Ok (Some session), (cl', w')) /\
    Auth.accessToken cl' = "new-access" /\
    cl' = Auth.SetSession (Auth.AccessToken session) (Auth.RefreshToken session) auth.
Proof.
  intros w c.
  assert (Hrun : exists session cl' w',
             AuthCalls.run c (auth, w) = (Ok (Some session), (cl', w')) /\
             Auth.accessToken cl' = "new-access").
  { eexists _, _, _. split; vm_compute; reflexivity. }
  destruct Hrun as (session & cl' & w' & Hrun & Htoken).
  exists session, cl', w'. split; [exact Hrun|]. split; [exact Htoken|].
  exact (proj1 (proj2 (proj1 (AuthFacts.session_updates c auth w _ _ _ Hrun)))).
Defined.

Lemma otp_purpose_validated_witness :
  let w := answering (reply 200 "unused") in
  Auth.SendOTP "ann@example.com" "delete_account" (auth, w) =
    (Err (errorString "purpose must be 'login', 'signup', or 'password_reset'" []),
     (auth, w)) /\
  Auth.VerifyOTP "ann@example.com" "123456" "delete_account" None (auth, w) =
    (Err (errorString "purpose must be 'login', 'signup', or 'password_reset'" []),
     (auth, w)).
Proof.
  intros w.
  apply (proj1 (AuthFacts.otp_purpose_validated "ann@example.com" "123456"
                  "delete_account" None auth w)); discriminate.
Defined.

(** *** Schema *)

(** A run from an empty log that ends with one round trip made just that
    round trip. *)
Lemma sole_round_trip (w w' : World) delta entry :
  log w = [] -> log w' = [entry] -> has_suffix w w' delta -> In entry delta.
Proof.
  intros Hw Hw' [_ Hlog]. rewrite Hw, Hw' in Hlog. cbn in Hlog.
  rewrite <- Hlog. left. reflexivity.
Qed.

Lemma forbidden_is_plain_error_witness :
  let w := answering (reply 403 "forbidden") in
  let c := SchemaCalls.call_ExecuteSQL "DROP TABLE users" in
  exists w',
    SchemaCalls.run c schema w =
      (Err (errorString "schema operations require a SERVICE ROLE key" []), w').
Proof.
  intros w c.
  assert (Hrun : exists r w' req,
             SchemaCalls.run c schema w = (r, w') /\
             log w' = [(req, Reply (mkResponse 403 (Ok (body_of "forbidden"))))]).
  { eexists _, _, _. split; vm_compute; reflexivity. }
  destruct Hrun as (r & w' & req & Hrun & Hlog).
  destruct (proj1 SchemaFacts.forbidden_is_plain_error c schema w r w' Hrun)
    as (delta & Hs & Hq).
  exists w'. rewrite Hrun. f_equal.
  apply (Hq req (mkResponse 403 (Ok (body_of "forbidden")))); [|reflexivity].
  exact (sole_round_trip w w' delta _ eq_refl Hlog Hs).
Defined.

(** *** Transport failures and status codes *)

(** C3 fails as stated: the storage client answers a transport failure with
    a [StorageError], not a [NetworkError]. *)
Lemma storage_transport_failure_is_StorageError :
  let w := answering (TransportError connection_refused) in
  exists req,
    Storage.GetQuota storage w =
      (Err (StorageError "" (Some connection_refused)),
       mkWorld (network w) [(req, TransportError connection_refused)]) /\
    is_NetworkError (StorageError "" (Some connection_refused)) = false.
Proof.
  intros w. eexists. split; [vm_compute; reflexivity|reflexivity].
Qed.

Lemma transport_failure_errors_witness :
  let w := answering (TransportError connection_refused) in
  let c := AuthCalls.call_SignIn "ann@example.com" "s3cret" in
  exists s', AuthCalls.run c (auth, w) = (Err (NetworkError connection_refused), s').
Proof.
  intros w c.
  assert (Hrun : exists r cl' w' req,
             AuthCalls.run c (auth, w) = (r, (cl', w')) /\
             log w' = [(req, TransportError connection_refused)]).
  { eexists _, _, _, _. split; vm_compute; reflexivity. }
  destruct Hrun as (r & cl' & w' & req & Hrun & Hlog).
  destruct (proj1 transport_failure_errors c auth w r cl' w' Hrun) as (delta & Hs & Hq).
  exists (cl', w'). rewrite Hrun. f_equal.
  apply (Hq req connection_refused).
  exact (sole_round_trip w w' delta _ eq_refl Hlog Hs).
Defined.


(** The sample classifiers classify as the taxonomy says. *)
Lemma sample_taxonomy : Taxonomy.
Proof.
  split; intros status b; cbn; unfold classify_status, classified, status_kind;
    (destruct (status =? 401); [reflexivity|]);
    (destruct (status =? 403); [reflexivity|]);
    (destruct (status =? 404); [reflexivity|]);
    destruct (status =? 429); reflexivity.
Qed.


(** *** Query builder *)

(** An empty result set: [first()] returns nil and no error. *)
Lemma first_is_execute_limit_1_witness :
  let w := answering (reply 200 "") in
  exists w', QueryBuilder.first serialize database users w = (Ok None, w').
Proof.
  intros w.
  assert (Hexec : exists res w',
             QueryBuilder.execute serialize database (QueryBuilder.with_limit 1 users) w
               = (Ok res, w') /\ QueryBuilder.data res = []).
  { eexists _, _. split; vm_compute; reflexivity. }
  destruct Hexec as (res & w' & Hexec & Hempty).
  exists w'.
  exact (proj1 (proj2 (proj2 (QueryFacts.first_is_execute_limit_1 serialize database users
                                w _ _ Hexec))) Hempty).
Defined.

End Examples.

(* ================================================================= *)
(** ** Further properties of the clients *)

(** *** Strings *)

Lemma prefix_nil s : String.prefix EmptyString s = true.
Proof. destruct s; reflexivity. Qed.

Lemma prefix_cons a p b s :
  String.prefix (String a p) (String b s) = Ascii.eqb a b && String.prefix p s.
Proof.
  cbn [String.prefix]. destruct (ascii_dec a b) as [->|Hne].
  - rewrite Ascii.eqb_refl. reflexivity.
  - apply Ascii.eqb_neq in Hne. rewrite Hne. reflexivity.
Qed.

Lemma prefix_append p x : String.prefix p (p +:+ x) = true.
Proof.
  induction p as [|a p IH]; [apply prefix_nil|].
  change (String a p +:+ x) with (String a (p +:+ x)).
  rewrite prefix_cons, Ascii.eqb_refl. exact IH.
Qed.

Lemma prefix_trans a b c :
  String.prefix a b = true -> String.prefix b c = true -> String.prefix a c = true.
Proof.
  revert b c. induction a as [|x a IH]; intros b c; [intros; apply prefix_nil|].
  destruct b as [|y b]; [discriminate|]. destruct c as [|z c]; [discriminate|].
  rewrite !prefix_cons. intros [Hxy Hab]%andb_true_iff [Hyz Hbc]%andb_true_iff.
  apply Ascii.eqb_eq in Hxy as ->. rewrite Hyz. cbn. eapply IH; eassumption.
Qed.

Lemma prefix_substring n s : String.prefix (substring 0 n s) s = true.
Proof.
  revert n. induction s as [|a s IH]; intros [|n]; try reflexivity.
  cbn [substring]. rewrite prefix_cons, Ascii.eqb_refl. apply IH.
Qed.

(** Whether the character [c] occurs in a string. *)
Lemma contains_char_cons c a s :
  strings_Contains (String a s) (String c EmptyString)
    = Ascii.eqb c a || strings_Contains s (String c EmptyString).
Proof.
  cbn [strings_Contains]. rewrite prefix_cons, prefix_nil, andb_true_r. reflexivity.
Qed.

Lemma contains_char_nil c : strings_Contains EmptyString (String c EmptyString) = false.
Proof. reflexivity. Qed.

(** The first piece of a split holds no separator and starts the string. *)
Lemma strings_Split_head s sep :
  exists h t,
    strings_Split s sep = h :: t /\
    strings_Contains h (String sep EmptyString) = false /\
    String.prefix h s = true.
Proof.
  induction s as [|a s (h & t & Hsplit & Hno & Hpre)].
  - exists EmptyString, []. repeat split.
  - cbn [strings_Split]. destruct (Ascii.eqb a sep) eqn:Heq.
    + exists EmptyString, (strings_Split s sep). repeat split.
    + rewrite Hsplit. exists (String a h), t. split; [reflexivity|]. split.
      * rewrite contains_char_cons, Hno, Ascii.eqb_sym, Heq. reflexivity.
      * rewrite prefix_cons, Ascii.eqb_refl. exact Hpre.
Qed.

Lemma first_label_spec s :
  exists l, Storage.first_label s = Some l /\
    strings_Contains l "." = false /\ String.prefix l s = true.
Proof.
  unfold Storage.first_label.
  destruct (strings_Split_head s ".") as (h & t & -> & Hno & Hpre).
  exists h. repeat split; assumption.
Qed.

Lemma contains_char_prefix c l s :
  String.prefix l s = true ->
  strings_Contains s (String c EmptyString) = false ->
  strings_Contains l (String c EmptyString) = false.
Proof.
  revert s. induction l as [|a l IH]; intros s; [reflexivity|].
  destruct s as [|b s]; [discriminate|]. rewrite prefix_cons.
  intros [Hab Hpre]%andb_true_iff. apply Ascii.eqb_eq in Hab as ->.
  rewrite !contains_char_cons. intros Hs.
  apply orb_false_elim in Hs as [-> Hs]. cbn. eapply IH; eassumption.
Qed.

(** Up to the first occurrence of [c] there is no [c]. *)
Lemma index_char_spec c s :
  match String.index 0 (String c EmptyString) s with
  | Some i => strings_Contains (substring 0 i s) (String c EmptyString) = false
  | None => strings_Contains s (String c EmptyString) = false
  end.
Proof.
  induction s as [|b s IH]; [reflexivity|].
  cbn [String.index]. rewrite prefix_cons, prefix_nil, andb_true_r.
  destruct (Ascii.eqb c b) eqn:Hcb; [reflexivity|].
  destruct (String.index 0 (String c EmptyString) s) as [i|].
  - cbn [substring]. rewrite contains_char_cons, IH, Hcb. reflexivity.
  - rewrite contains_char_cons, IH, Hcb. reflexivity.
Qed.

(** *** The project slug *)

Module SlugFacts.
Import Storage Wire.

Lemma slug_of_host_spec host :
  exists l, slug_of_host host = Some l /\
    strings_Contains l "." = false /\ strings_Contains l ":" = false /\
    String.prefix l host = true.
Proof.
  unfold slug_of_host, strings_Index.
  pose proof (index_char_spec ":" host) as Hidx.
  destruct (String.index 0 ":" host) as [i|].
  - replace (negb (Z.of_nat i =? -1)) with true
      by (symmetry; apply negb_true_iff, Z.eqb_neq; lia).
    rewrite Nat2Z.id.
    destruct (first_label_spec (substring 0 i host)) as (l & Hl & Hdot & Hpre).
    exists l. split; [exact Hl|]. split; [exact Hdot|]. split.
    + eapply contains_char_prefix; eassumption.
    + eapply prefix_trans; [exact Hpre|apply prefix_substring].
  - cbn [negb Z.eqb]. 
    destruct (first_label_spec host) as (l & Hl & Hdot & Hpre).
    exists l. split; [exact Hl|]. split; [exact Hdot|]. split; [|exact Hpre].
    eapply contains_char_prefix; eassumption.
Qed.

End SlugFacts.

Module SlugTheorems.
Import Storage Wire SlugFacts.

Section Facts.
Context `{RT : Runtime}.


(** X3.  For a project URL with a scheme that [url.Parse] accepts, the slug
    is read off the host alone: it is a prefix of the host, and it holds
    neither a port separator nor a dot, whatever follows the host in the
    URL. *)
Theorem slug_of_url_host (s : StorageClient) (host : string) :
  let u := strings_TrimSpace (projectURL s) in
  strings_HasPrefix u "http://" || strings_HasPrefix u "https://" = true ->
  url_Parse_Host u = Some host ->
  slug_of_host host = Some (extractProjectSlug s) /\
  strings_HasPrefix host (extractProjectSlug s) = true /\
  strings_Contains (extractProjectSlug s) ":" = false /\
  strings_Contains (extractProjectSlug s) "." = false.
Proof.
  intros u Hscheme Hparse. unfold extractProjectSlug. fold u.
  rewrite Hscheme, Hparse.
  destruct (slug_of_host_spec host) as (l & Hl & Hdot & Hcolon & Hpre).
  pose proof Hl as Hl'. unfold slug_of_host in Hl'. cbv zeta. rewrite Hl'.
  repeat split; assumption.
Qed.

End Facts.
End SlugTheorems.

(** *** Requests on the wire *)

Lemma within_nil P n : within P n [].
Proof. split; [constructor|cbn; lia]. Qed.

Lemma within_one (P : Request -> Prop) req rt : P req -> within P 1 [(req, rt)].
Proof. intros Hp. split; [repeat constructor; exact Hp|cbn; lia]. Qed.

Lemma within_app P n m d1 d2 :
  within P n d1 -> within P m d2 -> within P (n + m) (d1 ++ d2).
Proof.
  intros [Hf1 Hl1] [Hf2 Hl2]. split.
  - apply Forall_app. split; assumption.
  - rewrite length_app. lia.
Qed.

Lemma within_mono (P Q : Request -> Prop) n m d :
  (forall req, P req -> Q req) -> (n <= m)%nat -> within P n d -> within Q m d.
Proof.
  intros HPQ Hle [Hf Hl]. split; [|lia].
  eapply Forall_impl; [exact Hf|]. intros [req rt]. apply HPQ.
Qed.

Section Sends.
Context {S : Type} (world_of : S -> World) (P : Request -> Prop).

Lemma sends_lift {A} (r : result A) : sends world_of P 0 (lift r).
Proof.
  intros s r' s' [= <- <-]. exists []. split; [apply has_suffix_refl|apply within_nil].
Qed.

Lemma sends_ret {A} (a : A) : sends world_of P 0 (ret a).
Proof. apply (sends_lift (Ok a)). Qed.

Lemma sends_bind {A B} n m (c : Comp S A) (k : A -> Comp S B) :
  sends world_of P n c -> (forall a, sends world_of P m (k a)) ->
  sends world_of P (n + m) (bind c k).
Proof.
  intros Hc Hk s r s' Heq. unfold bind in Heq.
  destruct (c s) as [r1 s1] eqn:Hcs.
  destruct (Hc _ _ _ Hcs) as (d1 & Hs1 & Hw1).
  destruct r1 as [a|e|].
  - destruct (Hk a _ _ _ Heq) as (d2 & Hs2 & Hw2).
    exists (d1 ++ d2). split; [eapply has_suffix_trans; eassumption|].
    apply within_app; assumption.
  - injection Heq as <- <-. exists d1. split; [assumption|].
    eapply within_mono; [| |exact Hw1]; [auto|lia].
  - injection Heq as <- <-. exists d1. split; [assumption|].
    eapply within_mono; [| |exact Hw1]; [auto|lia].
Qed.

Lemma sends_mono {A} n m (c : Comp S A) :
  (n <= m)%nat -> sends world_of P n c -> sends world_of P m c.
Proof.
  intros Hle Hc s r s' Heq. destruct (Hc _ _ _ Heq) as (d & Hs & Hw).
  exists d. split; [assumption|]. eapply within_mono; [| |exact Hw]; [auto|lia].
Qed.

(** A call followed by steps that stay off the network. *)
Lemma sends_then {A B} n (c : Comp S A) (k : A -> Comp S B) :
  sends world_of P n c -> (forall a, sends world_of P 0 (k a)) ->
  sends world_of P n (bind c k).
Proof.
  intros Hc Hk. apply (sends_mono (n + 0)); [lia|]. apply sends_bind; assumption.
Qed.

End Sends.

Module StorageWire.
Import Storage StorageCalls StorageFacts Wire.

Section Facts.
Context `{RT : Runtime} `{MD : Models} `{EM : ErrorMapper}.
Context `{!Unmarshal StorageQuota} `{!Unmarshal FileUploadResult}
        `{!Unmarshal StorageFile} `{!Unmarshal url_result}
        `{!Unmarshal files_result} `{!Unmarshal (gmap string JSON)}
        `{!Unmarshal (list (gmap string JSON))}.

(** The request of [doRequest] goes to [path] below the project URL and
    carries the API key. *)
Lemma request_of_wire s method path body req :
  request_of s method path body = Ok req ->
  Method req = method /\ URL req = projectURL s +:+ path /\
  Header req !! "Authorization" = Some ("Bearer " +:+ apiKey s).
Proof.
  intros Hreq. destruct (request_of_target _ _ _ _ _ Hreq) as [Hm Hu].
  split; [exact Hm|]. split; [exact Hu|].
  revert Hreq. unfold request_of.
  destruct body as [b|].
  - destruct (wrap _ (json_Marshal b)); try discriminate.
    destruct (wrap _ (http_NewRequest _ _ _)); try discriminate.
    intros [= <-]. apply lookup_insert_eq.
  - destruct (wrap _ (http_NewRequest _ _ _)); try discriminate.
    intros [= <-]. apply lookup_insert_eq.
Qed.

Lemma doRequest_sends (P : Request -> Prop) s method path body :
  (forall req, request_of s method path body = Ok req -> P req) ->
  sends id P 1 (doRequest s method path body).
Proof.
  intros HP w r w' Heq. rewrite storage_doRequest_unfold in Heq.
  destruct (request_of s method path body) as [req|e|] eqn:Hreq.
  - injection Heq as <- <-. eexists. split; [apply has_suffix_Do|].
    apply within_one, HP. reflexivity.
  - injection Heq as <- <-. exists []. split; [apply has_suffix_refl|apply within_nil].
  - injection Heq as <- <-. exists []. split; [apply has_suffix_refl|apply within_nil].
Qed.

Lemma storage_request_of s method path body req :
  request_of s method path body = Ok req -> storage_request s req.
Proof.
  intros Hreq. destruct (request_of_wire _ _ _ _ _ Hreq) as (_ & Hu & Ha).
  split; [|exact Ha]. unfold strings_HasPrefix. rewrite Hu. apply prefix_append.
Qed.

Lemma parse_response_sends {T} `{!Unmarshal T} P (resp : bytes) :
  sends id P 0 (parse_response (T := T) resp).
Proof. apply sends_lift. Qed.

Lemma GetQuota_sends (P : Request -> Prop) s :
  (forall req, request_of s "GET" "/api/v1/storage/quota" None = Ok req -> P req) ->
  sends id P 1 (GetQuota s).
Proof.
  intros HP. unfold GetQuota. apply sends_then; [apply doRequest_sends, HP|].
  intros; apply parse_response_sends.
Qed.

Lemma quota_precheck_sends (P : Request -> Prop) s fileData checkQuota :
  (forall req, request_of s "GET" "/api/v1/storage/quota" None = Ok req -> P req) ->
  sends id P 1 (quota_precheck s fileData checkQuota).
Proof.
  intros HP. unfold quota_precheck.
  destruct (match checkQuota with Some b => b | None => autoCheckQuota s end);
    [|apply (sends_mono _ _ 0); [lia|apply sends_ret]].
  apply sends_then; [apply GetQuota_sends, HP|]. intros quota.
  destruct (_ <? _); [|apply sends_ret].
  destruct (limit_message _ _); [apply (sends_lift _ _ (Err _))|apply (sends_lift _ _ Panic)].
Qed.

Lemma upload_request_wire s fileData key contentType :
  storage_request s (upload_request_of s fileData key contentType).
Proof.
  split; [apply prefix_append|]. apply lookup_insert_eq.
Qed.

Lemma Upload_sends s fileData key contentType checkQuota :
  sends id (storage_request s) 2 (Upload s fileData key contentType checkQuota).
Proof.
  intros w r w' Heq. rewrite Upload_unfold in Heq.
  destruct (quota_precheck s fileData checkQuota w) as [r1 w1] eqn:Hcheck.
  destruct (quota_precheck_sends (storage_request s) s fileData checkQuota
              (storage_request_of s _ _ _) _ _ _ Hcheck) as (d1 & Hs1 & Hw1).
  cbn [id] in *.
  assert (Hd1 : within (storage_request s) 2 d1)
    by (eapply within_mono; [| |exact Hw1]; [auto|lia]).
  destruct r1 as [[]|e1|].
  - destruct (http_NewRequest_err _ _) as [e|]; injection Heq as <- <-.
    + exists d1. split; assumption.
    + eexists. split; [eapply has_suffix_trans; [exact Hs1|apply has_suffix_Do]|].
      apply (within_app _ 1 1); [exact Hw1|]. apply within_one, upload_request_wire.
  - injection Heq as <- <-. exists d1. split; assumption.
  - injection Heq as <- <-. exists d1. split; assumption.
Qed.

Ltac one_request :=
  repeat first
    [ apply doRequest_sends, storage_request_of
    | apply parse_response_sends
    | apply sends_ret
    | apply sends_then; [|intros ?] ].

(** X4.  Every request that a call of the storage client hands to the
    transport goes to a URL below the client's project URL and carries the
    client's API key as bearer token; a call makes at most one round trip,
    the two uploads at most two. *)
Theorem storage_requests_carry_key (c : call) (s : StorageClient) w r w' :
  run c s w = (r, w') ->
  exists delta, has_suffix w w' delta /\
    within (storage_request s) (storage_round_trips c) delta.
Proof.
  revert w r w'. change (sends id (storage_request s) (storage_round_trips c) (run c s)).
  destruct c; cbn [run storage_round_trips]; unfold erase.
  - apply sends_then; [|intros; apply sends_ret].
    apply GetQuota_sends, storage_request_of.
  - apply sends_then; [|intros; apply sends_ret]. apply Upload_sends.
  - unfold Download. one_request.
  - unfold ListFiles. one_request.
  - unfold DeleteFile. one_request.
  - unfold DeleteFiles. one_request.
  - unfold GetFileInfo. one_request.
  - unfold FileExists_error, FileExists, GetFileInfo.
    intros w r w'. unfold bind at 1.
    destruct (bind (doRequest s "GET" _ None) _ w) as [r1 w1] eqn:Hinfo.
    assert (Hsend : sends id (storage_request s) 1
                      (do resp <- doRequest s "GET" ("/api/v1/storage/info?key=" +:+ key) None;
                       parse_response (T := StorageFile) resp)) by one_request.
    destruct (Hsend _ _ _ Hinfo) as (delta & Hs & Hw).
    destruct r1 as [file|err|]; [| destruct (is_NotFoundError err) |];
      intros [= <- <-]; exists delta; split; assumption.
  - unfold GetFileUrl. one_request.
  - unfold GetPresignedUrl. one_request.
  - unfold GetStorageInfo. one_request.
  - unfold ProvisionStorage. one_request.
  - unfold GetAvailableRegions. one_request.
  - apply sends_then; [|intros; apply sends_ret]. unfold UploadFromPath.
    apply (sends_bind _ _ 0 2); [apply sends_lift|]. intros. apply Upload_sends.
Qed.

End Facts.
End StorageWire.

Lemma append_assoc (a b c : string) : (a +:+ b) +:+ c = a +:+ b +:+ c.
Proof.
  induction a as [|x a IH]; [reflexivity|].
  change (String x ((a +:+ b) +:+ c) = String x (a +:+ b +:+ c)). f_equal. exact IH.
Qed.

Lemma append_nil_r (a : string) : a +:+ "" = a.
Proof.
  induction a as [|x a IH]; [reflexivity|].
  change (String x (a +:+ "") = String x a). f_equal. exact IH.
Qed.

Module UploadFacts.
Import Storage StorageCalls StorageFacts StorageWire Wire.

Section Facts.
Context `{RT : Runtime} `{MD : Models} `{EM : ErrorMapper}.
Context `{!Unmarshal StorageQuota} `{!Unmarshal FileUploadResult}
        `{!Unmarshal StorageFile} `{!Unmarshal url_result}
        `{!Unmarshal files_result} `{!Unmarshal (gmap string JSON)}
        `{!Unmarshal (list (gmap string JSON))}.

(** X1.  The message of the local quota failure can always be built:
    [formatBytes] indexes "KMGTPE" within bounds on every [int64], so that
    neither the payload length nor the available bytes that the server
    reported, be they negative, make [Upload] panic; a negative number of
    bytes is printed as it is. *)
Theorem limit_message_never_panics (required available : Z) :
  int64_range required -> int64_range available ->
  (exists msg, limit_message required available = Some msg) /\
  (available < 0 -> formatBytes available = Some (fmt_d available +:+ " B")).
Proof.
  unfold int64_range. intros Hr Ha. split.
  - destruct (formatBytes_total required) as [need Hneed]; [lia|].
    destruct (formatBytes_total available) as [avail Havail]; [lia|].
    unfold limit_message. rewrite Hneed, Havail. eexists. reflexivity.
  - intros Hneg. apply formatBytes_small. lia.
Qed.

(** X5.  When the quota check is enabled and the fetched quota has room for
    the payload, an exact fit included, [Upload] goes on: it makes exactly
    two round trips, the quota request and then the POST of the form to the
    upload endpoint, and its result is what the second one gives. *)
Theorem Upload_within_quota s fileData key contentType checkQuota w quota w1 :
  (checkQuota = None /\ autoCheckQuota s = true) \/ checkQuota = Some true ->
  GetQuota s w = (Ok quota, w1) ->
  len fileData <= StorageAvailableBytes quota ->
  http_NewRequest_err "POST" (projectURL s +:+ "/api/v1/storage/upload") = None ->
  exists qreq qrt rt w2,
    Upload s fileData key contentType checkQuota w = (upload_outcome rt, w2) /\
    has_suffix w w2 [(qreq, qrt); (upload_request_of s fileData key contentType, rt)] /\
    is_quota_request s qreq = true /\
    is_upload_request s (upload_request_of s fileData key contentType) = true.
Proof.
  intros Henabled Hquota Hfits Hbuild.
  assert (Hcheck : match checkQuota with Some b => b | None => autoCheckQuota s end = true).
  { destruct Henabled as [[-> ->]| ->]; reflexivity. }
  assert (Hint : int64 (len fileData) = len fileData).
  { pose proof (StorageAvailableBytes_int64 quota) as Hr.
    apply int64_id. unfold int64_range, len in *. lia. }
  destruct (GetQuota_Ok _ _ _ _ Hquota) as (qreq & resp & Hs & Hq & _).
  pose proof (has_suffix_Do (httpClient s)
                (upload_request_of s fileData key contentType) w1) as Hs2.
  exists qreq, (Reply resp). eexists _, _. split; [|split; [|split]].
  - rewrite Upload_unfold. unfold quota_precheck. rewrite Hcheck.
    unfold bind. rewrite Hquota, Hint.
    destruct (Z.ltb_spec (StorageAvailableBytes quota) (len fileData)); [lia|].
    unfold ret. rewrite Hbuild. reflexivity.
  - apply (has_suffix_trans _ _ _ [_] [_] Hs Hs2).
  - exact Hq.
  - unfold is_upload_request. cbn. rewrite String.eqb_refl. reflexivity.
Qed.

(** X6.  When the quota check is enabled and the quota cannot be fetched,
    [Upload] gives up with the error of [GetQuota], unwrapped, in the world
    that [GetQuota] left: the one request made went to the quota endpoint
    and nothing was uploaded. *)
Theorem Upload_quota_unavailable s fileData key contentType checkQuota w e w1 :
  (checkQuota = None /\ autoCheckQuota s = true) \/ checkQuota = Some true ->
  GetQuota s w = (Err e, w1) ->
  Upload s fileData key contentType checkQuota w = (Err e, w1) /\
  exists delta, has_suffix w w1 delta /\
    within (fun req => is_quota_request s req = true /\ is_upload_request s req = false)
      1 delta.
Proof.
  intros Henabled Hquota.
  assert (Hcheck : match checkQuota with Some b => b | None => autoCheckQuota s end = true).
  { destruct Henabled as [[-> ->]| ->]; reflexivity. }
  split.
  - rewrite Upload_unfold. unfold quota_precheck. rewrite Hcheck.
    unfold bind. rewrite Hquota. reflexivity.
  - refine (GetQuota_sends _ s _ _ _ _ Hquota).
    intros req Hreq. destruct (request_of_target _ _ _ _ _ Hreq) as [Hm Hu].
    unfold is_quota_request, is_upload_request. rewrite Hm, Hu.
    rewrite !String.eqb_refl. split; reflexivity.
Qed.

(** [ListFiles] is one [doRequest] for the list endpoint, with the query
    spelled out. *)
Lemma ListFiles_unfold s prefix limit :
  ListFiles s prefix limit =
    (do resp <- doRequest s "GET"
                  ("/api/v1/storage/list" +:+ join_query (list_params prefix limit)) None;
     do result <- parse_response resp;
     ret (result_Files result)).
Proof.
  unfold ListFiles. do 2 f_equal.
  unfold list_params, join_query.
  destruct (String.eqb prefix ""), (0 <? limit); cbn [negb orb app map String.concat];
    rewrite ?append_assoc, ?append_nil_r; reflexivity.
Qed.

Lemma append_not_nil (a b : string) : a <> "" -> String.eqb (a +:+ b) "" = false.
Proof. destruct a as [|x a]; [contradiction|reflexivity]. Qed.

(** X7.  [ListFiles] makes exactly one round trip whenever [http.NewRequest]
    accepts its URL, and none when it does not: a GET without body of the
    list endpoint, followed by "?" and the parameters that are set, joined
    by "&": "prefix=" and the prefix when that is not empty, "limit=" and
    the limit when that is positive; with neither there is no question
    mark.  The prefix is copied as it is, without escaping, so that a
    prefix ending in "&limit=<n>" gives the very URL of a limit [n]. *)
Theorem ListFiles_query s prefix limit w :
  let url := projectURL s +:+ "/api/v1/storage/list"
               +:+ join_query (list_params prefix limit) in
  (http_NewRequest_err "GET" url = None ->
   exists req rt r,
     ListFiles s prefix limit w = (r, mkWorld (network w) (log w ++ [(req, rt)])) /\
     rt = network w (httpClient s) (sent w ++ [req]) /\
     Method req = "GET" /\ URL req = url /\ ReqBody req = None) /\
  (forall e, http_NewRequest_err "GET" url = Some e ->
     ListFiles s prefix limit w = (Err (wrapError "failed to create request: %w" e), w)) /\
  (forall n, prefix <> "" -> 0 < n ->
     join_query (list_params (prefix +:+ "&limit=" +:+ fmt_d n) 0)
       = join_query (list_params prefix n)).
Proof.
  intros url. split; [|split].
  - intros Hbuild. rewrite ListFiles_unfold. unfold bind at 1.
    rewrite storage_doRequest_unfold. unfold request_of, http_NewRequest.
    fold url. rewrite Hbuild. cbn [wrap].
    match goal with
    | |- context [Do (httpClient s) ?q w] => set (req := q)
    end.
    exists req, (network w (httpClient s) (sent w ++ [req])).
    assert (Hrun : exists r,
              match dispatch_result transport_error parseStorageError
                      (Do (httpClient s) req w).1 with
              | Ok a =>
                  (do result <- parse_response (T := files_result) a;
                   ret (result_Files result)) (Do (httpClient s) req w).2
              | Err e => (Err e, (Do (httpClient s) req w).2)
              | Panic => (Panic, (Do (httpClient s) req w).2)
              end = (r, mkWorld (network w) (log w ++ [(req, network w (httpClient s)
                                                           (sent w ++ [req]))]))).
    { unfold Do. cbn [fst snd].
      destruct (dispatch_result _ _ _) as [b|e|]; [|eexists; reflexivity..].
      unfold bind, parse_response, lift, ret.
      destruct (wrap _ (json_Unmarshal b)); eexists; reflexivity. }
    destruct Hrun as [r Hrun]. exists r.
    split; [exact Hrun|]. repeat split.
  - intros e Hbuild. rewrite ListFiles_unfold. unfold bind at 1.
    rewrite storage_doRequest_unfold. unfold request_of, http_NewRequest.
    fold url. rewrite Hbuild. reflexivity.
  - intros n Hprefix Hn. unfold list_params, join_query.
    rewrite (append_not_nil prefix _ Hprefix).
    apply String.eqb_neq in Hprefix. rewrite Hprefix.
    destruct (Z.ltb_spec 0 n); [|lia].
    cbn [Z.ltb Z.compare app map String.concat].
    rewrite ?append_assoc, ?append_nil_r. reflexivity.
Qed.

End Facts.
End UploadFacts.

Module AuthWire.
Import Auth AuthCalls AuthFacts Wire.

Section Facts.
Context `{Runtime} `{ErrorMapper}.
Context `{!Unmarshal authResponse} `{!Unmarshal loginResponse} `{!Unmarshal AuthUser}
        `{!Unmarshal OAuthAuthorizeResponse} `{!Unmarshal (gmap string JSON)}.

Lemma quiet_lift {A} (r : result A) : quiet (lift r : Comp St A).
Proof. intros s r' s' [= _ <-]. reflexivity. Qed.

Lemma quiet_persistSession session : quiet (persistSession session).
Proof. intros [c w] r s' [= _ <-]. reflexivity. Qed.

Lemma quiet_bind {A B} (c : Comp St A) (k : A -> Comp St B) :
  quiet c -> (forall a, quiet (k a)) -> quiet (bind c k).
Proof.
  intros Hc Hk s r s'. unfold bind.
  destruct (c s) as [[a|e|] s1] eqn:Hcs.
  - intros Heq. rewrite (Hk _ _ _ _ Heq). eapply Hc. eassumption.
  - intros [= _ <-]. eapply Hc. eassumption.
  - intros [= _ <-]. eapply Hc. eassumption.
Qed.

Lemma sends_from_quiet {A} cl P (c : Comp St A) : quiet c -> sends_from cl P 1 c.
Proof.
  intros Hq w r s' Heq. exists []. rewrite (Hq _ _ _ Heq). cbn [snd].
  split; [apply has_suffix_refl|apply within_nil].
Qed.

Lemma sends_from_then {A B} cl P n (c : Comp St A) (k : A -> Comp St B) :
  sends_from cl P n c -> (forall a, quiet (k a)) -> sends_from cl P n (bind c k).
Proof.
  intros Hc Hk w r s'. unfold bind.
  destruct (c (cl, w)) as [[a|e|] s1] eqn:Hcw.
  - intros Heq. rewrite (Hk _ _ _ _ Heq). eapply Hc. eassumption.
  - intros [= _ <-]. eapply Hc. eassumption.
  - intros [= _ <-]. eapply Hc. eassumption.
Qed.

Lemma sends_from_request cl (P : Request -> Prop) method path body headers :
  (forall req, request_of cl method path body headers = Ok req -> P req) ->
  sends_from cl P 1 (request method path body headers).
Proof.
  intros HP w r s'. rewrite request_unfold.
  destruct (request_of cl method path body headers) as [req|e|] eqn:Hreq;
    intros [= _ <-]; cbn [snd].
  - eexists. split; [apply has_suffix_Do|]. apply within_one, HP. reflexivity.
  - exists []. split; [apply has_suffix_refl|apply within_nil].
  - exists []. split; [apply has_suffix_refl|apply within_nil].
Qed.

(** The request that [doRequest] builds, when it can be built. *)
Lemma auth_request_of_Ok cl method path body headers req :
  request_of cl method path body headers = Ok req ->
  exists b,
    req =
      map_fold Header_Set
        (let req0 := Header_Set "Content-Type" "application/json"
                       (mkRequest method (baseURL cl +:+ path) ∅ b) in
         if negb (String.eqb (apiKey cl) "") then
           Header_Set "Authorization" ("Bearer " +:+ apiKey cl) req0
         else if negb (String.eqb (publicKey cl) "") then
           Header_Set "Authorization" ("Bearer " +:+ publicKey cl) req0
         else req0) headers.
Proof.
  unfold request_of, http_NewRequest.
  destruct body as [j|].
  - destruct (wrap _ (json_Marshal j)); try discriminate.
    destruct (http_NewRequest_err _ _); [discriminate|].
    intros [= <-]. eexists. reflexivity.
  - destruct (http_NewRequest_err _ _); [discriminate|].
    intros [= <-]. eexists. reflexivity.
Qed.

(** Without extra headers the request carries the client's key, if it has
    one. *)
Lemma auth_request_of_key cl method path body req :
  request_of cl method path body ∅ = Ok req ->
  Method req = method /\ URL req = baseURL cl +:+ path /\
  Header req !! "Content-Type" = Some "application/json" /\
  Header req !! "Authorization" = key_authorization cl.
Proof.
  intros Hreq. destruct (auth_request_of_Ok _ _ _ _ _ _ Hreq) as [b ->].
  rewrite map_fold_empty. unfold key_authorization. cbv zeta.
  destruct (String.eqb (apiKey cl) ""), (String.eqb (publicKey cl) "");
    cbn [negb Header Header_Set Method URL];
    rewrite ?lookup_insert_eq, ?(lookup_insert_ne _ "Authorization" "Content-Type"),
      ?lookup_insert_eq, ?(lookup_insert_ne _ "Content-Type" "Authorization"),
      ?lookup_empty by discriminate;
    repeat split.
Qed.

(** An authorization among the extra headers replaces the client's key. *)
Lemma auth_request_of_token cl method path body t req :
  request_of cl method path body (<["Authorization" := t]> ∅) = Ok req ->
  Method req = method /\ URL req = baseURL cl +:+ path /\
  Header req !! "Content-Type" = Some "application/json" /\
  Header req !! "Authorization" = Some t.
Proof.
  intros Hreq. destruct (auth_request_of_Ok _ _ _ _ _ _ Hreq) as [b ->].
  rewrite insert_empty, map_fold_singleton. cbv zeta.
  destruct (String.eqb (apiKey cl) ""), (String.eqb (publicKey cl) "");
    cbn [negb Header Header_Set Method URL];
    rewrite ?lookup_insert_eq, ?(lookup_insert_ne _ "Authorization" "Content-Type"),
      ?lookup_insert_eq by discriminate;
    repeat split.
Qed.

Lemma auth_request_key (c : call) cl method path body :
  (forall tokenOverride, c <> call_GetUser tokenOverride) ->
  forall req, request_of cl method path body ∅ = Ok req -> auth_request c cl req.
Proof.
  intros Hc req Hreq. destruct (auth_request_of_key _ _ _ _ _ Hreq) as (_ & Hu & Hct & Ha).
  split; [|split; [exact Hct|]].
  - unfold strings_HasPrefix. rewrite Hu. apply prefix_append.
  - rewrite Ha. destruct c; try reflexivity. exfalso. eapply Hc. reflexivity.
Qed.

(** [GetUser] fails at once without a token and asks for "/me" with the
    token otherwise. *)
Lemma GetUser_unfold tokenOverride cl w :
  GetUser tokenOverride (cl, w) =
    if String.eqb (effective_token tokenOverride cl) "" then
      (Err (WOWSQLError "access token is required to fetch user profile"), (cl, w))
    else
      (do body <- request "GET" "/me" None
                    (<["Authorization" := "Bearer " +:+ effective_token tokenOverride cl]> ∅);
       lift (wrap "failed to parse user response: %w" (json_Unmarshal body))) (cl, w).
Proof.
  unfold GetUser, effective_token.
  destruct tokenOverride as [|t rest]; [reflexivity|].
  destruct (String.eqb t ""); reflexivity.
Qed.

Lemma GetUser_sends tokenOverride cl (P : Request -> Prop) :
  (forall req,
     effective_token tokenOverride cl <> "" ->
     request_of cl "GET" "/me" None
       (<["Authorization" := "Bearer " +:+ effective_token tokenOverride cl]> ∅) = Ok req ->
     P req) ->
  sends_from cl P 1 (GetUser tokenOverride).
Proof.
  intros HP w r s'. rewrite GetUser_unfold.
  destruct (String.eqb (effective_token tokenOverride cl) "") eqn:Htoken.
  - intros [= _ <-]. exists []. split; [apply has_suffix_refl|apply within_nil].
  - apply String.eqb_neq in Htoken.
    apply sends_from_then; [|intros ?; apply quiet_lift].
    apply sends_from_request. intros req. apply HP, Htoken.
Qed.

Ltac one_request :=
  repeat first
    [ apply sends_from_request, auth_request_key; intros ?; discriminate
    | apply quiet_persistSession
    | apply quiet_lift | apply (quiet_lift (Ok _)) | apply (quiet_lift (Err _))
    | apply quiet_bind; [|intros ?]
    | apply sends_from_then; [|intros ?] ].

(** X8.  Every request that a call of the auth client hands to the
    transport goes to a URL below the client's base URL, declares a JSON
    body and is authorized with the client's API key (with the deprecated
    public key when there is no API key, and not at all when there is
    neither); [GetUser] alone presents its token instead, the first
    override if that is not empty and the stored access token otherwise.
    No call makes more than one round trip. *)
Theorem auth_requests_carry_key (c : call) cl w r cl' w' :
  run c (cl, w) = (r, (cl', w')) ->
  exists delta, has_suffix w w' delta /\ within (auth_request c cl) 1 delta.
Proof.
  intros Hrun.
  enough (Hsends : sends_from cl (auth_request c cl) 1 (run c))
    by exact (Hsends _ _ _ Hrun).
  clear Hrun.
  destruct c; cbn [run]; unfold with_session, no_session;
    (apply sends_from_then; [|intros ?; apply (quiet_lift (Ok _))]).
  - unfold SignUp. one_request.
  - unfold SignIn. one_request.
  - apply GetUser_sends. intros req _ Hreq.
    destruct (auth_request_of_token _ _ _ _ _ _ Hreq) as (_ & Hu & Hct & Ha).
    split; [|split; assumption].
    unfold strings_HasPrefix. rewrite Hu. apply prefix_append.
  - unfold GetOAuthAuthorizationURL. one_request.
  - unfold ExchangeOAuthCallback. one_request.
  - unfold ForgotPassword. one_request.
  - unfold ResetPassword. one_request.
  - unfold SendOTP. destruct (bad_otp_purpose purpose);
      [apply sends_from_quiet, (quiet_lift (Err _))|one_request].
  - unfold VerifyOTP. destruct (bad_otp_purpose purpose);
      [apply sends_from_quiet, (quiet_lift (Err _))|].
    destruct (_ && _); [apply sends_from_quiet, (quiet_lift (Err _))|].
    apply sends_from_then; [one_request|]. intros body.
    destruct (String.eqb purpose "password_reset"); one_request.
  - unfold SendMagicLink. destruct (bad_magic_link_purpose purpose);
      [apply sends_from_quiet, (quiet_lift (Err _))|one_request].
  - unfold VerifyEmail. one_request.
  - unfold ResendVerification. one_request.
Qed.

End Facts.
End AuthWire.

Module AuthMore.
Import Auth AuthCalls AuthFacts AuthWire Wire.

Section Facts.
Context `{Runtime} `{ErrorMapper}.
Context `{!Unmarshal authResponse} `{!Unmarshal loginResponse} `{!Unmarshal AuthUser}
        `{!Unmarshal OAuthAuthorizeResponse} `{!Unmarshal (gmap string JSON)}.



(** X11.  [SendMagicLink] rejects a purpose other than "login", "signup"
    and "email_verification" before it builds any request, leaving client
    and world as they were; the purposes of the two validations differ: a
    magic link cannot be sent for "password_reset", nor an OTP for
    "email_verification". *)
Theorem magic_link_purpose_validated email purpose cl w :
  (purpose <> "login" -> purpose <> "signup" -> purpose <> "email_verification" ->
   SendMagicLink email purpose (cl, w) =
     (Err (errorString "purpose must be 'login', 'signup', or 'email_verification'" []),
      (cl, w))) /\
  SendMagicLink email "password_reset" (cl, w) =
    (Err (errorString "purpose must be 'login', 'signup', or 'email_verification'" []),
     (cl, w)) /\
  SendOTP email "email_verification" (cl, w) =
    (Err (errorString "purpose must be 'login', 'signup', or 'password_reset'" []),
     (cl, w)).
Proof.
  split; [|split; reflexivity].
  intros Hlogin Hsignup Hverify.
  assert (Hbad : bad_magic_link_purpose purpose = true).
  { unfold bad_magic_link_purpose.
    apply String.eqb_neq in Hlogin, Hsignup, Hverify.
    rewrite Hlogin, Hsignup, Hverify. reflexivity. }
  unfold SendMagicLink. rewrite Hbad. reflexivity.
Qed.

Lemma run_keeps_configuration c cl w r cl' w' :
  run c (cl, w) = (r, (cl', w')) ->
  baseURL cl' = baseURL cl /\ httpClient cl' = httpClient cl /\
  apiKey cl' = apiKey cl /\ publicKey cl' = publicKey cl.
Proof.
  intros Hrun. pose proof (run_session_effect _ _ _ _ _ _ Hrun) as Heffect.
  unfold session_effect in Heffect.
  destruct r as [[session|]|e|]; try (subst cl'; repeat split).
  destruct (is_password_reset c); [subst cl'; repeat split|].
  destruct Heffect as [-> _]. repeat split.
Qed.

(** X12.  An invariant of the auth client: no call, and neither
    [SetSession] nor [ClearSession], touches what [NewAuthClient] set up.
    On every client that a program can come to hold the base URL is the one
    built from the configuration and both key fields hold the unified key,
    the API key if the configuration has one and the deprecated public key
    otherwise; the requests are authorized with that key, and with nothing
    when the configuration has neither. *)
Theorem configuration_is_invariant cfg cl :
  reachable cfg cl ->
  baseURL cl = buildAuthBaseURL (ProjectURL cfg) (BaseDomain cfg) (Secure cfg) /\
  apiKey cl = unified_key cfg /\ publicKey cl = unified_key cfg /\
  httpClient cl = httpClient (NewAuthClient cfg) /\
  key_authorization cl =
    if String.eqb (unified_key cfg) "" then None
    else Some ("Bearer " +:+ unified_key cfg).
Proof.
  intros Hreach.
  assert (Hinv : baseURL cl = baseURL (NewAuthClient cfg) /\
                 httpClient cl = httpClient (NewAuthClient cfg) /\
                 apiKey cl = unified_key cfg /\ publicKey cl = unified_key cfg).
  { induction Hreach as [|c cl w r cl' w' _ IH Hrun|a t cl _ IH|cl _ IH].
    - repeat split.
    - destruct (run_keeps_configuration _ _ _ _ _ _ Hrun) as (-> & -> & -> & ->).
      exact IH.
    - exact IH.
    - exact IH. }
  destruct Hinv as (Hb & Hh & Ha & Hp).
  split; [exact Hb|]. split; [exact Ha|]. split; [exact Hp|]. split; [exact Hh|].
  unfold key_authorization. rewrite Ha, Hp.
  destruct (String.eqb (unified_key cfg) ""); reflexivity.
Qed.

Lemma fold_left_snoc {A B} (f : A -> B -> A) l x a :
  fold_left f (l ++ [x]) a = f (fold_left f l a) x.
Proof. revert a. induction l as [|y l IH]; intros a; [reflexivity|]. cbn. apply IH. Qed.

(** The options are applied in order: what the payload holds is what the
    last option of each kind gave. *)
Lemma SignUp_payload_last email password (os : list SignUpOption) :
  SignUp_payload email password (map apply_option os)
    = mkSignUpRequest email password (last_full_name os) (last_metadata os).
Proof.
  induction os as [|o os IH] using rev_ind; [reflexivity|].
  unfold SignUp_payload in *. rewrite map_app. cbn [map]. rewrite fold_left_snoc, IH.
  unfold last_full_name, last_metadata. rewrite !omap_app.
  destruct o as [fullName|metadata];
    cbn [omap list_omap given_full_name given_metadata apply_option].
  - rewrite last_snoc, app_nil_r. reflexivity.
  - rewrite last_snoc, app_nil_r. reflexivity.
Qed.

(** What the steps after the request of a method leave of the world. *)
Lemma bind_quiet_world {A B} (c : Comp St A) (k : A -> Comp St B) s :
  (forall a, quiet (k a)) -> (bind c k s).2.2 = (c s).2.2.
Proof.
  intros Hk. unfold bind. destruct (c s) as [[a|e|] s1] eqn:Hcs; cbn [snd]; [|reflexivity..].
  destruct (k a s1) as [r s'] eqn:Hks. cbn [snd]. exact (Hk _ _ _ _ Hks).
Qed.

(** X13.  The payload of [SignUp], for every list of the options that the
    package offers: e-mail address and password are the ones given,
    whatever the options; the full name is that of the last [WithFullName]
    in the list and the metadata that of the last [WithUserMetadata],
    wherever in the list they stand and whatever follows them.  The JSON
    object has the keys "email" and "password", "full_name" exactly when a
    full name was given, "user_metadata" exactly when the last metadata are
    neither nil nor empty, and no other key.  When the object can be
    marshalled and the request built, [SignUp] makes exactly one round
    trip, a POST to "/signup" whose body is the marshalled object. *)
Theorem SignUp_payload_fields email password (os : list SignUpOption) :
  let payload := mkSignUpRequest email password (last_full_name os) (last_metadata os) in
  SignUp_payload email password (map apply_option os) = payload /\
  (exists m,
     signUpRequest_json payload = JObject m /\
     m !! "email" = Some (JString email) /\
     m !! "password" = Some (JString password) /\
     m !! "full_name" = JString <$> last_full_name os /\
     m !! "user_metadata" =
       match last_metadata os with
       | Some md => if decide (md = ∅) then None else Some (JObject md)
       | None => None
       end /\
     forall k, k <> "email" -> k <> "password" -> k <> "full_name" ->
               k <> "user_metadata" -> m !! k = None) /\
  (forall cl w body,
     json_Marshal (signUpRequest_json payload) = Ok body ->
     http_NewRequest_err "POST" (baseURL cl +:+ "/signup") = None ->
     exists req rt,
       (SignUp email password (map apply_option os) (cl, w)).2.2
         = mkWorld (network w) (log w ++ [(req, rt)]) /\
       rt = network w (httpClient cl) (sent w ++ [req]) /\
       Method req = "POST" /\ URL req = baseURL cl +:+ "/signup" /\
       ReqBody req = Some (json_body body)).
Proof.
  intros payload. split; [apply SignUp_payload_last|]. split.
  - unfold payload, signUpRequest_json.
    cbn [signUp_Email signUp_Password signUp_FullName signUp_UserMetadata].
    eexists. split; [reflexivity|].
    destruct (last_full_name os), (last_metadata os) as [md|];
      try destruct (decide (md = ∅));
      repeat split;
      try (intros k Hemail Hpassword Hname Hmetadata);
      repeat (rewrite lookup_insert_eq || (rewrite lookup_insert_ne by congruence));
      try reflexivity; apply lookup_empty.
  - intros cl w body Hmarshal Hbuild. unfold SignUp.
    fold (SignUp_payload email password (map apply_option os)).
    rewrite SignUp_payload_last. fold payload.
    rewrite bind_quiet_world
      by (intros; apply quiet_bind; [apply quiet_lift|]; intros;
          apply quiet_bind; [apply quiet_persistSession|]; intros; apply (quiet_lift (Ok _))).
    rewrite request_unfold. unfold request_of, http_NewRequest.
    rewrite Hmarshal, Hbuild. cbn [wrap snd].
    eexists _, _. split; [reflexivity|]. split; [reflexivity|].
    rewrite map_fold_empty.
    destruct (negb (String.eqb (apiKey cl) "")), (negb (String.eqb (publicKey cl) ""));
      repeat split.
Qed.

End Facts.
End AuthMore.

(** *** Suffixes *)

Lemma length_append (a b : string) :
  String.length (a +:+ b) = (String.length a + String.length b)%nat.
Proof.
  induction a as [|x a IH]; [reflexivity|].
  change (String x a +:+ b) with (String x (a +:+ b)). cbn [String.length].
  rewrite IH. reflexivity.
Qed.

Lemma substring_full (s : string) : substring 0 (String.length s) s = s.
Proof. induction s as [|x s IH]; [reflexivity|]. cbn. rewrite IH. reflexivity. Qed.

Lemma substring_append_skip (a b : string) n m :
  substring (String.length a + n) m (a +:+ b) = substring n m b.
Proof.
  induction a as [|x a IH]; [reflexivity|].
  change (String x a +:+ b) with (String x (a +:+ b)). cbn. exact IH.
Qed.

Lemma substring_append_take (a b : string) :
  substring 0 (String.length a) (a +:+ b) = a.
Proof.
  induction a as [|x a IH]; [destruct b; reflexivity|].
  change (String x a +:+ b) with (String x (a +:+ b)). cbn. rewrite IH. reflexivity.
Qed.

(** Whether [a ++ s] ends with [t] is decided by [s] when [t] is no longer
    than [s]. *)
Lemma HasSuffix_append_short (a s t : string) :
  (String.length t <= String.length s)%nat ->
  strings_HasSuffix (a +:+ s) t = strings_HasSuffix s t.
Proof.
  intros Hle. unfold strings_HasSuffix. rewrite length_append.
  replace (String.length a + String.length s - String.length t)%nat
    with (String.length a + (String.length s - String.length t))%nat by lia.
  rewrite substring_append_skip.
  destruct (Nat.leb_spec (String.length t) (String.length s)); [|lia].
  destruct (Nat.leb_spec (String.length t) (String.length a + String.length s)); [|lia].
  reflexivity.
Qed.

Lemma HasSuffix_append (a s : string) : strings_HasSuffix (a +:+ s) s = true.
Proof.
  rewrite HasSuffix_append_short by lia. unfold strings_HasSuffix.
  rewrite Nat.leb_refl, Nat.sub_diag, substring_full. apply String.eqb_refl.
Qed.

Lemma TrimSuffix_append (a s : string) : strings_TrimSuffix (a +:+ s) s = a.
Proof.
  unfold strings_TrimSuffix. rewrite HasSuffix_append, length_append.
  replace (String.length a + String.length s - String.length s)%nat
    with (String.length a) by lia.
  apply substring_append_take.
Qed.

Lemma TrimSuffix_none (a s : string) :
  strings_HasSuffix a s = false -> strings_TrimSuffix a s = a.
Proof. unfold strings_TrimSuffix. intros ->. reflexivity. Qed.

Lemma prefix_append_mono (p u s : string) :
  String.prefix p u = true -> String.prefix p (u +:+ s) = true.
Proof.
  intros Hp. eapply prefix_trans; [exact Hp|apply prefix_append].
Qed.

Module BaseURL.
Import Auth Wire.

Section Facts.
Context `{RT : Runtime}.

(** What [buildAuthBaseURL] makes of a URL whose trailing slash it has
    trimmed already. *)
Lemma strip_api (u : string) :
  strings_HasSuffix u "/api" = false ->
  (if strings_HasSuffix u "/api" then strings_TrimSuffix u "/api" else u) = u /\
  (if strings_HasSuffix (u +:+ "/api") "/api"
   then strings_TrimSuffix (u +:+ "/api") "/api" else u +:+ "/api") = u.
Proof.
  intros ->. split; [reflexivity|].
  rewrite HasSuffix_append. apply TrimSuffix_append.
Qed.

(** X14.  A project URL that has its scheme is used as it is, and the
    path "/api/auth" is never doubled: whether the URL is given bare, with
    a trailing slash, with "/api" or with "/api/", the base URL is the same,
    the URL up to there followed by "/api/auth". *)
Theorem buildAuthBaseURL_of_url projectURL baseDomain secure (u suffix : string) :
  strings_TrimSpace projectURL = u +:+ suffix ->
  In suffix [""; "/"; "/api"; "/api/"] ->
  strings_HasPrefix u "http://" || strings_HasPrefix u "https://" = true ->
  strings_HasSuffix u "/" = false ->
  strings_HasSuffix u "/api" = false ->
  buildAuthBaseURL projectURL baseDomain secure = u +:+ "/api/auth".
Proof.
  intros Htrim Hsuffix Hscheme Hslash Hapi.
  unfold buildAuthBaseURL. rewrite Htrim. cbv zeta.
  assert (Hscheme' : strings_HasPrefix (u +:+ suffix) "http://"
                     || strings_HasPrefix (u +:+ suffix) "https://" = true).
  { unfold strings_HasPrefix in *.
    apply orb_true_iff in Hscheme as [Hp|Hp]; apply orb_true_iff; [left|right];
      apply prefix_append_mono; exact Hp. }
  rewrite Hscheme'.
  destruct (strip_api u Hapi) as [Hbare Hwith].
  destruct Hsuffix as [<-|[<-|[<-|[<-|[]]]]].
  - rewrite append_nil_r, (TrimSuffix_none _ _ Hslash), Hbare. reflexivity.
  - rewrite TrimSuffix_append, Hbare. reflexivity.
  - rewrite (TrimSuffix_none (u +:+ "/api") "/"), Hwith; [reflexivity|].
    rewrite HasSuffix_append_short by (cbn; lia). reflexivity.
  - change "/api/" with ("/api" +:+ "/"). rewrite <- append_assoc.
    rewrite TrimSuffix_append, Hwith. reflexivity.
Qed.

(** X15.  A bare project slug, one that has no scheme and does not name
    the default domain, is completed to
    [<protocol>://<slug>.wowsql.com/api/auth], with "https" unless [secure]
    is off; and for every project URL, with or without a scheme, and every
    base domain, the base URL ends with "/api/auth". *)
Theorem buildAuthBaseURL_of_slug :
  (forall projectURL secure (slug : string),
     strings_TrimSpace projectURL = slug ->
     strings_HasPrefix slug "http://" || strings_HasPrefix slug "https://" = false ->
     strings_Contains slug ".wowsql.com" = false ->
     strings_HasSuffix slug "wowsql.com" = false ->
     buildAuthBaseURL projectURL "" secure
       = (if secure then "https" else "http") +:+ "://" +:+ slug
           +:+ ".wowsql.com/api/auth") /\
  (forall projectURL baseDomain secure,
     strings_HasSuffix (buildAuthBaseURL projectURL baseDomain secure) "/api/auth" = true).
Proof.
  split.
  - intros projectURL secure slug Htrim Hscheme Hdomain Hends.
    unfold buildAuthBaseURL. rewrite Htrim. cbv zeta.
    rewrite Hscheme. cbn [String.eqb Ascii.eqb Bool.eqb].
    change ("." +:+ "wowsql.com") with ".wowsql.com".
    rewrite Hdomain, Hends. cbn [orb].
    set (protocol := if negb secure then "http" else "https").
    replace (if secure then "https" else "http") with protocol
      by (destruct secure; reflexivity).
    assert (Hnorm : protocol +:+ "://" +:+ slug +:+ ".wowsql.com"
                    = (protocol +:+ "://" +:+ slug) +:+ ".wowsql.com").
    { rewrite !append_assoc. reflexivity. }
    rewrite Hnorm.
    rewrite (TrimSuffix_none _ "/")
      by (rewrite HasSuffix_append_short by (cbn; lia); reflexivity).
    rewrite (HasSuffix_append_short _ ".wowsql.com" "/api") by (cbn; lia).
    change (strings_HasSuffix ".wowsql.com" "/api") with false. cbv iota.
    rewrite !append_assoc. reflexivity.
  - intros projectURL baseDomain secure. unfold buildAuthBaseURL. cbv zeta.
    destruct (_ || _); apply HasSuffix_append.
Qed.

End Facts.
End BaseURL.

Module SchemaWire.
Import SchemaCalls SchemaFacts Wire.

Section Facts.
Context `{Runtime} `{!Decode (gmap string JSON)} `{!Decode Schema.SchemaResponse}.

Lemma request_for_wire baseURL serviceKey t req :
  request_for baseURL serviceKey t = Ok req -> schema_request baseURL serviceKey t req.
Proof.
  destruct t as [[method path] [j|]]; unfold request_for, schema_request, http_NewRequest;
    cbn [fst snd].
  - destruct (wrap _ (json_Marshal j)); try discriminate.
    destruct (http_NewRequest_err _ _); [discriminate|].
    intros [= <-]. cbn [Method URL Header ReqBody Header_Set].
    rewrite (lookup_insert_ne _ "Content-Type" "Authorization") by discriminate.
    rewrite !lookup_insert_eq. repeat split.
  - destruct (http_NewRequest_err _ _); [discriminate|].
    intros [= <-]. cbn [Method URL Header ReqBody Header_Set].
    rewrite (lookup_insert_ne _ "Authorization" "Content-Type") by discriminate.
    rewrite lookup_insert_eq, lookup_empty. repeat split.
Qed.

(** X16.  Every call of the two schema clients makes at most one round
    trip, with the method and to the path of the call below the client's
    base URL, and authorized with the service key as bearer token; the
    calls with a JSON payload declare it as such, and [DropTable], which has
    none, sends neither a body nor a content type: the table and the
    cascade flag travel in the URL. *)
Theorem schema_requests_carry_key :
  (forall c client w r w',
     run c client w = (r, w') ->
     exists delta, has_suffix w w' delta /\
       within (schema_request (Schema.baseURL client) (Schema.serviceKey client)
                 (target c)) 1 delta) /\
  (forall c client w r w',
     run_pkg c client w = (r, w') ->
     exists delta, has_suffix w w' delta /\
       within (schema_request (WOWSQLSchema.baseURL client)
                 (WOWSQLSchema.serviceKey client) (pkg_target c)) 1 delta) /\
  (forall tableName cascade,
     target (call_DropTable tableName cascade) =
       ("DELETE",
        "/api/v2/schema/tables/" +:+ tableName +:+ "?cascade=" +:+ fmt_t cascade, None) /\
     pkg_target (pkg_DropTable tableName cascade) =
       target (call_DropTable tableName cascade)).
Proof.
  split; [|split].
  - intros c client w r w'. rewrite run_unfold.
    destruct (request_for _ _ (target c)) as [req|e|] eqn:Hreq; intros [= <- <-].
    + eexists. split; [apply has_suffix_Do|].
      apply within_one, request_for_wire, Hreq.
    + exists []. split; [apply has_suffix_refl|apply within_nil].
    + exists []. split; [apply has_suffix_refl|apply within_nil].
  - intros c client w r w'. rewrite run_pkg_unfold.
    destruct (request_for _ _ (pkg_target c)) as [req|e|] eqn:Hreq; intros [= <- <-].
    + eexists. split; [apply has_suffix_Do|].
      apply within_one, request_for_wire, Hreq.
    + exists []. split; [apply has_suffix_refl|apply within_nil].
    + exists []. split; [apply has_suffix_refl|apply within_nil].
  - intros tableName cascade. split; reflexivity.
Qed.

End Facts.


End SchemaWire.


(* ================================================================= *)
(** ** Further sample runs *)

Module MoreExamples.
Import Sample.

(** *** Storage *)

(** The server reports a negative number of available bytes. *)
Lemma limit_message_never_panics_witness :
  (exists msg, Storage.limit_message 11 (-5) = Some msg) /\
  formatBytes (-5) = Some (fmt_d (-5) +:+ " B").
Proof.
  assert (Hr : int64_range 11) by (split; vm_compute; [discriminate|reflexivity]).
  assert (Ha : int64_range (-5)) by (split; vm_compute; [discriminate|reflexivity]).
  destruct (UploadFacts.limit_message_never_panics 11 (-5) Hr Ha) as [Hmsg Hneg].
  split; [exact Hmsg|]. apply Hneg. reflexivity.
Defined.

(** A project URL with a port and a path. *)
Lemma slug_of_url_host_witness :
  let slug := @Storage.extractProjectSlug Parsing.runtime Parsing.project in
  Wire.slug_of_host "demo.wowsql.com:8443" = Some slug /\
  strings_HasPrefix "demo.wowsql.com:8443" slug = true /\
  strings_Contains slug ":" = false /\
  strings_Contains slug "." = false.
Proof.
  apply (SlugTheorems.slug_of_url_host (RT := Parsing.runtime) Parsing.project
           "demo.wowsql.com:8443"); vm_compute; reflexivity.
Defined.

(** An upload after a quota check: two requests, both with the key. *)
Lemma storage_requests_carry_key_witness :
  let w := answering (reply 200 "11") in
  let c := StorageCalls.call_Upload (body_of "hello world") "a.txt" "" None in
  exists w' delta,
    StorageCalls.run c storage w = (Ok tt, w') /\
    has_suffix w w' delta /\ within (Wire.storage_request storage) 2 delta.
Proof.
  intros w c.
  assert (Hrun : exists w', StorageCalls.run c storage w = (Ok tt, w')).
  { eexists. vm_compute. reflexivity. }
  destruct Hrun as (w' & Hrun).
  destruct (StorageWire.storage_requests_carry_key c storage w _ _ Hrun)
    as (delta & Hs & Hw).
  exists w', delta. split; [exact Hrun|]. split; [exact Hs|exact Hw].
Defined.

(** The payload fits exactly: 11 bytes into 11 available bytes. *)
Lemma Upload_within_quota_witness :
  let w := answering (reply 200 "11") in
  let data := body_of "hello world" in
  exists qreq qrt rt w2,
    Storage.Upload storage data "a.txt" "" None w = (StorageCalls.upload_outcome rt, w2) /\
    has_suffix w w2
      [(qreq, qrt); (StorageCalls.upload_request_of storage data "a.txt" "", rt)] /\
    StorageCalls.is_quota_request storage qreq = true /\
    StorageCalls.is_upload_request storage
      (StorageCalls.upload_request_of storage data "a.txt" "") = true.
Proof.
  intros w data.
  apply (UploadFacts.Upload_within_quota (MD := models) storage data "a.txt" "" None w 11
           (Storage.GetQuota storage w).2).
  - left. split; reflexivity.
  - vm_compute. reflexivity.
  - vm_compute. discriminate.
  - vm_compute. reflexivity.
Defined.

(** The quota endpoint is down. *)
Lemma Upload_quota_unavailable_witness :
  let w := answering (reply 500 "boom") in
  let data := body_of "hello world" in
  Storage.Upload storage data "a.txt" "" None w =
    (Err (otherError "WOWSQLError" "boom"), (Storage.GetQuota storage w).2).
Proof.
  intros w data.
  apply (UploadFacts.Upload_quota_unavailable storage data "a.txt" "" None w).
  - left. split; reflexivity.
  - vm_compute. reflexivity.
Defined.

Lemma ListFiles_query_witness :
  let w := answering (reply 200 "a.png") in
  (exists req rt r,
     Storage.ListFiles storage "img/" 10 w
       = (r, mkWorld (network w) (log w ++ [(req, rt)])) /\
     rt = network w (Storage.httpClient storage) (sent w ++ [req]) /\
     Method req = "GET" /\
     URL req = Storage.projectURL storage +:+ "/api/v1/storage/list"
                 +:+ Wire.join_query (Wire.list_params "img/" 10) /\
     ReqBody req = None) /\
  Wire.join_query (Wire.list_params ("img/" +:+ "&limit=" +:+ fmt_d 10) 0)
    = Wire.join_query (Wire.list_params "img/" 10).
Proof.
  intros w.
  destruct (UploadFacts.ListFiles_query storage "img/" 10 w) as (Hsent & _ & Hraw).
  split.
  - apply Hsent. vm_compute. reflexivity.
  - apply Hraw; [discriminate|reflexivity].
Defined.

(** *** Auth *)

Lemma auth_requests_carry_key_witness :
  let w := answering (reply 200 "u1") in
  let c := AuthCalls.call_GetUser ["one-off-token"] in
  exists r cl' w' delta,
    AuthCalls.run c (auth, w) = (r, (cl', w')) /\
    has_suffix w w' delta /\ within (Wire.auth_request c auth) 1 delta.
Proof.
  intros w c.
  assert (Hrun : exists r cl' w', AuthCalls.run c (auth, w) = (r, (cl', w'))).
  { eexists _, _, _. vm_compute. reflexivity. }
  destruct Hrun as (r & cl' & w' & Hrun).
  destruct (AuthWire.auth_requests_carry_key c auth w r cl' w' Hrun) as (delta & Hs & Hw).
  exists r, cl', w', delta. split; [exact Hrun|]. split; [exact Hs|exact Hw].
Defined.



Lemma magic_link_purpose_validated_witness :
  let w := answering (reply 200 "unused") in
  Auth.SendMagicLink "ann@example.com" "delete_account" (auth, w) =
    (Err (errorString "purpose must be 'login', 'signup', or 'email_verification'" []),
     (auth, w)).
Proof.
  intros w.
  apply (proj1 (AuthMore.magic_link_purpose_validated "ann@example.com" "delete_account"
                  auth w)); discriminate.
Defined.

(** A client with the deprecated public key only, after a sign-in and a
    [ClearSession]. *)
Lemma configuration_is_invariant_witness :
  let cfg := {| Auth.ProjectURL := "demo"; Auth.BaseDomain := ""; Auth.Secure := true;
                Auth.config_Timeout := 0; Auth.APIKey := "";
                Auth.PublicAPIKey := "wowsql_public_key" |} in
  let w := answering (reply 200 "new-access") in
  let c := AuthCalls.call_SignIn "ann@example.com" "s3cret" in
  exists r cl w',
    AuthCalls.run c (Auth.NewAuthClient cfg, w) = (r, (cl, w')) /\
    Wire.key_authorization (Auth.ClearSession cl) = Some "Bearer wowsql_public_key".
Proof.
  intros cfg w c.
  assert (Hrun : exists r cl w',
             AuthCalls.run c (Auth.NewAuthClient cfg, w) = (r, (cl, w'))).
  { eexists _, _, _. vm_compute. reflexivity. }
  destruct Hrun as (r & cl & w' & Hrun).
  exists r, cl, w'. split; [exact Hrun|].
  apply (AuthMore.configuration_is_invariant cfg (Auth.ClearSession cl)).
  apply reach_ClearSession. eapply reach_call; [apply reach_new|exact Hrun].
Defined.

(** A full name given twice, with metadata in between. *)
Lemma SignUp_payload_fields_witness :
  let os := [opt_FullName "Ann"; opt_UserMetadata None; opt_FullName "Ann Lee"] in
  let w := answering (reply 200 "new-access") in
  SignUp_payload "ann@example.com" "s3cret" (map apply_option os)
    = Auth.mkSignUpRequest "ann@example.com" "s3cret" (Some "Ann Lee") None /\
  exists req rt,
    (Auth.SignUp "ann@example.com" "s3cret" (map apply_option os) (auth, w)).2.2
      = mkWorld (network w) (log w ++ [(req, rt)]) /\
    rt = network w (Auth.httpClient auth) (sent w ++ [req]) /\
    Method req = "POST" /\ URL req = Auth.baseURL auth +:+ "/signup" /\
    ReqBody req = Some (json_body (body_of "{}")).
Proof.
  intros os w.
  destruct (AuthMore.SignUp_payload_fields "ann@example.com" "s3cret" os)
    as (Hpayload & _ & Hsent).
  split; [exact Hpayload|].
  apply (Hsent auth w (body_of "{}")); vm_compute; reflexivity.
Defined.

Lemma buildAuthBaseURL_of_url_witness :
  Auth.buildAuthBaseURL "http://localhost:8000/api/" "" true
    = "http://localhost:8000" +:+ "/api/auth".
Proof.
  apply (BaseURL.buildAuthBaseURL_of_url "http://localhost:8000/api/" "" true
           "http://localhost:8000" "/api/").
  - reflexivity.
  - do 3 right. left. reflexivity.
  - reflexivity.
  - reflexivity.
  - reflexivity.
Defined.

Lemma buildAuthBaseURL_of_slug_witness :
  Auth.buildAuthBaseURL "demo" "" false = "http" +:+ "://" +:+ "demo" +:+ ".wowsql.com/api/auth".
Proof.
  apply (proj1 BaseURL.buildAuthBaseURL_of_slug "demo" false "demo"); reflexivity.
Defined.

(** *** Schema *)

Lemma schema_requests_carry_key_witness :
  let w := answering (reply 200 "dropped") in
  let c := SchemaCalls.call_DropTable "users" true in
  exists r w' delta,
    SchemaCalls.run c schema w = (r, w') /\
    has_suffix w w' delta /\
    within (Wire.schema_request (Schema.baseURL schema) (Schema.serviceKey schema)
              (SchemaCalls.target c)) 1 delta.
Proof.
  intros w c.
  assert (Hrun : exists r w', SchemaCalls.run c schema w = (r, w')).
  { eexists _, _. vm_compute. reflexivity. }
  destruct Hrun as (r & w' & Hrun).
  destruct (proj1 SchemaWire.schema_requests_carry_key c schema w r w' Hrun)
    as (delta & Hs & Hw).
  exists r, w', delta. split; [exact Hrun|]. split; [exact Hs|exact Hw].
Defined.


End MoreExamples.
